(** * stacker: import resolver and build orchestrator

    A shallow embedding of [import.go] (package [stacker]) and of
    [stacker/build.go] (the [build] sub-command).  The Go code threads a
    file system, an OCI layout, a build cache and a snapshot store through
    its calls and returns [error] values; here it becomes a state and error
    monad over a [World] that holds the file system the code inspects and a
    log of every call that leaves the process. *)

From Stdlib Require Import ZArith NArith Lia.
From Stdlib Require Import Strings.String Strings.Ascii Strings.Byte.
From stdpp Require Import base option list sorting gmap strings.

Local Open Scope string_scope.
Local Open Scope list_scope.

(** ** Go values *)

(** A Go [error] value is carried by its message. *)
Definition error := string.

(** The two-valued result [(x, err)] of a Go call. *)
Inductive outcome (A : Type) : Type :=
| Ok (a : A)
| Err (e : error).
Arguments Ok {A} a.
Arguments Err {A} e.

(** [strings.HasPrefix]. *)
Definition HasPrefix (s pre : string) : bool := String.prefix pre s.

(** [strings.HasSuffix]. *)
Definition HasSuffix (s suf : string) : bool :=
  (String.length suf <=? String.length s)%nat
  && String.eqb (substring (String.length s - String.length suf) (String.length suf) s) suf.

(** [strings.Replace(s, old, new, 1)] for a one-character [old]: only the
    first occurrence is replaced. *)
Fixpoint ReplaceFirst (s : string) (old : ascii) (new : string) : string :=
  match s with
  | EmptyString => EmptyString
  | String c rest =>
      if Ascii.eqb c old then new +:+ rest
      else String c (ReplaceFirst rest old new)
  end.

(** ** OCI and umoci records ([ispec], [umoci]) *)

Module ispec.

Record Descriptor := {
  MediaType : string;
  Digest : string;
  Size : Z
}.

(** The zero value [ispec.Descriptor{}]. *)
Definition empty : Descriptor :=
  {| MediaType := ""; Digest := ""; Size := 0 |}.

(** The image configuration fields that [doBuild] edits.  A [nil] slice or
    map is [None]. *)
Record ImageConfig := {
  Env : list string;
  Cmd : option (list string);
  Entrypoint : option (list string);
  Volumes : option (gset string);
  Labels : option (gmap string string);
  WorkingDir : string
}.

Record Image := {
  Author : string;
  Created : Z;
  Architecture : string;
  OS : string
}.

Record History := {
  EmptyLayer : bool;
  HistoryCreated : option Z;
  CreatedBy : string
}.

End ispec.

Module umoci.

(** [casext.DescriptorPath]: a non-empty walk of descriptors. *)
Record DescriptorPath := {
  WalkHead : ispec.Descriptor;
  WalkTail : list ispec.Descriptor
}.

(** [DescriptorPath.Root()] is [Walk[0]]. *)
Definition Root (p : DescriptorPath) : ispec.Descriptor := WalkHead p.

(** [DescriptorPath.Descriptor()] is the last step of the walk. *)
Definition Descriptor (p : DescriptorPath) : ispec.Descriptor :=
  List.last (WalkTail p) (WalkHead p).

Record UmociMeta := {
  Version : string;
  From : DescriptorPath
}.

End umoci.

(** ** Stacker declarations

    The declarations of the package live in files other than the two
    embedded here; the records below carry the fields that [import.go] and
    [build.go] read. *)

Module types.

Record StackerConfig := {
  StackerDir : string;
  OCIDir : string;
  RootFSDir : string
}.

(** Modelled from the spec: the [from] reference of a layer is a tagged union
    of scratch, a base image reference, or another layer's output. *)
Inductive FromType := ScratchType | BaseImageType | BuiltType.

Record ImageSource := {
  Type_ : FromType;
  Tag : string
}.

(** An [interface{}] field of the YAML declaration: a scalar or a sequence. *)
Inductive Raw :=
| RawString (s : string)
| RawList (l : list string).

(** A layer declaration.  [Environment] is a Go map; it is held as the list
    of its entries in the order in which [range] visits them in the run at
    hand, since that order decides the order of the appended entries. *)
Record Layer := {
  From : ImageSource;
  Import : option Raw;
  Run : option Raw;
  Environment : list (string * string);
  Cmd : option Raw;
  Entrypoint : option Raw;
  FullCommand : option Raw;
  Volumes : list string;
  Labels : gmap string string;
  WorkingDir : string;
  BuildOnly : bool
}.

Record BaseLayerOpts := {
  Config : StackerConfig;
  Name : string;
  Target : string;
  OptLayer : Layer
}.

End types.

(** The flags of the [build] command. *)
Record BuildFlags := {
  leave_unladen : bool;
  stacker_file : string;
  no_cache : bool;
  substitute : list string;
  on_run_failure : string
}.

(** [net/url.URL], the fields [acquireUrl] reads. *)
Record URL := {
  Scheme : string;
  Host : string;
  Path : string
}.

(** ** The file system *)

Inductive node :=
| File (perm : N) (data : list byte)
| Symlink (target : string)
| Dir (perm : N).

(** [os.FileMode] bits. *)
Definition ModeDir : N := 2 ^ 31.
Definition ModeSymlink : N := 2 ^ 27.
Definition ModePerm : N := 511.

Module os.
Record FileInfo := {
  Name : string;
  Size : Z;
  Mode : N
}.

Definition IsDir (fi : FileInfo) : bool :=
  negb (N.land (Mode fi) ModeDir =? 0)%N.

(** An open [*os.File]: the name it was opened under and the path the
    name resolved to. *)
Record File := {
  Opened : string;
  Resolved : string
}.
End os.

(** ** Calls that leave the modelled code

    Each constructor is one call of [import.go] or [build.go] into a
    collaborator whose code lives elsewhere; the index is the Go result
    type.  Receivers that exist once per build (the storage [s], the layout
    [oci], the [buildCache]) are implicit; a mutator is named by the
    reference it was opened for. *)
Inductive ExtE : Type -> Type :=
| RemoveAll (p : string) : ExtE (option error)
| MkdirAll (p : string) (perm : N) : ExtE (option error)
| HaveRsync : ExtE (option error)
| CombinedOutput (binary : string) (args : list string) : ExtE (string * option error)
| Download (cacheDir url : string) : ExtE (outcome string)
| NewStackerfile (file : string) (subst : list string) : ExtE (outcome (gmap string types.Layer))
| NewStorage (c : types.StackerConfig) : ExtE (option error)
| Detach : ExtE (option error)
| DependencyOrder (sf : gmap string types.Layer) : ExtE (outcome (list string))
| CreateLayout (dir : string) : ExtE (option error)
| OpenLayout (dir : string) : ExtE (option error)
| LayoutClose : ExtE (option error)
| OpenCache (dir : string) : ExtE (option error)
| StorageDelete (name : string) : ExtE (option error)
| StorageRestore (source target : string) : ExtE (option error)
| StorageCreate (name : string) : ExtE (option error)
| StorageSnapshot (source target : string) : ExtE (option error)
| CacheLookup (l : types.Layer) (importDir : string) : ExtE (ispec.Descriptor * bool)
| CachePut (l : types.Layer) (importDir : string) (d : ispec.Descriptor) : ExtE (option error)
| UpdateReference (name : string) (d : ispec.Descriptor) : ExtE (option error)
| LookupManifestDescriptor (name : string) : ExtE (outcome ispec.Descriptor)
| GetBaseLayer (o : types.BaseLayerOpts) : ExtE (option error)
| RunCommands (c : types.StackerConfig) (name : string) (l : types.Layer) (onRunFailure : string)
    : ExtE (option error)
| MaybeRunInUserns (args : list string) (msg : string) : ExtE (option error)
| Mutator (name : string) : ExtE (option error)
| MutatorConfig (name : string) : ExtE (outcome ispec.ImageConfig)
| MutatorMeta (name : string) : ExtE (outcome ispec.Image)
| MutatorAnnotations (name : string) : ExtE (outcome (gmap string string))
| MutatorSet (name : string) (cfg : ispec.ImageConfig) (meta : ispec.Image)
    (annotations : gmap string string) (history : ispec.History) : ExtE (option error)
| MutatorCommit (name : string) : ExtE (outcome umoci.DescriptorPath)
| WriteBundleMeta (bundle : string) (meta : umoci.UmociMeta) : ExtE (option error)
| TimeNow : ExtE Z.

(** What the process did, in order. *)
Inductive Event :=
| EvStat (p : string)
| EvReadlink (p : string)
| EvOpen (p : string)
| EvRead (p : string)
| EvCreate (p : string)
| EvChmod (p : string) (mode : N)
| EvCopy (dst src : string)
| EvReadDir (p : string)
| EvRename (oldpath newpath : string)
| EvPrint (s : string)
| EvExt {R : Type} (e : ExtE R).

Record World := {
  files : gmap string node;
  umask : N;
  log : list Event
}.

Definition record (ev : Event) (w : World) : World :=
  {| files := files w; umask := umask w; log := log w ++ [ev] |}.

Definition withFiles (fs : gmap string node) (w : World) : World :=
  {| files := fs; umask := umask w; log := log w |}.

(** ** The Go libraries and the collaborators

    The standard-library functions whose text is not part of the repository
    ([path], [net/url]), the constants and parsers of the package that live
    in its other files, and the answers of the collaborators are parameters of
    the development.  [extern] answers a call from the world it is made in
    (the log is the history of the build) and says what the call left on
    the file system. *)
Class GoEnv := {
  path_Join : list string -> string;
  path_Base : string -> string;
  path_Dir : string -> string;
  url_Parse : string -> outcome URL;
  ReasonableDefaultPath : string;
  UmociMetaVersion : string;
  GOARCH : string;
  GOOS : string;
  ParseImport : types.Layer -> outcome (list string);
  ParseCmd : types.Layer -> outcome (option (list string));
  ParseEntrypoint : types.Layer -> outcome (option (list string));
  ParseFullCommand : types.Layer -> outcome (option (list string));
  extern : forall R : Type, ExtE R -> World -> R * gmap string node
}.

(** ** The state and error monad *)

Definition M (A : Type) : Type := World -> outcome A * World.

#[global] Instance M_ret : MRet M := fun A a w => (Ok a, w).

#[global] Instance M_bind : MBind M := fun A B k m w =>
  match m w with
  | (Ok a, w') => k a w'
  | (Err e, w') => (Err e, w')
  end.

(** [return ..., err] with a non-nil [err]. *)
Definition fail {A : Type} (e : error) : M A := fun w => (Err e, w).

(** A call whose [err] the caller inspects instead of returning it. *)
Definition attempt {A : Type} (m : M A) : M (outcome A) := fun w =>
  let (r, w') := m w in (Ok r, w').

(** [if err != nil { return err }] on a result already at hand. *)
Definition check (o : option error) : M unit :=
  match o with
  | None => mret tt
  | Some e => fail e
  end.

Definition try {A : Type} (o : outcome A) : M A :=
  match o with
  | Ok a => mret a
  | Err e => fail e
  end.

(** [defer cleanup] ahead of the rest of a function body: [cleanup] runs
    when the body is left, on either exit, and its result is dropped. *)
Definition defer {A : Type} (cleanup : M unit) (body : M A) : M A := fun w =>
  let (r, w1) := body w in
  let (_, w2) := cleanup w1 in
  (r, w2).

#[global] Instance outcome_ret : MRet outcome := fun A a => Ok a.

#[global] Instance outcome_bind : MBind outcome := fun A B k o =>
  match o with
  | Ok a => k a
  | Err e => Err e
  end.

Definition emit (ev : Event) : M unit := fun w => (Ok tt, record ev w).

(** [fmt.Printf] and [fmt.Println]. *)
Definition fmt_Print (s : string) : M unit := emit (EvPrint s).

(** ** Errno messages *)

Definition ENOENT : error := "no such file or directory".
Definition ELOOP : error := "too many levels of symbolic links".
Definition EINVAL : error := "invalid argument".
Definition EISDIR : error := "is a directory".
Definition ENOTDIR : error := "not a directory".
Definition ENOTEMPTY : error := "directory not empty".
Definition EBADF : error := "bad file descriptor".

(** The kernel gives up after this many links in one resolution. *)
Definition maxSymlinks : nat := 40.

(** Where a name resolution ends. *)
Inductive walk :=
| Found (p : string) (n : node)
| Missing (p : string)
| Loop.

(** What [lstat] reports for a node stored under [name]. *)
Definition fileInfo (name : string) (n : node) : os.FileInfo :=
  match n with
  | File perm data =>
      {| os.Name := name; os.Size := Z.of_nat (length data);
         os.Mode := N.land perm ModePerm |}
  | Symlink target =>
      {| os.Name := name; os.Size := Z.of_nat (String.length target);
         os.Mode := N.lor ModeSymlink ModePerm |}
  | Dir perm =>
      {| os.Name := name; os.Size := 4096;
         os.Mode := N.lor ModeDir (N.land perm ModePerm) |}
  end.

Definition isSymlink (fi : os.FileInfo) : bool :=
  negb (N.land (os.Mode fi) ModeSymlink =? 0)%N.

(** Bytes written at offset 0 over the old contents. *)
Definition overwrite (new old : list byte) : list byte :=
  new ++ drop (length new) old.

(** Modelled from the spec: the byte-wise content comparison of the external
    [equalfile] package, on the two streams read to their end. *)
Fixpoint equalBytes (a b : list byte) : bool :=
  match a, b with
  | [], [] => true
  | x :: a', y :: b' => Byte.eqb x y && equalBytes a' b'
  | _, _ => false
  end.

#[global] Instance byte_eq_dec : EqDecision byte := Byte.byte_eq_dec.

(** [k] lies strictly below the directory [dir]. *)
Definition under (dir k : string) : bool := HasPrefix k (dir +:+ "/").

Definition rebase (oldpath newpath k : string) : string :=
  if String.eqb k oldpath then newpath
  else if under oldpath k
       then newpath +:+ substring (String.length oldpath)
                                  (String.length k - String.length oldpath) k
       else k.

(** A directory moves with everything below it. *)
Definition moveTree (oldpath newpath : string) (fs : gmap string node)
  : gmap string node :=
  list_to_map (map (fun kn : string * node => (rebase oldpath newpath kn.1, kn.2))
                   (map_to_list fs)).

Definition hasEntries (fs : gmap string node) (dir : string) : bool :=
  existsb (fun kn : string * node => under dir kn.1) (map_to_list fs).

Definition isDirAt (fs : gmap string node) (p : string) : bool :=
  match fs !! p with
  | Some (Dir _) => true
  | _ => false
  end.

#[global] Instance byName_dec :
  RelDecision (fun a b : os.FileInfo => String.leb (os.Name a) (os.Name b) = true).
Proof. intros a b. exact (decide (String.leb (os.Name a) (os.Name b) = true)). Defined.

(** The descriptors that the [UpdateReference] calls for [name] carry, in
    the order of the log. *)
Fixpoint referenceUpdates (name : string) (evs : list Event) : list ispec.Descriptor :=
  match evs with
  | [] => []
  | ev :: rest =>
      match ev with
      | EvExt e =>
          match e with
          | UpdateReference n d =>
              if String.eqb n name then d :: referenceUpdates name rest
              else referenceUpdates name rest
          | _ => referenceUpdates name rest
          end
      | _ => referenceUpdates name rest
      end
  end.

(** The name of a bundle manifest, as [updateBundleMtree] recognises it. *)
Definition isMtree (fi : os.FileInfo) : bool := HasSuffix (os.Name fi) ".mtree".

(** The copy-count instrumentation point: the [io.Copy] calls in a log. *)
Definition isCopy (ev : Event) : bool :=
  match ev with
  | EvCopy _ _ => true
  | _ => false
  end.

Definition copies (evs : list Event) : nat := length (List.filter isCopy evs).

Section Stacker.

Context `{GoEnv}.

(** *** System calls

    Paths are looked up as they are spelled; the last component of a name
    is resolved through symbolic links, the directories above it are taken
    as written.  Permission checks are not modelled. *)

Definition linkPath (link target : string) : string :=
  if HasPrefix target "/" then target
  else path_Join [path_Dir link; target].

Fixpoint follow (fuel : nat) (fs : gmap string node) (p : string) : walk :=
  match fs !! p with
  | None => Missing p
  | Some (Symlink target) =>
      match fuel with
      | O => Loop
      | S fuel' => follow fuel' fs (linkPath p target)
      end
  | Some n => Found p n
  end.

Definition resolve (fs : gmap string node) (p : string) : walk :=
  if String.eqb p "" then Missing p else follow maxSymlinks fs p.

(** [os.Stat]: follows links; the info is named after the argument. *)
Definition os_Stat (p : string) : M os.FileInfo := fun w =>
  let w' := record (EvStat p) w in
  match resolve (files w) p with
  | Found _ n => (Ok (fileInfo (path_Base p) n), w')
  | Missing _ => (Err ENOENT, w')
  | Loop => (Err ELOOP, w')
  end.

(** [os.Readlink]: reads the link itself. *)
Definition os_Readlink (p : string) : M string := fun w =>
  let w' := record (EvReadlink p) w in
  match files w !! p with
  | Some (Symlink target) => (Ok target, w')
  | Some _ => (Err EINVAL, w')
  | None => (Err ENOENT, w')
  end.

(** [os.Open]: read-only, follows links; a directory opens too. *)
Definition os_Open (p : string) : M os.File := fun w =>
  let w' := record (EvOpen p) w in
  match resolve (files w) p with
  | Found q _ => (Ok {| os.Opened := p; os.Resolved := q |}, w')
  | Missing _ => (Err ENOENT, w')
  | Loop => (Err ELOOP, w')
  end.

(** The [Stat] method of an open file. *)
Definition File_Stat (f : os.File) : M os.FileInfo := fun w =>
  match files w !! os.Resolved f with
  | Some n => (Ok (fileInfo (path_Base (os.Opened f)) n), w)
  | None => (Err EBADF, w)
  end.

(** [os.Create]: [O_RDWR|O_CREATE|O_TRUNC] with mode 0666 before umask; an
    existing file is truncated and keeps its mode, a link is followed, a new
    file needs a name and a directory to live in. *)
Definition os_Create (p : string) : M os.File := fun w =>
  let w' := record (EvCreate p) w in
  match resolve (files w) p with
  | Found q (File perm _) =>
      (Ok {| os.Opened := p; os.Resolved := q |},
       withFiles (<[q := File perm []]> (files w)) w')
  | Found _ _ => (Err EISDIR, w')
  | Missing q =>
      if negb (String.eqb q "") && isDirAt (files w) (path_Dir q)
      then (Ok {| os.Opened := p; os.Resolved := q |},
            withFiles (<[q := File (N.ldiff 438 (umask w)) []]> (files w)) w')
      else (Err ENOENT, w')
  | Loop => (Err ELOOP, w')
  end.

(** The [Chmod] method of an open file: the permission bits of [mode] replace the file's. *)
Definition File_Chmod (f : os.File) (mode : N) : M unit := fun w =>
  let w' := record (EvChmod (os.Resolved f) mode) w in
  match files w !! os.Resolved f with
  | Some (File _ data) =>
      (Ok tt, withFiles (<[os.Resolved f := File (N.land mode ModePerm) data]> (files w)) w')
  | Some (Dir _) =>
      (Ok tt, withFiles (<[os.Resolved f := Dir (N.land mode ModePerm)]> (files w)) w')
  | _ => (Err EBADF, w')
  end.

(** [io.Copy(d, s)]: the source is read as it is when the copy runs. *)
Definition io_Copy (d s : os.File) : M Z := fun w =>
  let w' := record (EvCopy (os.Resolved d) (os.Resolved s)) w in
  match files w !! os.Resolved s, files w !! os.Resolved d with
  | Some (File _ data), Some (File perm old) =>
      (Ok (Z.of_nat (length data)),
       withFiles (<[os.Resolved d := File perm (overwrite data old)]> (files w)) w')
  | Some (Dir _), _ => (Err EISDIR, w')
  | _, _ => (Err EBADF, w')
  end.

(** Reading an open file to its end. *)
Definition readAll (f : os.File) : M (list byte) := fun w =>
  let w' := record (EvRead (os.Resolved f)) w in
  match files w !! os.Resolved f with
  | Some (File _ data) => (Ok data, w')
  | Some (Dir _) => (Err EISDIR, w')
  | _ => (Err EBADF, w')
  end.

(** [equalfile.New(nil, equalfile.Options{}).CompareReader(f1, f2)]. *)
Definition CompareReader (f1 f2 : os.File) : M bool :=
  b1 ← readAll f1;
  b2 ← readAll f2;
  mret (equalBytes b1 b2).

(** The entries of [root]: the paths that [root] joined with their own last
    element spells. *)
Definition isChild (root k : string) : bool :=
  negb (String.eqb k root) && String.eqb (path_Join [root; path_Base k]) k.

Definition dirEntries (fs : gmap string node) (root : string) : list os.FileInfo :=
  map (fun kn : string * node => fileInfo (path_Base kn.1) kn.2)
      (filter (fun kn : string * node => isChild root kn.1 = true) (map_to_list fs)).

(** [ioutil.ReadDir]: the [lstat] infos of the entries, sorted by name. *)
Definition ioutil_ReadDir (root : string) : M (list os.FileInfo) := fun w =>
  let w' := record (EvReadDir root) w in
  match files w !! root with
  | Some (Dir _) =>
      (Ok (merge_sort (fun a b => String.leb (os.Name a) (os.Name b) = true)
                      (dirEntries (files w) root)), w')
  | Some _ => (Err ENOTDIR, w')
  | None => (Err ENOENT, w')
  end.

(** [os.Rename]: the link itself moves, an existing target that is not a
    directory is replaced. *)
Definition os_Rename (oldpath newpath : string) : M unit := fun w =>
  let fs := files w in
  let w' := record (EvRename oldpath newpath) w in
  match fs !! oldpath with
  | None => (Err ENOENT, w')
  | Some n =>
      if String.eqb oldpath newpath then (Ok tt, w')
      else if negb (isDirAt fs (path_Dir newpath)) then (Err ENOENT, w')
      else
        match n, fs !! newpath with
        | Dir _, Some (Dir _) =>
            if hasEntries fs newpath then (Err ENOTEMPTY, w')
            else (Ok tt, withFiles (moveTree oldpath newpath (delete newpath fs)) w')
        | Dir _, Some _ => (Err ENOTDIR, w')
        | Dir _, None =>
            if under oldpath newpath then (Err EINVAL, w')
            else (Ok tt, withFiles (moveTree oldpath newpath fs) w')
        | _, Some (Dir _) => (Err EISDIR, w')
        | _, _ => (Ok tt, withFiles (<[newpath := n]> (delete oldpath fs)) w')
        end
  end.

(** A call into a collaborator: the answer and the file system it leaves
    come from [extern]; the call is appended to the log. *)
Definition call {R : Type} (e : ExtE R) : M R := fun w =>
  let (r, fs) := extern R e w in
  (Ok r, record (EvExt e) (withFiles fs w)).

(** *** import.go *)

Definition nl : string := String (ascii_of_nat 10) EmptyString.

Definition fileCopy (dest source : string) : M unit :=
  s ← os_Open source;
  fi ← File_Stat s;
  d ← os_Create dest;
  File_Chmod d (os.Mode fi);;
  _ ← io_Copy d s;
  mret tt.

(** filesDiffer returns true if the files are different, false if they are
    the same. *)
Definition filesDiffer (p1 : string) (info1 : os.FileInfo)
                       (p2 : string) (info2 : os.FileInfo) : M bool :=
  if negb (String.eqb (os.Name info1) (os.Name info2))
  then fail "comparing files without the same name?"
  else if isSymlink info1 then
    if isSymlink info2 then
      link1 ← os_Readlink p1;
      link2 ← os_Readlink p2;
      mret (negb (String.eqb link1 link2))
    else fail "symlink -> not symlink not supported"
  else if negb (os.Size info1 =? os.Size info2)%Z then mret true
  else
    f1 ← os_Open p1;
    f2 ← os_Open p2;
    eq ← CompareReader f1 f2;
    mret (negb eq).

Definition importFile (imp cacheDir : string) : M string :=
  e1 ← os_Stat imp;
  if os.IsDir e1 then
    rsync ← call HaveRsync;
    let binary := match rsync with None => "rsync" | Some _ => "cp" end in
    r ← call (CombinedOutput binary ["-a"; imp; cacheDir]);
    match r.2 with
    | Some _ => fail r.1
    | None => mret (path_Join [cacheDir; path_Base imp])
    end
  else
    let dest := path_Join [cacheDir; path_Base imp] in
    r2 ← attempt (os_Stat dest);
    needsCopy ← match r2 with
                | Err _ => mret true
                | Ok e2 => filesDiffer imp e1 dest e2
                end;
    (if needsCopy : bool
     then fmt_Print ("copying " +:+ imp +:+ nl);; fileCopy dest imp
     else fmt_Print ("using cached copy of " +:+ imp +:+ nl));;
    mret dest.

(** The destination already holds the bytes [d]. *)
Definition holds (fs : gmap string node) (dest : string) (d : list byte) : bool :=
  match resolve fs dest with
  | Found _ (File _ d') => bool_decide (d' = d)
  | _ => false
  end.

(** The destination can be written: it is a regular file, or it is absent
    from a directory that exists. *)
Definition writable (fs : gmap string node) (dest : string) : bool :=
  match resolve fs dest with
  | Found _ (File _ _) => true
  | Missing q => negb (String.eqb q "") && isDirAt fs (path_Dir q)
  | _ => false
  end.

Definition acquireUrl (c : types.StackerConfig) (i cache : string) : M string :=
  url ← try (url_Parse i);
  if String.eqb (Scheme url) "" then importFile i cache
  else if String.eqb (Scheme url) "http" || String.eqb (Scheme url) "https" then
    r ← call (Download cache i);
    try r
  else if String.eqb (Scheme url) "stacker" then
    importFile (path_Join [types.RootFSDir c; Host url; "rootfs"; Path url]) cache
  else fail ("unsupported url scheme " +:+ i).

(** The [range imports] loop of [Import]. *)
Fixpoint importEach (c : types.StackerConfig) (dir : string) (imports : list string)
  : M unit :=
  match imports with
  | [] => mret tt
  | i :: rest => _ ← acquireUrl c i dir; importEach c dir rest
  end.

Definition Import (c : types.StackerConfig) (name : string) (imports : list string)
  : M unit :=
  let dir := path_Join [types.StackerDir c; "imports"; name] in
  err ← call (MkdirAll dir 493);
  check err;;
  importEach c dir imports.

(** *** stacker/build.go *)

(** The [for _, fi := range infos] loop of [updateBundleMtree]. *)
Fixpoint renameFirstMtree (rootPath newName : string) (infos : list os.FileInfo)
  : M unit :=
  match infos with
  | [] => mret tt
  | fi :: rest =>
      if negb (HasSuffix (os.Name fi) ".mtree")
      then renameFirstMtree rootPath newName rest
      else os_Rename (path_Join [rootPath; os.Name fi]) (path_Join [rootPath; newName])
  end.

Definition updateBundleMtree (rootPath : string) (newPath : ispec.Descriptor) : M unit :=
  let newName := ReplaceFirst (ispec.Digest newPath) ":" "_" +:+ ".mtree" in
  infos ← ioutil_ReadDir rootPath;
  renameFirstMtree rootPath newName infos.

(** Lines 209-215 of [doBuild]: the [range l.Environment] loop. *)
Fixpoint appendEnvironment (declared : list (string * string)) (pathSet : bool)
                           (env : list string) : bool * list string :=
  match declared with
  | [] => (pathSet, env)
  | (k, v) :: rest =>
      appendEnvironment rest (if String.eqb k "PATH" then true else pathSet)
                        (env ++ [k +:+ "=" +:+ v])
  end.

(** Lines 209-229: the environment of the image configuration. *)
Definition mergeEnvironment (l : types.Layer) (env : list string) : list string :=
  let r := appendEnvironment (types.Environment l) false env in
  let pathSet :=
    if r.1 then true
    else existsb (fun s => HasPrefix s "PATH=") r.2 in
  if pathSet then r.2
  else r.2 ++ ["PATH=" +:+ ReasonableDefaultPath].

(** Lines 231-251: [Cmd] and [Entrypoint] of the image configuration. *)
Definition mergeCommands (l : types.Layer) (cmd entrypoint : option (list string))
  : outcome (option (list string) * option (list string)) :=
  cmd ← match types.Cmd l with
        | Some _ => ParseCmd l
        | None => Ok cmd
        end;
  entrypoint ← match types.Entrypoint l with
               | Some _ => ParseEntrypoint l
               | None => Ok entrypoint
               end;
  match types.FullCommand l with
  | Some _ =>
      entrypoint ← ParseFullCommand l;
      Ok (None, entrypoint)
  | None => Ok (cmd, entrypoint)
  end.

(** Lines 209-271: the edits to the image configuration. *)
Definition editConfig (l : types.Layer) (imageConfig : ispec.ImageConfig)
  : outcome ispec.ImageConfig :=
  let env := mergeEnvironment l (ispec.Env imageConfig) in
  ce ← mergeCommands l (ispec.Cmd imageConfig) (ispec.Entrypoint imageConfig);
  Ok {| ispec.Env := env;
        ispec.Cmd := ce.1;
        ispec.Entrypoint := ce.2;
        ispec.Volumes :=
          Some (default ∅ (ispec.Volumes imageConfig) ∪ list_to_set (types.Volumes l));
        ispec.Labels :=
          Some (types.Labels l ∪ default ∅ (ispec.Labels imageConfig));
        ispec.WorkingDir :=
          if String.eqb (types.WorkingDir l) "" then ispec.WorkingDir imageConfig
          else types.WorkingDir l |}.

(** Lines 139-162: the working tree of a layer that has to be built. *)
Definition prepareTree (c : types.StackerConfig) (name : string) (l : types.Layer)
  : M unit :=
  _ ← call (StorageDelete ".working");
  match types.Type_ (types.From l) with
  | types.BuiltType =>
      err ← call (StorageRestore (types.Tag (types.From l)) ".working");
      check err
  | _ =>
      err ← call (StorageCreate ".working");
      check err;;
      err ← call (GetBaseLayer {| types.Config := c; types.Name := name;
                                  types.Target := ".working"; types.OptLayer := l |});
      check err
  end.

(** Lines 173-184: a build-only layer is snapshotted and a bogus entry is
    added to the cache. *)
Definition snapshotBuildOnly (name : string) (l : types.Layer) (importDir : string)
  : M unit :=
  _ ← call (StorageDelete name);
  err ← call (StorageSnapshot ".working" name);
  check err;;
  fmt_Print ("build only layer, skipping OCI diff generation" +:+ nl);;
  err ← call (CachePut l importDir ispec.empty);
  check err.

(** Lines 186-306: repack, edit the configuration, commit, point the
    reference at the new image. *)
Definition commitLayer (c : types.StackerConfig) (name : string) (l : types.Layer)
  : M umoci.DescriptorPath :=
  fmt_Print ("generating layer..." +:+ nl);;
  err ← call (MaybeRunInUserns
                ["umoci"; "repack"; "--refresh-bundle"; "--image";
                 types.OCIDir c +:+ ":" +:+ name;
                 path_Join [types.RootFSDir c; ".working"]]
                "layer generation failed");
  check err;;
  err ← call (Mutator name);
  match err with
  | Some e => fail ("mutator failed: " +:+ e)
  | None => mret tt
  end;;
  r ← call (MutatorConfig name);
  imageConfig ← try r;
  imageConfig ← try (editConfig l imageConfig);
  r ← call (MutatorMeta name);
  meta ← try r;
  now ← call TimeNow;
  let meta := {| ispec.Author := ispec.Author meta; ispec.Created := now;
                 ispec.Architecture := GOARCH; ispec.OS := GOOS |} in
  r ← call (MutatorAnnotations name);
  annotations ← try r;
  let history := {| ispec.EmptyLayer := true;
                    ispec.HistoryCreated := Some (ispec.Created meta);
                    ispec.CreatedBy := "stacker build" |} in
  err ← call (MutatorSet name imageConfig meta annotations history);
  check err;;
  r ← call (MutatorCommit name);
  newPath ← try r;
  err ← call (UpdateReference name (umoci.Root newPath));
  check err;;
  mret newPath.

(** Lines 308-320: the umoci data of the working tree follows the new
    image. *)
Definition refreshBundle (c : types.StackerConfig) (newPath : umoci.DescriptorPath)
  : M unit :=
  let bundlePath := path_Join [types.RootFSDir c; ".working"] in
  updateBundleMtree bundlePath (umoci.Descriptor newPath);;
  err ← call (WriteBundleMeta bundlePath
                {| umoci.Version := UmociMetaVersion; umoci.From := newPath |});
  check err.

(** Lines 322-337: snapshot the tree under the layer's name and enter the
    manifest in the cache. *)
Definition recordLayer (name : string) (l : types.Layer) (importDir : string)
  : M unit :=
  _ ← call (StorageDelete name);
  err ← call (StorageSnapshot ".working" name);
  check err;;
  fmt_Print ("filesystem " +:+ name +:+ " built successfully" +:+ nl);;
  r ← call (LookupManifestDescriptor name);
  desc ← try r;
  err ← call (CachePut l importDir desc);
  check err.

(** Lines 139-167: the working tree is prepared and the layer's commands
    run in it. *)
Definition runLayer (c : types.StackerConfig) (flags : BuildFlags) (name : string)
                    (l : types.Layer) : M unit :=
  prepareTree c name l;;
  fmt_Print ("running commands..." +:+ nl);;
  err ← call (RunCommands c name l (on_run_failure flags));
  check err.

(** Lines 139-337: what a layer goes through when the cache has no entry
    for it. *)
Definition buildMiss (c : types.StackerConfig) (flags : BuildFlags) (name : string)
                     (l : types.Layer) (importDir : string) : M unit :=
  runLayer c flags name l;;
  if types.BuildOnly l then snapshotBuildOnly name l importDir
  else
    newPath ← commitLayer c name l;
    refreshBundle c newPath;;
    recordLayer name l importDir.

(** Lines 110-337: the body of the [range order] loop, for the layer [l]
    declared under [name]. *)
Definition buildLayer (c : types.StackerConfig) (flags : BuildFlags) (name : string)
                      (l : types.Layer) : M unit :=
  fmt_Print ("building image " +:+ name +:+ "..." +:+ nl);;
  fmt_Print ("importing files..." +:+ nl);;
  imports ← try (ParseImport l);
  Import c name imports;;
  let importDir := path_Join [types.StackerDir c; "imports"; name] in
  r ← call (CacheLookup l importDir);
  if r.2 : bool then
    fmt_Print ("found cached layer " +:+ name +:+ nl);;
    err ← call (UpdateReference name r.1);
    check err
  else buildMiss c flags name l importDir.

(** The [range order] loop.  A name without a declaration makes [sf[name]]
    nil, and the first use of the layer panics. *)
Fixpoint buildLayers (c : types.StackerConfig) (flags : BuildFlags)
                     (sf : gmap string types.Layer) (order : list string) : M unit :=
  match order with
  | [] => mret tt
  | name :: rest =>
      match sf !! name with
      | Some l => buildLayer c flags name l;; buildLayers c flags sf rest
      | None => fail "panic: nil pointer dereference"
      end
  end.

Definition doBuild (c : types.StackerConfig) (flags : BuildFlags) : M unit :=
  (if no_cache flags then _ ← call (RemoveAll (types.StackerDir c)); mret tt
   else mret tt);;
  r ← call (NewStackerfile (stacker_file flags) (substitute flags));
  sf ← try r;
  err ← call (NewStorage c);
  check err;;
  defer (if leave_unladen flags then mret tt else _ ← call Detach; mret tt) (
    r ← call (DependencyOrder sf);
    order ← try r;
    statErr ← attempt (os_Stat (types.OCIDir c));
    err ← match statErr with
          | Err _ => call (CreateLayout (types.OCIDir c))
          | Ok _ => call (OpenLayout (types.OCIDir c))
          end;
    check err;;
    defer (_ ← call LayoutClose; mret tt) (
      err ← call (OpenCache (types.StackerDir c));
      check err;;
      defer (_ ← call (StorageDelete ".working"); mret tt)
            (buildLayers c flags sf order))).

End Stacker.

(** ** A reference environment

    One instance of [GoEnv], used to run the definitions on concrete
    inputs: lexical path functions for paths that are already clean, a
    scheme split at ["://"], declarations parsed one word per element, and
    collaborators that succeed.  The build cache of this instance answers a
    lookup with the descriptor of the latest [Put] for the same declaration
    and import directory, as the spec describes it. *)

Module Ref.

Fixpoint lastSlash (s : string) : option nat :=
  match s with
  | EmptyString => None
  | String c rest =>
      match lastSlash rest with
      | Some i => Some (S i)
      | None => if Ascii.eqb c "/" then Some 0%nat else None
      end
  end.

Definition Base (p : string) : string :=
  match lastSlash p with
  | Some i => substring (S i) (String.length p - S i) p
  | None => p
  end.

Definition DirOf (p : string) : string :=
  match lastSlash p with
  | Some 0%nat => "/"
  | Some i => substring 0 i p
  | None => "."
  end.

Fixpoint Join (elems : list string) : string :=
  match elems with
  | [] => ""
  | e :: rest =>
      let r := Join rest in
      if String.eqb e "" then r
      else if String.eqb r "" then e
      else e +:+ "/" +:+ r
  end.

(** The index of the first ["://"] in [s]. *)
Fixpoint schemeEnd (s : string) : option nat :=
  match s with
  | EmptyString => None
  | String c rest =>
      if HasPrefix s "://" then Some 0%nat
      else S <$> schemeEnd rest
  end.

Definition Parse (s : string) : outcome URL :=
  match schemeEnd s with
  | None => Ok {| Scheme := ""; Host := ""; Path := s |}
  | Some 0%nat => Err "missing protocol scheme"
  | Some i =>
      let rest := substring (i + 3) (String.length s - (i + 3)) s in
      let h := match index 0 "/" rest with
               | Some j => j
               | None => String.length rest
               end in
      Ok {| Scheme := substring 0 i s;
            Host := substring 0 h rest;
            Path := substring h (String.length rest - h) rest |}
  end.

Definition words (r : option types.Raw) : option (list string) :=
  match r with
  | None => None
  | Some (types.RawString s) => Some [s]
  | Some (types.RawList l) => Some l
  end.

#[global] Instance FromType_eq_dec : EqDecision types.FromType.
Proof. solve_decision. Defined.
#[global] Instance ImageSource_eq_dec : EqDecision types.ImageSource.
Proof. solve_decision. Defined.
#[global] Instance Raw_eq_dec : EqDecision types.Raw.
Proof. solve_decision. Defined.
#[global] Instance Layer_eq_dec : EqDecision types.Layer.
Proof. solve_decision. Defined.

(** Modelled from the spec: a lookup after a prior put for the same
    declaration and import directory returns the descriptor that was put;
    this is the descriptor of the latest [Put] for [(l, dir)] in a log. *)
Fixpoint cached (l : types.Layer) (dir : string) (evs : list Event)
  : option ispec.Descriptor :=
  match evs with
  | [] => None
  | ev :: rest =>
      match cached l dir rest with
      | Some d => Some d
      | None =>
          match ev with
          | EvExt (CachePut l' dir' d) =>
              if decide (l' = l) then
                if String.eqb dir' dir then Some d else None
              else None
          | _ => None
          end
      end
  end.

Definition image : ispec.Descriptor :=
  {| ispec.MediaType := "application/vnd.oci.image.manifest.v1+json";
     ispec.Digest := "sha256:4f6c";
     ispec.Size := 348 |}.

Definition baseConfig : ispec.ImageConfig :=
  {| ispec.Env := []; ispec.Cmd := None; ispec.Entrypoint := None;
     ispec.Volumes := None; ispec.Labels := None; ispec.WorkingDir := "" |}.

Definition answer (R : Type) (e : ExtE R) (w : World) : R * gmap string node :=
  match e in ExtE T return T * gmap string node with
  | RemoveAll _ => (None, files w)
  | MkdirAll p perm => (None, <[p := Dir perm]> (files w))
  | HaveRsync => (None, files w)
  | CombinedOutput _ _ => ("", None, files w)
  | Download cacheDir url => (Ok (Join [cacheDir; Base url]), files w)
  | NewStackerfile _ _ => (Ok ∅, files w)
  | NewStorage _ => (None, files w)
  | Detach => (None, files w)
  | DependencyOrder _ => (Ok [], files w)
  | CreateLayout _ => (None, files w)
  | OpenLayout _ => (None, files w)
  | LayoutClose => (None, files w)
  | OpenCache _ => (None, files w)
  | StorageDelete _ => (None, files w)
  | StorageRestore _ _ => (None, files w)
  | StorageCreate _ => (None, files w)
  | StorageSnapshot _ _ => (None, files w)
  | CacheLookup l dir =>
      (match cached l dir (log w) with
       | Some d => (d, true)
       | None => (ispec.empty, false)
       end, files w)
  | CachePut _ _ _ => (None, files w)
  | UpdateReference _ _ => (None, files w)
  | LookupManifestDescriptor _ => (Ok image, files w)
  | GetBaseLayer _ => (None, files w)
  | RunCommands _ _ _ _ => (None, files w)
  | MaybeRunInUserns _ _ => (None, files w)
  | Mutator _ => (None, files w)
  | MutatorConfig _ => (Ok baseConfig, files w)
  | MutatorMeta _ =>
      (Ok {| ispec.Author := ""; ispec.Created := 0;
             ispec.Architecture := ""; ispec.OS := "" |}, files w)
  | MutatorAnnotations _ => (Ok ∅, files w)
  | MutatorSet _ _ _ _ _ => (None, files w)
  | MutatorCommit _ =>
      (Ok {| umoci.WalkHead := image; umoci.WalkTail := [] |}, files w)
  | WriteBundleMeta _ _ => (None, files w)
  | TimeNow => (Z.of_nat (length (log w)), files w)
  end.

#[global] Instance env : GoEnv := {|
  path_Join := Join;
  path_Base := Base;
  path_Dir := DirOf;
  url_Parse := Parse;
  ReasonableDefaultPath :=
    "/usr/local/sbin:/usr/local/bin:/usr/sbin:/usr/bin:/sbin:/bin";
  UmociMetaVersion := "2";
  GOARCH := "amd64";
  GOOS := "linux";
  ParseImport := fun l => Ok (default [] (words (types.Import l)));
  ParseCmd := fun l => Ok (words (types.Cmd l));
  ParseEntrypoint := fun l => Ok (words (types.Entrypoint l));
  ParseFullCommand := fun l => Ok (words (types.FullCommand l));
  extern := answer
|}.

(** A source directory with one file, and an empty cache directory. *)
Definition hello : list byte := [x68; x65; x6c; x6c; x6f].

Definition disk : gmap string node :=
  <["/src" := Dir 493]>
  (<["/src/data.txt" := File 420 hello]>
  (<["/cache" := Dir 493]> ∅)).

(** The same disk after an earlier import left a copy in the cache. *)
Definition warm : gmap string node :=
  <["/cache/data.txt" := File 384 hello]> disk.

(** A regular file [/a/f] holding one byte, and a link [/b/f] whose
    target has a one-letter name and holds the same byte. *)
Definition linked : gmap string node :=
  <["/a" := Dir 493]>
  (<["/a/f" := File 420 [x78]]>
  (<["/b" := Dir 493]>
  (<["/b/f" := Symlink "t"]>
  (<["/b/t" := File 420 [x78]]> ∅)))).

(** A working tree with its bundle manifest, and one that was left with
    two manifests. *)
Definition tree : gmap string node :=
  <["/roots" := Dir 493]>
  (<["/roots/.working" := Dir 493]>
  (<["/roots/.working/rootfs" := Dir 493]>
  (<["/roots/.working/sha256_0a1b.mtree" := File 420 []]> ∅))).

Definition stale : gmap string node :=
  <["/roots/.working/sha256_9e9e.mtree" := File 420 [x31]]> tree.

Definition world (fs : gmap string node) : World :=
  {| files := fs; umask := 18; log := [] |}.

Definition cfg : types.StackerConfig :=
  {| types.StackerDir := "/s"; types.OCIDir := "/oci"; types.RootFSDir := "/roots" |}.

Definition flags : BuildFlags :=
  {| leave_unladen := false; stacker_file := "stacker.yaml"; no_cache := false;
     substitute := []; on_run_failure := "" |}.

(** A layer built from scratch that declares the given environment and
    commands. *)
Definition declare (env : list (string * string))
                   (cmd entrypoint full : option types.Raw) (buildOnly : bool)
  : types.Layer :=
  {| types.From := {| types.Type_ := types.ScratchType; types.Tag := "" |};
     types.Import := None; types.Run := None;
     types.Environment := env;
     types.Cmd := cmd; types.Entrypoint := entrypoint; types.FullCommand := full;
     types.Volumes := []; types.Labels := ∅; types.WorkingDir := "";
     types.BuildOnly := buildOnly |}.

Definition app : types.Layer := declare [] None None None false.
Definition builder : types.Layer := declare [] None None None true.

End Ref.

(** ** What a computation does to the world

    Predicates on computations, for the statements about what the code
    never does. *)

(** Every event that [m] adds to the log satisfies [P]; the events already
    in the log stay where they are. *)
Definition emits {A : Type} (P : Event -> Prop) (m : M A) : Prop :=
  forall w : World, exists evs : list Event,
    log (m w).2 = log w ++ evs /\ Forall P evs.

(** [m] leaves the file system and the umask as they were. *)
Definition keeps {A : Type} (m : M A) : Prop :=
  forall w : World, files (m w).2 = files w /\ umask (m w).2 = umask w.

(** Reading a link, opening a file and reading it. *)
Definition readEvent (ev : Event) : Prop :=
  match ev with
  | EvReadlink _ | EvOpen _ | EvRead _ => True
  | _ => False
  end.

(** What the import resolver does: file system calls on single files,
    notes, and the calls to [MkdirAll], [haveRsync], the copy tool and
    [download]. *)
Definition importEvent (ev : Event) : Prop :=
  match ev with
  | EvStat _ | EvReadlink _ | EvOpen _ | EvRead _
  | EvCreate _ | EvChmod _ _ | EvCopy _ _ | EvPrint _ => True
  | EvReadDir _ | EvRename _ _ => False
  | EvExt e =>
      match e with
      | MkdirAll _ _ | HaveRsync | CombinedOutput _ _ | Download _ _ => True
      | _ => False
      end
  end.

(** What the cache-miss path of a build-only layer does: notes, calls to
    the storage, the base layer and the commands, and a cache entry that
    carries the empty descriptor. *)
Definition buildOnlyEvent (ev : Event) : Prop :=
  match ev with
  | EvPrint _ => True
  | EvExt e =>
      match e with
      | StorageDelete _ | StorageRestore _ _ | StorageCreate _
      | StorageSnapshot _ _ | GetBaseLayer _ | RunCommands _ _ _ _ => True
      | CachePut _ _ d => d = ispec.empty
      | _ => False
      end
  | _ => False
  end.

(** The path at which a resolution ends, whether something is there or
    not. *)
Definition target `{GoEnv} (fs : gmap string node) (p : string) : option string :=
  match resolve fs p with
  | Found q _ => Some q
  | Missing q => Some q
  | Loop => None
  end.

(** The calls that open and close a build: the stackerfile, the storage,
    the layout and the cache. *)
Definition sessionCall {R : Type} (e : ExtE R) : bool :=
  match e with
  | RemoveAll _ | NewStackerfile _ _ | NewStorage _ | Detach | DependencyOrder _
  | CreateLayout _ | OpenLayout _ | LayoutClose | OpenCache _ => true
  | _ => false
  end.

(** What the pass over one layer may log: anything but one of those
    calls. *)
Definition layerEvent (ev : Event) : Prop :=
  match ev with
  | EvExt e => sessionCall e = false
  | _ => True
  end.

Definition isDetach (ev : Event) : Prop :=
  match ev with
  | EvExt Detach => True
  | _ => False
  end.

(** The deferred [s.Detach()] of [doBuild]. *)
Definition detaching (flags : BuildFlags) : list Event :=
  if leave_unladen flags then [] else [EvExt Detach].

(** What [doBuild] does before it opens the cache: the stackerfile, the
    storage, the order, the look at the OCI directory and the layout. *)
Definition setupEvent (ev : Event) : Prop :=
  match ev with
  | EvStat _ => True
  | EvExt e =>
      match e with
      | RemoveAll _ | NewStackerfile _ _ | NewStorage _ | DependencyOrder _
      | CreateLayout _ | OpenLayout _ => True
      | _ => False
      end
  | _ => False
  end.

(** The string holds an [=]; the name of an environment variable does not. *)
Fixpoint hasEquals (s : string) : bool :=
  match s with
  | EmptyString => false
  | String c rest => Ascii.eqb c "=" || hasEquals rest
  end.

(** ** Calls and their refusals

    For the statements about what a failing call ends. *)

(** The error that an answer carries, if it carries one.  The copy tool's
    error is its output. *)
Definition answerError {R : Type} (e : ExtE R) : R -> option error :=
  match e in ExtE T return T -> option error with
  | RemoveAll _ | MkdirAll _ _ | HaveRsync | NewStorage _ | Detach
  | CreateLayout _ | OpenLayout _ | LayoutClose | OpenCache _
  | StorageDelete _ | StorageRestore _ _ | StorageCreate _ | StorageSnapshot _ _
  | CachePut _ _ _ | UpdateReference _ _ | GetBaseLayer _ | RunCommands _ _ _ _
  | MaybeRunInUserns _ _ | Mutator _ | MutatorSet _ _ _ _ _
  | WriteBundleMeta _ _ => fun r => r
  | CombinedOutput _ _ => fun r => match r.2 with Some _ => Some r.1 | None => None end
  | Download _ _ => fun r => match r with Ok _ => None | Err err => Some err end
  | NewStackerfile _ _ => fun r => match r with Ok _ => None | Err err => Some err end
  | DependencyOrder _ => fun r => match r with Ok _ => None | Err err => Some err end
  | LookupManifestDescriptor _ =>
      fun r => match r with Ok _ => None | Err err => Some err end
  | MutatorConfig _ => fun r => match r with Ok _ => None | Err err => Some err end
  | MutatorMeta _ => fun r => match r with Ok _ => None | Err err => Some err end
  | MutatorAnnotations _ => fun r => match r with Ok _ => None | Err err => Some err end
  | MutatorCommit _ => fun r => match r with Ok _ => None | Err err => Some err end
  | CacheLookup _ _ => fun _ => None
  | TimeNow => fun _ => None
  end.

(** The error with which the call [ev] is answered in [w]; a note is never
    refused. *)
Definition refused `{GoEnv} (ev : Event) (w : World) : option error :=
  match ev with
  | EvExt e => answerError e (extern _ e w).1
  | _ => None
  end.

(** The world after the notes and calls [evs], made one after the other
    from [w]. *)
Fixpoint after `{GoEnv} (evs : list Event) (w : World) : World :=
  match evs with
  | [] => w
  | EvExt e :: rest => after rest (call e w).2
  | ev :: rest => after rest (record ev w)
  end.

(** The first of the calls [evs], made one after the other from [w], that
    is refused: its place in the list and its error. *)
Fixpoint firstRefusal `{GoEnv} (evs : list Event) (w : World) : option (nat * error) :=
  match evs with
  | [] => None
  | ev :: rest =>
      match refused ev w with
      | Some e => Some (0%nat, e)
      | None => prod_map S id <$> firstRefusal rest (after [ev] w)
      end
  end.

(** ** More inputs

    Collaborators that refuse, a stackerfile that declares layers, and disks
    with dangling links and with files of the same name, to run the
    definitions on. *)

Module Cases.

(** [path.Clean] as far as these inputs need it: runs of slashes become
    one slash. *)
Fixpoint squeeze (s : string) : string :=
  match s with
  | EmptyString => EmptyString
  | String c rest =>
      if Ascii.eqb c "/" && HasPrefix rest "/" then squeeze rest
      else String c (squeeze rest)
  end.

(** The reference environment with another [path.Join] and other
    collaborators. *)
Definition variant (join : list string -> string)
                   (ext : forall R : Type, ExtE R -> World -> R * gmap string node)
  : GoEnv := {|
  path_Join := join;
  path_Base := Ref.Base;
  path_Dir := Ref.DirOf;
  url_Parse := Ref.Parse;
  ReasonableDefaultPath := @ReasonableDefaultPath Ref.env;
  UmociMetaVersion := @UmociMetaVersion Ref.env;
  GOARCH := @GOARCH Ref.env;
  GOOS := @GOOS Ref.env;
  ParseImport := @ParseImport Ref.env;
  ParseCmd := @ParseCmd Ref.env;
  ParseEntrypoint := @ParseEntrypoint Ref.env;
  ParseFullCommand := @ParseFullCommand Ref.env;
  extern := ext
|}.

(** Joined paths are cleaned of double slashes. *)
Definition tidy : GoEnv := variant (fun elems => squeeze (Ref.Join elems)) Ref.answer.

(** The import directory cannot be made and the stackerfile cannot be
    read. *)
Definition refusal (R : Type) (e : ExtE R) (w : World) : R * gmap string node :=
  match e in ExtE T return T * gmap string node -> T * gmap string node with
  | MkdirAll _ _ => fun _ => (Some "mkdir /s/imports: permission denied", files w)
  | NewStackerfile _ _ =>
      fun _ => (Err "open stacker.yaml: no such file or directory", files w)
  | _ => fun r => r
  end (Ref.answer R e w).

Definition refusing : GoEnv := variant Ref.Join refusal.

(** A layer that imports a file which is not there. *)
Definition needy : types.Layer :=
  {| types.From := {| types.Type_ := types.ScratchType; types.Tag := "" |};
     types.Import := Some (types.RawString "/nowhere"); types.Run := None;
     types.Environment := [];
     types.Cmd := None; types.Entrypoint := None; types.FullCommand := None;
     types.Volumes := []; types.Labels := ∅; types.WorkingDir := "";
     types.BuildOnly := false |}.

(** A layer that declares a volume, a label and a working directory. *)
Definition service : types.Layer :=
  {| types.From := {| types.Type_ := types.ScratchType; types.Tag := "" |};
     types.Import := None; types.Run := None;
     types.Environment := [];
     types.Cmd := None; types.Entrypoint := None; types.FullCommand := None;
     types.Volumes := ["/data"]; types.Labels := {["role" := "db"]};
     types.WorkingDir := "/srv";
     types.BuildOnly := false |}.

Definition stackerfile : gmap string types.Layer :=
  <["base" := Ref.builder]> (<["app" := Ref.app]> (<["broken" := needy]> ∅)).

(** The stackerfile declares [base] and [app], in that order. *)
Definition declared (R : Type) (e : ExtE R) (w : World) : R * gmap string node :=
  match e in ExtE T return T * gmap string node -> T * gmap string node with
  | NewStackerfile _ _ => fun _ => (Ok stackerfile, files w)
  | DependencyOrder _ => fun _ => (Ok ["base"; "app"], files w)
  | _ => fun r => r
  end (Ref.answer R e w).

Definition stacked : GoEnv := variant Ref.Join declared.

(** Two links of one name that point at nothing. *)
Definition dangling : gmap string node :=
  <["/a" := Dir 493]>
  (<["/a/f" := Symlink "t"]>
  (<["/b" := Dir 493]>
  (<["/b/f" := Symlink "u"]> ∅))).

(** Two files of one name with different bytes, and an empty cache. *)
Definition twins : gmap string node :=
  <["/x" := Dir 493]>
  (<["/x/data.txt" := File 420 [x31]]>
  (<["/y" := Dir 493]>
  (<["/y/data.txt" := File 384 [x32; x32]]>
  (<["/cache" := Dir 493]> ∅)))).

(** The tree of a built layer [base] that holds [etc/motd], and an empty
    cache. *)
Definition layered : gmap string node :=
  <["/roots" := Dir 493]>
  (<["/roots/base" := Dir 493]>
  (<["/roots/base/rootfs" := Dir 493]>
  (<["/roots/base/rootfs/etc" := Dir 493]>
  (<["/roots/base/rootfs/etc/motd" := File 420 Ref.hello]>
  (<["/cache" := Dir 493]> ∅))))).


(** The descriptor whose digest the second manifest of [Ref.stale] is
    named after. *)
Definition newest : ispec.Descriptor :=
  {| ispec.MediaType := "application/vnd.oci.image.manifest.v1+json";
     ispec.Digest := "sha256:9e9e";
     ispec.Size := 348 |}.

(** Collaborators of which some refuse: the copy tool, the download of one
    URL, the deletion of a snapshot, the creation of a tree and the opening
    of the mutator. *)
Definition unreliable (R : Type) (e : ExtE R) (w : World) : R * gmap string node :=
  match e in ExtE T return T * gmap string node -> T * gmap string node with
  | CombinedOutput _ _ =>
      fun _ => ("rsync: failed to set times", Some "exit status 23", files w)
  | Download _ url =>
      fun r => if String.eqb url "https://host/b.tar"
               then (Err "404 Not Found", files w) else r
  | StorageDelete _ => fun _ => (Some "no such snapshot", files w)
  | StorageCreate _ => fun _ => (Some "no space left on device", files w)
  | Mutator _ => fun _ => (Some "no such tag", files w)
  | _ => fun r => r
  end (Ref.answer R e w).

Definition flaky : GoEnv := variant Ref.Join unreliable.

End Cases.

(** ** The monad, step by step *)

Lemma bind_Ok {A B : Type} (m : M A) (k : A -> M B) (w w' : World) (a : A) :
  m w = (Ok a, w') -> (m ≫= k) w = k a w'.
Proof. intros Hm. unfold mbind, M_bind. now rewrite Hm. Qed.

Lemma bind_Err {A B : Type} (m : M A) (k : A -> M B) (w w' : World) (e : error) :
  m w = (Err e, w') -> (m ≫= k) w = (Err e, w').
Proof. intros Hm. unfold mbind, M_bind. now rewrite Hm. Qed.

(** One step of a sequence whose first call is known to succeed. *)
Ltac step E := erewrite bind_Ok by (eapply E; eassumption); cbv beta.

Lemma bind_Ok_inv {A B : Type} (m : M A) (k : A -> M B) (w w' : World) (b : B) :
  (m ≫= k) w = (Ok b, w') ->
  exists (a : A) (w1 : World), m w = (Ok a, w1) /\ k a w1 = (Ok b, w').
Proof.
  unfold mbind, M_bind. destruct (m w) as [[a|e] w1]; [eauto | discriminate].
Qed.

Lemma check_Ok_inv (o : option error) (w w' : World) (u : unit) :
  check o w = (Ok u, w') -> o = None /\ w' = w.
Proof. destruct o; cbn; [discriminate | now intros [= _ <-]]. Qed.

Lemma try_Ok_inv {A : Type} (o : outcome A) (w w' : World) (a : A) :
  try o w = (Ok a, w') -> o = Ok a /\ w' = w.
Proof. destruct o; cbn; [now intros [= <- <-] | discriminate]. Qed.

Lemma record_files (ev : Event) (w : World) : files (record ev w) = files w.
Proof. reflexivity. Qed.

Lemma record_log (ev : Event) (w : World) : log (record ev w) = log w ++ [ev].
Proof. reflexivity. Qed.

Lemma equalBytes_spec (a b : list byte) : equalBytes a b = true <-> a = b.
Proof.
  revert b. induction a as [|x a IH]; intros [|y b]; simpl; try easy.
  rewrite andb_true_iff, IH. split.
  - intros [Hxy ->]. now rewrite (Byte.byte_dec_bl _ _ Hxy).
  - intros [= -> ->]. split; [now apply Byte.byte_dec_lb | reflexivity].
Qed.

Lemma equalBytes_decide (a b : list byte) :
  equalBytes a b = bool_decide (a = b).
Proof.
  destruct (equalBytes a b) eqn:E.
  - apply equalBytes_spec in E. symmetry. now apply bool_decide_eq_true.
  - symmetry. apply bool_decide_eq_false. intros Hab.
    apply equalBytes_spec in Hab. congruence.
Qed.

Section ImportProofs.

Context `{GoEnv}.

(** A resolution ends on the node stored under the path it reports, and
    that node is not a link. *)
Lemma follow_Found (fuel : nat) (fs : gmap string node) (p q : string) (n : node) :
  follow fuel fs p = Found q n ->
  fs !! q = Some n /\ forall t, n <> Symlink t.
Proof.
  revert p. induction fuel as [|fuel IH]; intros p; simpl.
  - destruct (fs !! p) as [[| |]|] eqn:E; intros [= <- <-] || intros [=]; easy.
  - destruct (fs !! p) as [[| |]|] eqn:E; try (intros [= <- <-]; easy).
    apply IH.
Qed.

Lemma resolve_Found (fs : gmap string node) (p q : string) (n : node) :
  resolve fs p = Found q n ->
  fs !! q = Some n /\ forall t, n <> Symlink t.
Proof.
  unfold resolve. destruct (String.eqb p ""); [intros [=] | apply follow_Found].
Qed.

(** [C1] Two regular entries of the same name: [filesDiffer] answers, and
    it answers "same" exactly when the sizes it was handed are equal and the
    bytes of the two files are equal; any byte difference gives "differs";
    when the sizes differ the answer is "differs" and the world is the one
    it started from, so nothing was opened or read. *)
Theorem filesDiffer_regular_files
    (w : World) (p1 p2 q1 q2 : string) (info1 info2 : os.FileInfo)
    (m1 m2 : N) (d1 d2 : list byte) :
  os.Name info1 = os.Name info2 ->
  isSymlink info1 = false ->
  isSymlink info2 = false ->
  resolve (files w) p1 = Found q1 (File m1 d1) ->
  resolve (files w) p2 = Found q2 (File m2 d2) ->
  exists (differs : bool) (w' : World),
    filesDiffer p1 info1 p2 info2 w = (Ok differs, w') /\
    (differs = false <-> os.Size info1 = os.Size info2 /\ d1 = d2) /\
    (d1 <> d2 -> differs = true) /\
    (os.Size info1 <> os.Size info2 -> differs = true /\ w' = w).
Proof.
  intros Hname Hs1 _ Hr1 Hr2.
  destruct (resolve_Found _ _ _ _ Hr1) as [Hq1 _].
  destruct (resolve_Found _ _ _ _ Hr2) as [Hq2 _].
  unfold filesDiffer. rewrite Hname, String.eqb_refl, Hs1. simpl.
  destruct (Z.eqb_spec (os.Size info1) (os.Size info2)) as [Hsz|Hsz]; simpl.
  - unfold mbind, M_bind, os_Open, CompareReader, readAll, mbind, M_bind; simpl.
    rewrite Hr1; simpl. rewrite Hr2; simpl.
    rewrite Hq1; simpl. rewrite Hq2; simpl.
    rewrite equalBytes_decide.
    eexists _, _. split; [reflexivity|].
    destruct (decide (d1 = d2)) as [Heq|Hne].
    + rewrite bool_decide_eq_true_2 by assumption. simpl. tauto.
    + rewrite bool_decide_eq_false_2 by assumption. simpl.
      repeat split; try easy; try (intros [_ ?]; contradiction).
  - exists true, w. repeat split; try easy; try (intros [? _]; contradiction).
Qed.

(** *** Single steps *)

Lemma os_Stat_Found (w : World) (p q : string) (n : node) :
  resolve (files w) p = Found q n ->
  os_Stat p w = (Ok (fileInfo (path_Base p) n), record (EvStat p) w).
Proof. intros Hr. unfold os_Stat. now rewrite Hr. Qed.

Lemma os_Open_Found (w : World) (p q : string) (n : node) :
  resolve (files w) p = Found q n ->
  os_Open p w = (Ok {| os.Opened := p; os.Resolved := q |}, record (EvOpen p) w).
Proof. intros Hr. unfold os_Open. now rewrite Hr. Qed.

Lemma readAll_File (w : World) (f : os.File) (m : N) (d : list byte) :
  files w !! os.Resolved f = Some (File m d) ->
  readAll f w = (Ok d, record (EvRead (os.Resolved f)) w).
Proof. intros Hf. unfold readAll. now rewrite Hf. Qed.

Lemma readAll_Dir (w : World) (f : os.File) (m : N) :
  files w !! os.Resolved f = Some (Dir m) ->
  readAll f w = (Err EISDIR, record (EvRead (os.Resolved f)) w).
Proof. intros Hf. unfold readAll. now rewrite Hf. Qed.

Lemma CompareReader_Files (w : World) (f1 f2 : os.File) (m1 m2 : N) (d1 d2 : list byte) :
  files w !! os.Resolved f1 = Some (File m1 d1) ->
  files w !! os.Resolved f2 = Some (File m2 d2) ->
  CompareReader f1 f2 w =
  (Ok (bool_decide (d1 = d2)),
   record (EvRead (os.Resolved f2)) (record (EvRead (os.Resolved f1)) w)).
Proof.
  intros Hf1 Hf2. unfold CompareReader.
  step readAll_File. step readAll_File.
  now rewrite equalBytes_decide.
Qed.

Lemma fileInfo_File_not_symlink (name : string) (m : N) (d : list byte) :
  isSymlink (fileInfo name (File m d)) = false.
Proof.
  unfold isSymlink, fileInfo; simpl.
  rewrite <- N.land_assoc.
  replace (N.land ModePerm ModeSymlink) with 0%N by reflexivity.
  now rewrite N.land_0_r.
Qed.

Lemma fileInfo_File_not_dir (name : string) (m : N) (d : list byte) :
  os.IsDir (fileInfo name (File m d)) = false.
Proof.
  unfold os.IsDir, fileInfo; simpl.
  rewrite <- N.land_assoc.
  replace (N.land ModePerm ModeDir) with 0%N by reflexivity.
  now rewrite N.land_0_r.
Qed.

Lemma fileInfo_Dir_not_symlink (name : string) (m : N) :
  isSymlink (fileInfo name (Dir m)) = false.
Proof.
  unfold isSymlink, fileInfo; simpl.
  rewrite N.land_lor_distr_l, <- N.land_assoc.
  replace (N.land ModePerm ModeSymlink) with 0%N by reflexivity.
  replace (N.land ModeDir ModeSymlink) with 0%N by reflexivity.
  now rewrite N.land_0_r.
Qed.

Lemma copies_app (a b : list Event) : copies (a ++ b) = (copies a + copies b)%nat.
Proof. unfold copies. now rewrite List.filter_app, length_app. Qed.

(** *** [filesDiffer] on two regular files, with the world it leaves *)

Lemma filesDiffer_files_run
    (w : World) (p1 p2 q1 q2 name : string) (m1 m2 : N) (d1 d2 : list byte) :
  resolve (files w) p1 = Found q1 (File m1 d1) ->
  resolve (files w) p2 = Found q2 (File m2 d2) ->
  filesDiffer p1 (fileInfo name (File m1 d1)) p2 (fileInfo name (File m2 d2)) w =
  if bool_decide (length d1 = length d2)
  then (Ok (negb (bool_decide (d1 = d2))),
        record (EvRead q2) (record (EvRead q1)
          (record (EvOpen p2) (record (EvOpen p1) w))))
  else (Ok true, w).
Proof.
  intros Hr1 Hr2.
  destruct (resolve_Found _ _ _ _ Hr1) as [Hq1 _].
  destruct (resolve_Found _ _ _ _ Hr2) as [Hq2 _].
  unfold filesDiffer.
  rewrite fileInfo_File_not_symlink. simpl os.Name. rewrite String.eqb_refl.
  cbn [os.Size fileInfo].
  case_bool_decide as Hlen.
  - rewrite Hlen, Z.eqb_refl. cbn [negb].
    step os_Open_Found. step os_Open_Found.
    erewrite bind_Ok by (eapply CompareReader_Files; simpl; eassumption).
    reflexivity.
  - destruct (Z.eqb_spec (Z.of_nat (length d1)) (Z.of_nat (length d2))) as [E|E].
    + apply Nat2Z.inj in E. contradiction.
    + reflexivity.
Qed.

(** *** Resolution under a write *)

Lemma follow_Missing (fuel : nat) (fs : gmap string node) (p q : string) :
  follow fuel fs p = Missing q -> fs !! q = None.
Proof.
  revert p. induction fuel as [|fuel IH]; intros p; simpl;
    destruct (fs !! p) as [[| |]|] eqn:E; try (intros [=]; congruence).
  apply IH.
Qed.

(** A write to [q'] leaves alone every resolution that ends elsewhere. *)
Lemma follow_frame (fuel : nat) (fs : gmap string node) (p q q' : string) (n x : node) :
  follow fuel fs p = Found q n ->
  q <> q' ->
  (forall t, fs !! q' <> Some (Symlink t)) ->
  follow fuel (<[q' := x]> fs) p = Found q n.
Proof.
  intros Hf Hne Hq'. revert p Hf.
  induction fuel as [|fuel IH]; intros p; simpl;
    (destruct (decide (p = q')) as [->|Hp];
     [ destruct (fs !! q') as [[| |]|] eqn:E;
       try (intros [=]; congruence); exfalso; eapply Hq'; reflexivity
     | rewrite lookup_insert_ne by congruence;
       destruct (fs !! p) as [[| |]|] eqn:E; try easy ]).
  apply IH.
Qed.

(** A resolution that ended at [q'] still ends there once [q'] holds [x]. *)
Lemma follow_written (fuel : nat) (fs : gmap string node) (p q' : string) (x : node) :
  (follow fuel fs p = Missing q' \/ exists n, follow fuel fs p = Found q' n) ->
  (forall t, x <> Symlink t) ->
  follow fuel (<[q' := x]> fs) p = Found q' x.
Proof.
  intros Hf Hx. revert p Hf.
  induction fuel as [|fuel IH]; intros p; simpl;
    (destruct (decide (p = q')) as [->|Hp];
     [ rewrite lookup_insert_eq; intros _; destruct x; try reflexivity;
       exfalso; eapply Hx; reflexivity
     | rewrite lookup_insert_ne by congruence;
       destruct (fs !! p) as [[| |]|] eqn:E;
       try (intros [[=]|[? [=]]]; congruence) ]).
  apply IH.
Qed.

Lemma resolve_frame (fs : gmap string node) (p q q' : string) (n x : node) :
  resolve fs p = Found q n ->
  q <> q' ->
  (forall t, fs !! q' <> Some (Symlink t)) ->
  resolve (<[q' := x]> fs) p = Found q n.
Proof.
  unfold resolve. destruct (String.eqb p ""); [intros [=] | apply follow_frame].
Qed.

Lemma resolve_written (fs : gmap string node) (p q' : string) (x : node) :
  (resolve fs p = Missing q' /\ q' <> "" \/ exists n, resolve fs p = Found q' n) ->
  (forall t, x <> Symlink t) ->
  resolve (<[q' := x]> fs) p = Found q' x.
Proof.
  unfold resolve. destruct (String.eqb_spec p "") as [->|Hp].
  - intros [[[= <-] ?]|[? [=]]]. contradiction.
  - intros Hf. apply follow_written. destruct Hf as [[? _]|?]; auto.
Qed.

Lemma resolve_Missing (fs : gmap string node) (p q : string) :
  resolve fs p = Missing q -> q <> "" -> fs !! q = None.
Proof.
  unfold resolve. destruct (String.eqb_spec p "") as [->|Hp].
  - intros [= <-] ?. contradiction.
  - intros Hf _. eapply follow_Missing, Hf.
Qed.

(** *** [fileCopy] *)

Lemma land_perm_twice (m : N) : N.land (N.land m ModePerm) ModePerm = N.land m ModePerm.
Proof. now rewrite <- N.land_assoc, N.land_diag. Qed.

Lemma overwrite_empty (d : list byte) : overwrite d [] = d.
Proof. unfold overwrite. now rewrite drop_nil, app_nil_r. Qed.

Lemma File_Stat_Some (w : World) (f : os.File) (n : node) :
  files w !! os.Resolved f = Some n ->
  File_Stat f w = (Ok (fileInfo (path_Base (os.Opened f)) n), w).
Proof. intros Hf. unfold File_Stat. now rewrite Hf. Qed.

Lemma os_Create_new (w : World) (p q : string) :
  resolve (files w) p = Missing q ->
  negb (String.eqb q "") && isDirAt (files w) (path_Dir q) = true ->
  os_Create p w =
  (Ok {| os.Opened := p; os.Resolved := q |},
   withFiles (<[q := File (N.ldiff 438 (umask w)) []]> (files w))
             (record (EvCreate p) w)).
Proof. intros Hr Hd. unfold os_Create. now rewrite Hr, Hd. Qed.

Lemma os_Create_truncate (w : World) (p q : string) (m : N) (d : list byte) :
  resolve (files w) p = Found q (File m d) ->
  os_Create p w =
  (Ok {| os.Opened := p; os.Resolved := q |},
   withFiles (<[q := File m []]> (files w)) (record (EvCreate p) w)).
Proof. intros Hr. unfold os_Create. now rewrite Hr. Qed.

Lemma File_Chmod_File (w : World) (f : os.File) (mode m : N) (d : list byte) :
  files w !! os.Resolved f = Some (File m d) ->
  File_Chmod f mode w =
  (Ok tt,
   withFiles (<[os.Resolved f := File (N.land mode ModePerm) d]> (files w))
             (record (EvChmod (os.Resolved f) mode) w)).
Proof. intros Hf. unfold File_Chmod. now rewrite Hf. Qed.

Lemma io_Copy_Files (w : World) (dst src : os.File) (ms md : N) (ds old : list byte) :
  files w !! os.Resolved src = Some (File ms ds) ->
  files w !! os.Resolved dst = Some (File md old) ->
  io_Copy dst src w =
  (Ok (Z.of_nat (length ds)),
   withFiles (<[os.Resolved dst := File md (overwrite ds old)]> (files w))
             (record (EvCopy (os.Resolved dst) (os.Resolved src)) w)).
Proof. intros Hs Hd. unfold io_Copy. now rewrite Hs, Hd. Qed.

(** The rest of [fileCopy] once the destination is open and empty. *)
Lemma fileCopy_tail (w : World) (s d : os.File) (m m0 : N) (data : list byte) :
  files w !! os.Resolved s = Some (File m data) ->
  files w !! os.Resolved d = Some (File m0 []) ->
  os.Resolved s <> os.Resolved d ->
  (File_Chmod d (N.land m ModePerm) ≫= fun _ => io_Copy d s ≫= fun _ => mret tt) w =
  (Ok tt,
   {| files := <[os.Resolved d := File (N.land m ModePerm) data]> (files w);
      umask := umask w;
      log := log w ++ [EvChmod (os.Resolved d) (N.land m ModePerm);
                       EvCopy (os.Resolved d) (os.Resolved s)] |}).
Proof.
  intros Hs Hd Hne.
  step File_Chmod_File.
  erewrite bind_Ok.
  2:{ eapply io_Copy_Files; cbn [files withFiles record].
      - rewrite lookup_insert_ne by congruence. exact Hs.
      - apply lookup_insert_eq. }
  unfold mret, M_ret, record, withFiles. cbn [files umask log].
  now rewrite insert_insert_eq, land_perm_twice, overwrite_empty, <- app_assoc.
Qed.

(** A regular source, a destination that can be written and is another
    file than the source: the copy succeeds, the destination holds the
    source's bytes and permission bits, and the log shows one copy. *)
Lemma fileCopy_run (w : World) (dest source q q' : string) (m : N) (d : list byte) :
  resolve (files w) source = Found q (File m d) ->
  (resolve (files w) dest = Missing q' \/
   exists m' d', resolve (files w) dest = Found q' (File m' d')) ->
  writable (files w) dest = true ->
  q <> q' ->
  fileCopy dest source w =
  (Ok tt,
   {| files := <[q' := File (N.land m ModePerm) d]> (files w);
      umask := umask w;
      log := log w ++ [EvOpen source; EvCreate dest;
                       EvChmod q' (N.land m ModePerm); EvCopy q' q] |}).
Proof.
  intros Hsrc Hdst Hw Hne.
  destruct (resolve_Found _ _ _ _ Hsrc) as [Hq _].
  unfold fileCopy. step os_Open_Found. step File_Stat_Some.
  cbn [os.Mode fileInfo].
  unfold writable in Hw.
  destruct Hdst as [Hdst|(m' & d' & Hdst)]; rewrite Hdst in Hw.
  - erewrite bind_Ok by (eapply os_Create_new; eassumption).
    erewrite fileCopy_tail; cbn [os.Resolved files withFiles record umask log].
    + now rewrite insert_insert_eq, <- !app_assoc.
    + rewrite lookup_insert_ne by congruence. exact Hq.
    + apply lookup_insert_eq.
    + exact Hne.
  - erewrite bind_Ok by (eapply os_Create_truncate; eassumption).
    erewrite fileCopy_tail; cbn [os.Resolved files withFiles record umask log].
    + now rewrite insert_insert_eq, <- !app_assoc.
    + rewrite lookup_insert_ne by congruence. exact Hq.
    + apply lookup_insert_eq.
    + exact Hne.
Qed.
(** *** [importFile] on a single file *)

Lemma attempt_run {A : Type} (m : M A) (w w' : World) (r : outcome A) :
  m w = (r, w') -> attempt m w = (Ok r, w').
Proof. intros Hm. unfold attempt. now rewrite Hm. Qed.

Lemma os_Stat_fails (w : World) (p q : string) :
  resolve (files w) p = Missing q ->
  os_Stat p w = (Err ENOENT, record (EvStat p) w).
Proof. intros Hr. unfold os_Stat. now rewrite Hr. Qed.

(** The destination holds the source's bytes: no copy. *)
Lemma importFile_cached (w : World) (imp cacheDir q q' : string) (m m' : N) (d : list byte) :
  let dest := path_Join [cacheDir; path_Base imp] in
  resolve (files w) imp = Found q (File m d) ->
  resolve (files w) dest = Found q' (File m' d) ->
  path_Base dest = path_Base imp ->
  importFile imp cacheDir w =
  (Ok dest,
   {| files := files w;
      umask := umask w;
      log := log w ++ [EvStat imp; EvStat dest; EvOpen imp; EvOpen dest;
                       EvRead q; EvRead q';
                       EvPrint ("using cached copy of " +:+ imp +:+ nl)] |}).
Proof.
  intros dest Hsrc Hdst Hbase.
  unfold importFile. step os_Stat_Found.
  rewrite fileInfo_File_not_dir. fold dest.
  erewrite bind_Ok by (eapply attempt_run, os_Stat_Found; eassumption).
  cbv beta iota. rewrite Hbase.
  unfold mbind at 1, M_bind at 1.
  erewrite filesDiffer_files_run by eassumption.
  rewrite !bool_decide_eq_true_2 by reflexivity. cbn [negb fst snd].
  unfold fmt_Print, emit, mbind, M_bind, mret, M_ret, record. cbn [files umask log].
  now rewrite <- !app_assoc.
Qed.

(** The destination is absent, or holds other bytes: one copy. *)
Lemma importFile_copy (w : World) (imp cacheDir q q' : string) (m : N) (d : list byte) :
  let dest := path_Join [cacheDir; path_Base imp] in
  resolve (files w) imp = Found q (File m d) ->
  (resolve (files w) dest = Missing q' \/
   exists m' d', resolve (files w) dest = Found q' (File m' d') /\ d' <> d) ->
  writable (files w) dest = true ->
  path_Base dest = path_Base imp ->
  q <> q' /\
  exists w' : World,
    importFile imp cacheDir w = (Ok dest, w') /\
    files w' = <[q' := File (N.land m ModePerm) d]> (files w) /\
    copies (log w') = S (copies (log w)).
Proof.
  intros dest Hsrc Hdst Hw Hbase.
  destruct (resolve_Found _ _ _ _ Hsrc) as [Hq _].
  unfold importFile. step os_Stat_Found.
  rewrite fileInfo_File_not_dir. fold dest.
  destruct Hdst as [Hdst|(m' & d' & Hdst & Hd)].
  - assert (Hne : q <> q').
    { intros <-. unfold writable in Hw. rewrite Hdst in Hw.
      apply andb_true_iff in Hw as [Hne _].
      apply negb_true_iff, String.eqb_neq in Hne.
      rewrite (resolve_Missing _ _ _ Hdst Hne) in Hq. discriminate. }
    erewrite bind_Ok by (eapply attempt_run, os_Stat_fails; eassumption).
    cbv beta iota.
    unfold mbind at 1, M_bind at 1, mret at 1, M_ret at 1.
    unfold mbind at 1, M_bind at 1.
    unfold mbind at 1, M_bind at 1, fmt_Print at 1, emit at 1.
    split; [exact Hne|].
    erewrite fileCopy_run; cbn [files record]; eauto.
    eexists. split; [reflexivity|]. split; [reflexivity|].
    cbn [log record]. rewrite !copies_app. cbn. lia.
  - assert (Hne : q <> q').
    { intros <-. destruct (resolve_Found _ _ _ _ Hdst) as [Hq' _]. congruence. }
    erewrite bind_Ok by (eapply attempt_run, os_Stat_Found; eassumption).
    cbv beta iota. rewrite Hbase.
    unfold mbind at 1, M_bind at 1.
    erewrite filesDiffer_files_run by eassumption.
    rewrite (bool_decide_eq_false_2 (d = d')) by congruence.
    split; [exact Hne|].
    case_bool_decide; cbn [negb];
      unfold mbind at 1, M_bind at 1;
      unfold mbind at 1, M_bind at 1, fmt_Print at 1, emit at 1;
      (erewrite fileCopy_run; cbn [files record]; eauto);
      (eexists; split; [reflexivity|]; split; [reflexivity|]);
      cbn [log record]; rewrite !copies_app; cbn; lia.
Qed.
(** The destination lacks the source's bytes exactly when it is absent or
    the comparator, run on the two [Stat] infos as [importFile] runs it,
    reports that the two differ. *)
Lemma holds_false_iff
    (w0 : World) (imp dest q : string) (m : N) (d : list byte) :
  resolve (files w0) imp = Found q (File m d) ->
  path_Base dest = path_Base imp ->
  writable (files w0) dest = true ->
  holds (files w0) dest d = false <->
  (exists q', resolve (files w0) dest = Missing q') \/
  (exists q' m' d',
     resolve (files w0) dest = Found q' (File m' d') /\
     (filesDiffer imp (fileInfo (path_Base imp) (File m d))
                  dest (fileInfo (path_Base dest) (File m' d'))
                  (record (EvStat dest) (record (EvStat imp) w0))).1 = Ok true).
Proof.
  intros Hsrc Hbase Hw. unfold holds. unfold writable in Hw.
  destruct (resolve (files w0) dest) as [q' [m' d'| |]|q'|] eqn:Hdst; try discriminate.
  - assert (Hrun :
      (filesDiffer imp (fileInfo (path_Base imp) (File m d))
                   dest (fileInfo (path_Base dest) (File m' d'))
                   (record (EvStat dest) (record (EvStat imp) w0))).1 =
      Ok (negb (bool_decide (d' = d)))).
    { rewrite Hbase. erewrite filesDiffer_files_run by eassumption.
      case_bool_decide as Hlen; cbn [fst].
      - f_equal. f_equal. apply bool_decide_ext. split; congruence.
      - rewrite bool_decide_eq_false_2; [reflexivity|].
        intros ->. now apply Hlen. }
    split.
    + intros Hd. right. exists q', m', d'. split; [reflexivity|].
      now rewrite Hrun, Hd.
    + intros [[? [=]]|(? & ? & ? & [= <- <- <-] & Hdiff)].
      rewrite Hrun in Hdiff. injection Hdiff as Hdiff.
      now apply negb_true_iff in Hdiff.
  - split; [eauto | reflexivity].
Qed.

(** [C3] A single regular file [imp] is imported into [cacheDir], whose
    destination path can be written.  The import succeeds.  It copies
    (one [io.Copy] more in the log) exactly when the destination does not
    already hold the source's bytes, that is when it is absent or the
    comparator reports a difference, and the copy leaves the source's bytes
    under the source's permission bits; when the destination holds the
    bytes nothing is copied and the file system stays as it was.  A second
    import of the unchanged file copies nothing and changes no file: on a
    fresh cache the counts are one and zero. *)
Theorem importFile_copies_once
    (w0 : World) (imp cacheDir q : string) (m : N) (d : list byte) :
  let dest := path_Join [cacheDir; path_Base imp] in
  resolve (files w0) imp = Found q (File m d) ->
  path_Base dest = path_Base imp ->
  writable (files w0) dest = true ->
  (holds (files w0) dest d = false <->
   (exists q', resolve (files w0) dest = Missing q') \/
   (exists q' m' d',
      resolve (files w0) dest = Found q' (File m' d') /\
      (filesDiffer imp (fileInfo (path_Base imp) (File m d))
                   dest (fileInfo (path_Base dest) (File m' d'))
                   (record (EvStat dest) (record (EvStat imp) w0))).1 = Ok true)) /\
  exists w1 w2 : World,
    importFile imp cacheDir w0 = (Ok dest, w1) /\
    importFile imp cacheDir w1 = (Ok dest, w2) /\
    (if holds (files w0) dest d
     then copies (log w1) = copies (log w0) /\ files w1 = files w0
     else copies (log w1) = S (copies (log w0)) /\
          exists q', resolve (files w1) dest = Found q' (File (N.land m ModePerm) d)) /\
    copies (log w2) = copies (log w1) /\
    files w2 = files w1.
Proof.
  intros dest Hsrc Hbase Hw.
  split; [now apply (holds_false_iff w0 imp dest q m d)|].
  assert (Hcopy : forall q',
    (resolve (files w0) dest = Missing q' /\ q' <> "" \/
     exists m' d', resolve (files w0) dest = Found q' (File m' d') /\ d' <> d) ->
    exists w1 w2 : World,
      importFile imp cacheDir w0 = (Ok dest, w1) /\
      importFile imp cacheDir w1 = (Ok dest, w2) /\
      (copies (log w1) = S (copies (log w0)) /\
       exists q', resolve (files w1) dest = Found q' (File (N.land m ModePerm) d)) /\
      copies (log w2) = copies (log w1) /\ files w2 = files w1).
  { intros q' Hdst.
    destruct (importFile_copy w0 imp cacheDir q q' m d Hsrc) as (Hne & w1 & Hrun & Hfs & Hc);
      [destruct Hdst as [[? _]|?]; auto | exact Hw | exact Hbase |].
    assert (Hsrc1 : resolve (files w1) imp = Found q (File m d)).
    { rewrite Hfs. apply resolve_frame; [exact Hsrc | exact Hne |].
      intros t Ht. destruct Hdst as [[Hmiss Hq']|(m' & d' & Hfound & _)].
      - rewrite (resolve_Missing _ _ _ Hmiss Hq') in Ht. discriminate.
      - destruct (resolve_Found _ _ _ _ Hfound) as [Hq' _]. congruence. }
    assert (Hdst1 : resolve (files w1) dest = Found q' (File (N.land m ModePerm) d)).
    { rewrite Hfs. apply resolve_written; [|discriminate].
      destruct Hdst as [?|(m' & d' & Hfound & _)]; eauto. }
    eexists w1, _. split; [exact Hrun|]. split.
    - apply (importFile_cached w1 imp cacheDir q q' m _ d Hsrc1 Hdst1 Hbase).
    - cbn [log files]. split; [eauto|]. split; [|reflexivity].
      rewrite copies_app. cbn. lia. }
  unfold holds. unfold writable in Hw.
  destruct (resolve (files w0) dest) as [q' [m' d'| |]|q'|] eqn:Hdst; try discriminate.
  - case_bool_decide as Hd.
    + subst d'.
      eexists _, _. split.
      { apply (importFile_cached w0 imp cacheDir q q' m m' d Hsrc Hdst Hbase). }
      split.
      { apply (importFile_cached _ imp cacheDir q q' m m' d); assumption. }
      cbn [log files]. rewrite !copies_app. cbn. repeat split; lia.
    + apply (Hcopy q'). right. eauto.
  - apply (Hcopy q'). left. split; [reflexivity|].
    apply andb_true_iff in Hw as [Hne _].
    now apply negb_true_iff, String.eqb_neq in Hne.
Qed.
(** *** [filesDiffer] and symbolic links *)

(** A link first and something else second is refused, and nothing is
    read. *)
Lemma filesDiffer_symlink_then_other
    (w : World) (p1 p2 : string) (info1 info2 : os.FileInfo) :
  os.Name info1 = os.Name info2 ->
  isSymlink info1 = true ->
  isSymlink info2 = false ->
  filesDiffer p1 info1 p2 info2 w = (Err "symlink -> not symlink not supported", w).
Proof.
  intros Hname Hs1 Hs2. unfold filesDiffer.
  now rewrite Hname, String.eqb_refl, Hs1, Hs2.
Qed.

(** Two links are compared by their targets, read with [Readlink] only. *)
Lemma filesDiffer_symlinks
    (w : World) (p1 p2 t1 t2 : string) (info1 info2 : os.FileInfo) :
  os.Name info1 = os.Name info2 ->
  isSymlink info1 = true ->
  isSymlink info2 = true ->
  files w !! p1 = Some (Symlink t1) ->
  files w !! p2 = Some (Symlink t2) ->
  filesDiffer p1 info1 p2 info2 w =
  (Ok (negb (String.eqb t1 t2)), record (EvReadlink p2) (record (EvReadlink p1) w)).
Proof.
  intros Hname Hs1 Hs2 Hp1 Hp2. unfold filesDiffer.
  rewrite Hname, String.eqb_refl, Hs1, Hs2. cbn [negb].
  unfold mbind, M_bind, os_Readlink. rewrite Hp1. cbn [files record].
  now rewrite Hp2.
Qed.

(** Something else first: the second entry's kind is never looked at, and
    different sizes alone give "differs" without an error. *)
Lemma filesDiffer_other_first_sizes
    (w : World) (p1 p2 : string) (info1 info2 : os.FileInfo) :
  os.Name info1 = os.Name info2 ->
  isSymlink info1 = false ->
  os.Size info1 <> os.Size info2 ->
  filesDiffer p1 info1 p2 info2 w = (Ok true, w).
Proof.
  intros Hname Hs1 Hsz. unfold filesDiffer.
  rewrite Hname, String.eqb_refl, Hs1. cbn [negb].
  destruct (Z.eqb_spec (os.Size info1) (os.Size info2)); [contradiction|reflexivity].
Qed.

(** *** [acquireUrl] and [Import] *)

Lemma importEach_app (c : types.StackerConfig) (dir : string) (a b : list string) (w : World) :
  importEach c dir (a ++ b) w =
  (importEach c dir a ≫= fun _ => importEach c dir b) w.
Proof.
  revert w. induction a as [|i a IH]; intros w; cbn [importEach app].
  - reflexivity.
  - unfold mbind, M_bind in *.
    destruct (acquireUrl c i dir w) as [[s|e] w1]; [apply IH | reflexivity].
Qed.

(** [C8] An import specification that parses to a scheme other than the
    empty one, [http], [https] and [stacker] fails with the unsupported
    scheme error and touches nothing; and when the imports [pre] of a layer
    succeed and the next one fails, [Import] returns that failure in the
    world the failing import left, whatever follows it in the list. *)
Theorem acquireUrl_unsupported_Import_aborts :
  (forall (c : types.StackerConfig) (i cache : string) (w : World) (u : URL),
     url_Parse i = Ok u ->
     Scheme u <> "" -> Scheme u <> "http" -> Scheme u <> "https" ->
     Scheme u <> "stacker" ->
     acquireUrl c i cache w = (Err ("unsupported url scheme " +:+ i), w)) /\
  (forall (c : types.StackerConfig) (name : string) (pre post : list string)
          (i : string) (w w1 w2 : World) (e : error),
     Import c name pre w = (Ok tt, w1) ->
     acquireUrl c i (path_Join [types.StackerDir c; "imports"; name]) w1 = (Err e, w2) ->
     Import c name (pre ++ i :: post) w = (Err e, w2)).
Proof.
  split.
  - intros c i cache w u Hu H0 H1 H2 H3. unfold acquireUrl.
    rewrite Hu. unfold try, mbind, M_bind, mret, M_ret.
    apply String.eqb_neq in H0, H1, H2, H3.
    now rewrite H0, H1, H2, H3.
  - intros c name pre post i w w1 w2 e Hpre Hfail.
    unfold Import in *. unfold mbind at 1, M_bind at 1.
    unfold mbind at 1, M_bind at 1 in Hpre.
    unfold call in *.
    destruct (extern _ (MkdirAll _ 493) w) as [[err|] fs].
    + discriminate Hpre.
    + change (importEach c (path_Join [types.StackerDir c; "imports"; name]) pre
                (record (EvExt (MkdirAll (path_Join [types.StackerDir c; "imports"; name]) 493))
                        (withFiles fs w)) = (Ok tt, w1)) in Hpre.
      change (importEach c (path_Join [types.StackerDir c; "imports"; name]) (pre ++ i :: post)
                (record (EvExt (MkdirAll (path_Join [types.StackerDir c; "imports"; name]) 493))
                        (withFiles fs w)) = (Err e, w2)).
      rewrite importEach_app. rewrite (bind_Ok _ _ _ _ _ Hpre).
      cbn [importEach]. now rewrite (bind_Err _ _ _ _ _ Hfail).
Qed.

End ImportProofs.

Lemma filesDiffer_regular_files_witness :
  exists (differs : bool) (w' : World),
    filesDiffer "/src/data.txt" (fileInfo "data.txt" (File 420 Ref.hello))
                "/cache/data.txt" (fileInfo "data.txt" (File 384 Ref.hello))
                (Ref.world Ref.warm) = (Ok differs, w') /\
    (differs = false <-> 5%Z = 5%Z /\ Ref.hello = Ref.hello) /\
    (Ref.hello <> Ref.hello -> differs = true) /\
    (5%Z <> 5%Z -> differs = true /\ w' = Ref.world Ref.warm).
Proof.
  apply (filesDiffer_regular_files (Ref.world Ref.warm)
           "/src/data.txt" "/cache/data.txt" "/src/data.txt" "/cache/data.txt"
           (fileInfo "data.txt" (File 420 Ref.hello))
           (fileInfo "data.txt" (File 384 Ref.hello))
           420 384 Ref.hello Ref.hello); vm_compute; reflexivity.
Defined.

(** [C2] A regular file first and a symbolic link second, of one name: the
    link is not refused.  Its [lstat] size (the length of its target) equals
    the file's size, so both names are opened, the link is followed, and
    the answer is "same" with no error.  In the other order the pair is
    refused. *)
Theorem filesDiffer_file_then_symlink_same :
  let info1 := fileInfo "f" (File 420 [x78]) in
  let info2 := fileInfo "f" (Symlink "t") in
  os.Name info1 = os.Name info2 /\
  isSymlink info1 = false /\
  isSymlink info2 = true /\
  (filesDiffer "/a/f" info1 "/b/f" info2 (Ref.world Ref.linked)).1 = Ok false /\
  (filesDiffer "/b/f" info2 "/a/f" info1 (Ref.world Ref.linked)).1 =
    Err "symlink -> not symlink not supported".
Proof. vm_compute. repeat split; reflexivity. Qed.

Lemma importFile_copies_once_witness :
  let w0 := Ref.world Ref.disk in
  let dest := path_Join ["/cache"; path_Base "/src/data.txt"] in
  dest = "/cache/data.txt" /\
  holds (files w0) dest Ref.hello = false /\
  exists w1 w2 : World,
    importFile "/src/data.txt" "/cache" w0 = (Ok dest, w1) /\
    importFile "/src/data.txt" "/cache" w1 = (Ok dest, w2) /\
    (if holds (files w0) dest Ref.hello
     then copies (log w1) = copies (log w0) /\ files w1 = files w0
     else copies (log w1) = S (copies (log w0)) /\
          exists q', resolve (files w1) dest = Found q' (File (N.land 420 ModePerm) Ref.hello)) /\
    copies (log w2) = copies (log w1) /\
    files w2 = files w1.
Proof.
  intros w0 dest. split; [reflexivity|]. split; [vm_compute; reflexivity|].
  apply (importFile_copies_once (Ref.world Ref.disk) "/src/data.txt" "/cache"
           "/src/data.txt" 420 Ref.hello); vm_compute; reflexivity.
Defined.

Lemma acquireUrl_unsupported_Import_aborts_witness :
  let c := {| types.StackerDir := "/s"; types.OCIDir := "/oci"; types.RootFSDir := "/roots" |} in
  acquireUrl c "ftp://host/file" "/cache" (Ref.world Ref.disk) =
    (Err "unsupported url scheme ftp://host/file", Ref.world Ref.disk) /\
  exists w2 : World,
    Import c "layer" (["/src/data.txt"] ++ "ftp://host/file" :: ["/src/data.txt"])
           (Ref.world Ref.disk) =
    (Err "unsupported url scheme ftp://host/file", w2).
Proof.
  intros c. split.
  - apply (proj1 acquireUrl_unsupported_Import_aborts c "ftp://host/file" "/cache"
             (Ref.world Ref.disk)
             {| Scheme := "ftp"; Host := "host"; Path := "/file" |});
      [vm_compute; reflexivity | discriminate ..].
  - eexists.
    eapply (proj2 acquireUrl_unsupported_Import_aborts c "layer" ["/src/data.txt"]
              ["/src/data.txt"] "ftp://host/file" (Ref.world Ref.disk)).
    + vm_compute. reflexivity.
    + vm_compute. reflexivity.
Defined.

(** ** The image configuration *)

Section Entries.

#[local] Arguments String.append : simpl nomatch.

Lemma prefix_empty (s : string) : String.prefix "" s = true.
Proof. now destruct s. Qed.

Lemma prefix_entry (p k v : string) :
  (forall q r, p <> q +:+ "=" +:+ r) ->
  HasPrefix (k +:+ "=" +:+ v) (p +:+ "=") = String.eqb k p || HasPrefix k (p +:+ "=").
Proof.
  unfold HasPrefix. revert k. induction p as [|c p IH]; intros k Hp.
  - destruct k as [|a k]; cbn -[ascii_dec Ascii.eqb].
    + destruct (ascii_dec "=" "="); [now rewrite prefix_empty|contradiction].
    + destruct (ascii_dec "=" a); [now rewrite !prefix_empty|reflexivity].
  - assert (Hc : c <> "="%char).
    { intros ->. apply (Hp "" p). reflexivity. }
    destruct k as [|a k]; cbn -[ascii_dec Ascii.eqb].
    + destruct (ascii_dec c "="); [contradiction|reflexivity].
    + destruct (ascii_dec c a) as [->|Hca].
      * rewrite Ascii.eqb_refl. apply IH.
        intros q r ->. apply (Hp (String a q) r). reflexivity.
      * replace (Ascii.eqb a c) with false; [reflexivity|].
        symmetry. apply Ascii.eqb_neq. congruence.
Qed.

Lemma PATH_entry (k v : string) :
  HasPrefix (k +:+ "=" +:+ v) "PATH=" = String.eqb k "PATH" || HasPrefix k "PATH=".
Proof.
  apply (prefix_entry "PATH" k v).
  intros q r E.
  destruct q as [|a [|b [|c [|d [|e q]]]]]; cbn in E; discriminate E.
Qed.

(** A name without [=] cannot itself start with [PATH=]. *)
Lemma name_not_PATH_entry (k : string) :
  hasEquals k = false -> HasPrefix k "PATH=" = false.
Proof.
  unfold HasPrefix.
  destruct k as [|a [|b [|c [|d [|e k]]]]]; cbn -[ascii_dec Ascii.eqb]; intros Hk;
    repeat match goal with
           | |- context [ascii_dec ?x ?y] => destruct (ascii_dec x y) as [<-|]
           end; try reflexivity.
  cbn in Hk. discriminate Hk.
Qed.

End Entries.

Section BuildProofs.

Context `{GoEnv}.

Lemma appendEnvironment_spec (declared : list (string * string)) (pathSet : bool)
                             (env : list string) :
  appendEnvironment declared pathSet env =
  (pathSet || existsb (fun kv => String.eqb kv.1 "PATH") declared,
   env ++ map (fun kv => kv.1 +:+ "=" +:+ kv.2) declared).
Proof.
  revert pathSet env. induction declared as [|[k v] rest IH]; intros pathSet env; cbn.
  - now rewrite orb_false_r, app_nil_r.
  - rewrite IH, <- app_assoc. cbn. f_equal.
    destruct (String.eqb k "PATH"), pathSet; reflexivity.
Qed.

Lemma existsb_entries (declared : list (string * string)) :
  existsb (fun s => HasPrefix s "PATH=")
          (map (fun kv => kv.1 +:+ "=" +:+ kv.2) declared) =
  existsb (fun kv => String.eqb kv.1 "PATH" || HasPrefix kv.1 "PATH=") declared.
Proof.
  induction declared as [|[k v] rest IH]; [reflexivity|].
  cbn [map existsb fst snd]. now rewrite PATH_entry, IH.
Qed.

Lemma existsb_named (declared : list (string * string)) :
  existsb (fun kv => String.eqb kv.1 "PATH") declared = true ->
  existsb (fun kv => String.eqb kv.1 "PATH" || HasPrefix kv.1 "PATH=") declared = true.
Proof.
  induction declared as [|[k v] rest IH]; [easy|].
  cbn [existsb fst snd].
  destruct (String.eqb k "PATH"); [easy|]. cbn [orb].
  intros Hr. rewrite (IH Hr). apply orb_true_r.
Qed.

(** [C6] The environment after the merge is the inherited one, then one
    entry [k=v] for every declared variable, then the default [PATH] entry
    exactly when no entry of the merged list starts with [PATH=].  For a
    layer whose declared names are names of environment variables, that is:
    exactly when the layer declares no variable named [PATH] and no
    inherited entry starts with [PATH=]; if either has one, no default is
    appended. *)
Theorem mergeEnvironment_default_PATH (l : types.Layer) (env : list string) :
  let declared := map (fun kv => kv.1 +:+ "=" +:+ kv.2) (types.Environment l) in
  let named :=
    existsb (fun kv => String.eqb kv.1 "PATH" || HasPrefix kv.1 "PATH=")
            (types.Environment l) in
  let inherited := existsb (fun s => HasPrefix s "PATH=") env in
  mergeEnvironment l env =
    env ++ declared ++
    (if named || inherited then [] else ["PATH=" +:+ ReasonableDefaultPath]) /\
  (forallb (fun kv => negb (hasEquals kv.1)) (types.Environment l) = true ->
   let declaresPATH :=
     existsb (fun kv => String.eqb kv.1 "PATH") (types.Environment l) in
   mergeEnvironment l env =
     env ++ declared ++
     (if declaresPATH || inherited then [] else ["PATH=" +:+ ReasonableDefaultPath])).
Proof.
  intros declared named inherited.
  assert (Hmerge : mergeEnvironment l env =
            env ++ declared ++
            (if named || inherited then [] else ["PATH=" +:+ ReasonableDefaultPath])).
  { unfold mergeEnvironment.
    rewrite appendEnvironment_spec. cbn [fst snd orb]. fold declared.
    assert (Hscan : existsb (fun s => HasPrefix s "PATH=") (env ++ declared)
                    = named || inherited).
    { rewrite List.existsb_app. fold inherited. rewrite orb_comm. f_equal.
      apply existsb_entries. }
    destruct (existsb (fun kv => String.eqb kv.1 "PATH") (types.Environment l)) eqn:E.
    - unfold named. rewrite (existsb_named _ E). cbn. now rewrite app_nil_r.
    - rewrite Hscan. destruct (named || inherited).
      + now rewrite app_nil_r.
      + now rewrite app_assoc. }
  split; [exact Hmerge|].
  intros Hnames declaresPATH. rewrite Hmerge.
  replace named with declaresPATH; [reflexivity|].
  unfold declaresPATH, named. clear -Hnames.
  induction (types.Environment l) as [|[k v] rest IH]; [reflexivity|].
  cbn [forallb existsb fst] in *.
  apply andb_true_iff in Hnames as [Hk Hrest].
  apply negb_true_iff in Hk.
  now rewrite (name_not_PATH_entry _ Hk), orb_false_r, (IH Hrest).
Qed.
(** [C7] A layer that declares [fullCommand], and whose declared [cmd] and
    [entrypoint] parse: the edited configuration has a nil [Cmd] and the
    parsed full command as [Entrypoint], whatever was declared or inherited
    for the two.  A layer without [fullCommand]: a declared [cmd] or
    [entrypoint] replaces the inherited value by its parse, an undeclared
    one keeps the inherited value. *)
Theorem editConfig_commands (l : types.Layer) (imageConfig : ispec.ImageConfig) :
  (forall (raw : types.Raw) (full : option (list string)),
     types.FullCommand l = Some raw ->
     ParseFullCommand l = Ok full ->
     (types.Cmd l <> None -> exists c, ParseCmd l = Ok c) ->
     (types.Entrypoint l <> None -> exists e, ParseEntrypoint l = Ok e) ->
     exists cfg,
       editConfig l imageConfig = Ok cfg /\
       ispec.Cmd cfg = None /\
       ispec.Entrypoint cfg = full) /\
  (forall cmd entrypoint : option (list string),
     types.FullCommand l = None ->
     match types.Cmd l with
     | Some _ => ParseCmd l = Ok cmd
     | None => cmd = ispec.Cmd imageConfig
     end ->
     match types.Entrypoint l with
     | Some _ => ParseEntrypoint l = Ok entrypoint
     | None => entrypoint = ispec.Entrypoint imageConfig
     end ->
     exists cfg,
       editConfig l imageConfig = Ok cfg /\
       ispec.Cmd cfg = cmd /\
       ispec.Entrypoint cfg = entrypoint).
Proof.
  split.
  - intros raw full Hfull Hparse Hcmd Hentry.
    unfold editConfig, mergeCommands. rewrite Hfull, Hparse.
    destruct (types.Cmd l) as [rc|].
    + destruct Hcmd as [c Hc]; [discriminate|]. rewrite Hc.
      destruct (types.Entrypoint l) as [re|].
      * destruct Hentry as [e He]; [discriminate|]. rewrite He.
        eexists. repeat split.
      * eexists. repeat split.
    + destruct (types.Entrypoint l) as [re|].
      * destruct Hentry as [e He]; [discriminate|]. rewrite He.
        eexists. repeat split.
      * eexists. repeat split.
  - intros cmd entrypoint Hfull Hcmd Hentry.
    unfold editConfig, mergeCommands. rewrite Hfull.
    destruct (types.Cmd l) as [rc|]; destruct (types.Entrypoint l) as [re|];
      rewrite ?Hcmd, ?Hentry; subst; eexists; repeat split.
Qed.

(** ** The orchestrator, call by call *)

Lemma call_run {R : Type} (e : ExtE R) (w : World) :
  call e w = (Ok (extern R e w).1,
              record (EvExt e) (withFiles (extern R e w).2 w)).
Proof. unfold call. now destruct (extern R e w). Qed.

Lemma fmt_Print_run (s : string) (w : World) :
  fmt_Print s w = (Ok tt, record (EvPrint s) w).
Proof. reflexivity. Qed.

(** [C5] The imports of the layer parse and are resolved, and the cache
    then answers the lookup with a descriptor: the layer's pass through the
    loop ends with the call that points the layer's reference at that
    descriptor, and the log of the pass is the log the import resolver left
    followed by the lookup, the note and that one call.  No tree is made,
    restored or snapshotted, no command runs, nothing is repacked, no
    mutator is opened and the cache is not written. *)
Theorem buildLayer_cache_hit
    (c : types.StackerConfig) (flags : BuildFlags) (name : string) (l : types.Layer)
    (w w1 : World) (imports : list string) (d : ispec.Descriptor) :
  let importDir := path_Join [types.StackerDir c; "imports"; name] in
  ParseImport l = Ok imports ->
  Import c name imports
    (record (EvPrint ("importing files..." +:+ nl))
       (record (EvPrint ("building image " +:+ name +:+ "..." +:+ nl)) w)) = (Ok tt, w1) ->
  (extern _ (CacheLookup l importDir) w1).1 = (d, true) ->
  exists (r : outcome unit) (w' : World),
    buildLayer c flags name l w = (r, w') /\
    log w' = log w1 ++ [EvExt (CacheLookup l importDir);
                        EvPrint ("found cached layer " +:+ name +:+ nl);
                        EvExt (UpdateReference name d)].
Proof.
  intros importDir Hparse Himport Hhit.
  unfold buildLayer.
  rewrite (bind_Ok _ _ _ _ _ (fmt_Print_run _ _)).
  rewrite (bind_Ok _ _ _ _ _ (fmt_Print_run _ _)).
  rewrite Hparse. unfold try at 1. unfold mbind at 1, M_bind at 1, mret at 1, M_ret at 1.
  rewrite (bind_Ok _ _ _ _ _ Himport). fold importDir.
  rewrite (bind_Ok _ _ _ _ _ (call_run _ _)). rewrite Hhit. cbn [fst snd].
  rewrite (bind_Ok _ _ _ _ _ (fmt_Print_run _ _)).
  rewrite (bind_Ok _ _ _ _ _ (call_run _ _)).
  destruct (extern _ (UpdateReference name d) _) as [[e|] fs]; cbn [fst snd check];
    eexists _, _; (split; [reflexivity|]);
    cbn [log record withFiles]; now rewrite <- !app_assoc.
Qed.
(** ** The bundle manifest *)

Lemma renameFirstMtree_none (root newName : string) (infos : list os.FileInfo) (w : World) :
  Forall (fun fi => isMtree fi = false) infos ->
  renameFirstMtree root newName infos w = (Ok tt, w).
Proof.
  induction 1 as [|fi rest Hfi _ IH]; cbn [renameFirstMtree]; [reflexivity|].
  unfold isMtree in Hfi. now rewrite Hfi.
Qed.

Lemma renameFirstMtree_first
    (root newName : string) (pre rest : list os.FileInfo) (fi : os.FileInfo) (w : World) :
  Forall (fun fi => isMtree fi = false) pre ->
  isMtree fi = true ->
  renameFirstMtree root newName (pre ++ fi :: rest) w =
  os_Rename (path_Join [root; os.Name fi]) (path_Join [root; newName]) w.
Proof.
  intros Hpre Hfi.
  induction Hpre as [|f pre Hf _ IH]; cbn [renameFirstMtree app].
  - unfold isMtree in Hfi. now rewrite Hfi.
  - unfold isMtree in Hf. now rewrite Hf.
Qed.

(** What a listing says about the file system it was read from. *)
Lemma ReadDir_entry (w : World) (root : string) (infos : list os.FileInfo) (fi : os.FileInfo) :
  (ioutil_ReadDir root w).1 = Ok infos ->
  fi ∈ infos ->
  exists n : node,
    files w !! path_Join [root; os.Name fi] = Some n /\
    fi = fileInfo (os.Name fi) n /\
    path_Base (path_Join [root; os.Name fi]) = os.Name fi.
Proof.
  unfold ioutil_ReadDir.
  destruct (files w !! root) as [[| |perm]|]; cbn [fst]; try discriminate.
  intros [= <-] Hin.
  rewrite merge_sort_Permutation in Hin.
  unfold dirEntries in Hin.
  apply list_elem_of_In, in_map_iff in Hin as ([k n] & <- & Hin).
  apply list_elem_of_In, list_elem_of_filter in Hin as [Hchild Hin].
  apply elem_of_map_to_list in Hin.
  cbn [fst snd] in *. unfold isChild in Hchild.
  apply andb_true_iff in Hchild as [_ Hjoin].
  apply String.eqb_eq in Hjoin.
  assert (Hname : os.Name (fileInfo (path_Base k) n) = path_Base k)
    by now destruct n.
  rewrite Hname, Hjoin. eauto.
Qed.

Lemma ReadDir_world (w : World) (root : string) :
  (ioutil_ReadDir root w).2 = record (EvReadDir root) w.
Proof. unfold ioutil_ReadDir. now destruct (files w !! root) as [[| |]|]. Qed.

Lemma fileInfo_IsDir (name : string) (n : node) :
  os.IsDir (fileInfo name n) = false -> forall perm, n <> Dir perm.
Proof.
  intros Hdir perm ->. unfold os.IsDir, fileInfo in Hdir. cbn [os.Mode] in Hdir.
  apply negb_false_iff, N.eqb_eq in Hdir.
  rewrite N.land_lor_distr_l, N.land_diag in Hdir.
  apply N.lor_eq_0_iff in Hdir as [Hdir _]. discriminate Hdir.
Qed.

Lemma os_Rename_log (oldpath newpath : string) (w : World) :
  log (os_Rename oldpath newpath w).2 = log w ++ [EvRename oldpath newpath].
Proof.
  unfold os_Rename.
  destruct (files w !! oldpath) as [n|]; [|reflexivity].
  destruct (String.eqb oldpath newpath); [reflexivity|].
  destruct (negb (isDirAt (files w) (path_Dir newpath))); [reflexivity|].
  destruct n, (files w !! newpath) as [[| |]|];
    try reflexivity;
    try (destruct (hasEntries _ _); reflexivity);
    destruct (under _ _); reflexivity.
Qed.

(** A successful rename of something that is not a directory. *)
Lemma os_Rename_entry (oldpath newpath : string) (n : node) (w w' : World) :
  files w !! oldpath = Some n ->
  (forall perm, n <> Dir perm) ->
  os_Rename oldpath newpath w = (Ok tt, w') ->
  files w' !! newpath = Some n /\
  (oldpath <> newpath -> files w' !! oldpath = None) /\
  (forall k, k <> oldpath -> k <> newpath -> files w' !! k = files w !! k).
Proof.
  intros Hold Hn. unfold os_Rename. rewrite Hold.
  destruct (String.eqb_spec oldpath newpath) as [<-|Hne].
  - intros [= <-]. cbn [files record]. repeat split; easy.
  - destruct (negb (isDirAt (files w) (path_Dir newpath))); [discriminate|].
    destruct n as [perm data|target|perm]; [| |exfalso; now apply (Hn perm)];
      (destruct (files w !! newpath) as [[| |]|]; try discriminate;
       intros [= <-]; cbn [files record withFiles];
       (split; [apply lookup_insert_eq|]);
       (split; [intros _; rewrite lookup_insert_ne, lookup_delete_eq by congruence;
                reflexivity|]);
       intros k Hk1 Hk2;
       rewrite lookup_insert_ne, lookup_delete_ne by congruence; reflexivity).
Qed.

Lemma ReplaceFirst_colon (alg enc : string) :
  ~ In ":"%char (list_ascii_of_string alg) ->
  ReplaceFirst (alg +:+ ":" +:+ enc) ":" "_" = alg +:+ "_" +:+ enc.
Proof.
  induction alg as [|a alg IH]; intros Hno.
  - reflexivity.
  - change (String a alg +:+ ":" +:+ enc) with (String a (alg +:+ ":" +:+ enc)).
    change (String a alg +:+ "_" +:+ enc) with (String a (alg +:+ "_" +:+ enc)).
    cbn [ReplaceFirst].
    destruct (Ascii.eqb_spec a ":") as [->|_].
    + exfalso. apply Hno. now left.
    + rewrite IH; [reflexivity|]. intros Hin. apply Hno. now right.
Qed.

Lemma filter_single_split (infos : list os.FileInfo) (fi : os.FileInfo) :
  List.filter isMtree infos = [fi] ->
  exists pre rest,
    infos = pre ++ fi :: rest /\
    Forall (fun f => isMtree f = false) pre /\
    isMtree fi = true.
Proof.
  induction infos as [|f infos IH]; cbn [List.filter]; [discriminate|].
  destruct (isMtree f) eqn:Ef.
  - intros [= -> _]. exists [], infos. repeat split; [constructor | exact Ef].
  - intros Hrest. destruct (IH Hrest) as (pre & rest & -> & Hpre & Hfi).
    exists (f :: pre), rest. repeat split; [constructor; assumption | exact Hfi].
Qed.
Lemma updateBundleMtree_run (root : string) (d : ispec.Descriptor) (w : World)
                            (infos : list os.FileInfo) :
  (ioutil_ReadDir root w).1 = Ok infos ->
  updateBundleMtree root d w =
  renameFirstMtree root (ReplaceFirst (ispec.Digest d) ":" "_" +:+ ".mtree") infos
                   (record (EvReadDir root) w).
Proof.
  intros Hread. unfold updateBundleMtree.
  apply bind_Ok. rewrite <- Hread, <- ReadDir_world.
  now destruct (ioutil_ReadDir root w).
Qed.

(** When a rename fails, and a case in which it cannot. *)
Lemma os_Rename_fails (oldpath newpath : string) (w w' : World) (e : error) :
  os_Rename oldpath newpath w = (Err e, w') -> files w' = files w.
Proof.
  unfold os_Rename.
  destruct (files w !! oldpath) as [n|]; [|now intros [= _ <-]].
  destruct (String.eqb oldpath newpath); [discriminate|].
  destruct (negb (isDirAt (files w) (path_Dir newpath))); [now intros [= _ <-]|].
  destruct n, (files w !! newpath) as [[| |]|];
    try discriminate; try (now intros [= _ <-]);
    try (destruct (hasEntries _ _); [now intros [= _ <-] | discriminate]);
    destruct (under _ _); [now intros [= _ <-] | discriminate].
Qed.

Lemma os_Rename_succeeds (oldpath newpath : string) (n : node) (w : World) :
  files w !! oldpath = Some n ->
  (forall perm, n <> Dir perm) ->
  isDirAt (files w) (path_Dir newpath) = true ->
  (forall perm, files w !! newpath <> Some (Dir perm)) ->
  (os_Rename oldpath newpath w).1 = Ok tt.
Proof.
  intros Hold Hn Hdir Hnew. unfold os_Rename. rewrite Hold, Hdir.
  destruct (String.eqb oldpath newpath); [reflexivity|]. cbn [negb].
  destruct n as [perm data|target|perm]; [| |exfalso; now apply (Hn perm)];
    (destruct (files w !! newpath) as [[| |perm']|] eqn:E; try reflexivity;
     exfalso; now apply (Hnew perm')).
Qed.

(** [C10] The directory is listed.  When no name in the listing ends in
    [.mtree], [updateBundleMtree] returns nil and the only thing it did was
    the listing: no rename, no report.  When names do, the one call made
    after the listing renames the first of them in listing order to the new
    name.  That rename succeeds when the entry is not a directory, the new
    path lies in a directory and holds no directory; a rename that fails
    leaves the file system as it was.  After a rename that succeeded on an
    entry that is not a directory, the new path holds what the first entry
    held, the first entry's own path is empty unless it is the new path, and
    every other path is as before: the other entries of the directory are
    still there, unchanged, except an entry that had the new name, which the
    first entry has replaced. *)
Theorem updateBundleMtree_none_or_first
    (root : string) (d : ispec.Descriptor) (w : World) (infos : list os.FileInfo) :
  let newName := ReplaceFirst (ispec.Digest d) ":" "_" +:+ ".mtree" in
  (ioutil_ReadDir root w).1 = Ok infos ->
  (Forall (fun fi => isMtree fi = false) infos ->
   updateBundleMtree root d w = (Ok tt, record (EvReadDir root) w)) /\
  (forall (pre rest : list os.FileInfo) (first : os.FileInfo),
     infos = pre ++ first :: rest ->
     Forall (fun fi => isMtree fi = false) pre ->
     isMtree first = true ->
     let oldpath := path_Join [root; os.Name first] in
     let newpath := path_Join [root; newName] in
     exists (r : outcome unit) (w' : World) (n : node),
       updateBundleMtree root d w = (r, w') /\
       log w' = log w ++ [EvReadDir root; EvRename oldpath newpath] /\
       files w !! oldpath = Some n /\
       first = fileInfo (os.Name first) n /\
       (os.IsDir first = false ->
        isDirAt (files w) (path_Dir newpath) = true ->
        (forall perm, files w !! newpath <> Some (Dir perm)) ->
        r = Ok tt) /\
       (forall e, r = Err e -> files w' = files w) /\
       (r = Ok tt ->
        os.IsDir first = false ->
        files w' !! newpath = Some n /\
        (oldpath <> newpath -> files w' !! oldpath = None) /\
        (forall k, k <> oldpath -> k <> newpath -> files w' !! k = files w !! k) /\
        forall other : os.FileInfo,
          other ∈ infos ->
          os.Name other <> os.Name first ->
          is_Some (files w' !! path_Join [root; os.Name other]) /\
          (path_Join [root; os.Name other] <> newpath ->
           files w' !! path_Join [root; os.Name other] =
           files w !! path_Join [root; os.Name other]))).
Proof.
  intros newName Hread. split.
  - intros Hnone. rewrite (updateBundleMtree_run _ _ _ _ Hread).
    now apply renameFirstMtree_none.
  - intros pre rest first -> Hpre Hfirst oldpath newpath.
    rewrite (updateBundleMtree_run _ _ _ _ Hread).
    rewrite renameFirstMtree_first by assumption.
    fold newName oldpath newpath.
    destruct (ReadDir_entry w root _ first Hread) as (n & Hn & Hfi & Hbase1).
    { apply elem_of_app. right. left. }
    destruct (os_Rename oldpath newpath (record (EvReadDir root) w)) as [r w'] eqn:Hren.
    exists r, w', n. split; [reflexivity|]. split.
    { pose proof (os_Rename_log oldpath newpath (record (EvReadDir root) w)) as Hlog.
      rewrite Hren in Hlog. cbn [snd log record] in Hlog.
      now rewrite Hlog, <- app_assoc. }
    split; [exact Hn|]. split; [exact Hfi|].
    assert (Hnode : os.IsDir first = false -> forall perm, n <> Dir perm).
    { intros Hdir. rewrite Hfi in Hdir. exact (fileInfo_IsDir _ _ Hdir). }
    split.
    { intros Hdir Hparent Hnew.
      pose proof (os_Rename_succeeds oldpath newpath n (record (EvReadDir root) w)
                    Hn (Hnode Hdir) Hparent Hnew) as Hok.
      now rewrite Hren in Hok. }
    split.
    { intros e ->. now rewrite (os_Rename_fails _ _ _ _ _ Hren). }
    intros -> Hdir.
    destruct (os_Rename_entry oldpath newpath n (record (EvReadDir root) w) w' Hn
                (Hnode Hdir) Hren) as (Hnew & Hgone & Hkeep).
    split; [exact Hnew|]. split; [exact Hgone|]. split; [exact Hkeep|].
    intros other Hother Hname.
    destruct (ReadDir_entry w root _ other Hread Hother) as (no & Hno & _ & Hbase).
    assert (Hkey : path_Join [root; os.Name other] <> oldpath).
    { intros Heq. apply Hname.
      rewrite <- Hbase, <- Hbase1. unfold oldpath in Heq. now rewrite Heq. }
    split.
    + destruct (decide (path_Join [root; os.Name other] = newpath)) as [->|Hk].
      * eauto.
      * rewrite Hkeep by assumption. cbn [files record]. eauto.
    + intros Hk. now rewrite Hkeep by assumption.
Qed.
(** ** The commit of a layer *)

Lemma call_inv {R : Type} (e : ExtE R) (w w' : World) (r : R) :
  call e w = (Ok r, w') ->
  r = (extern R e w).1 /\ log w' = log w ++ [EvExt e].
Proof. rewrite call_run. now intros [= <- <-]. Qed.

Lemma fmt_Print_inv (s : string) (w w' : World) (u : unit) :
  fmt_Print s w = (Ok u, w') ->
  log w' = log w ++ [EvPrint s] /\ files w' = files w.
Proof. destruct u. rewrite fmt_Print_run. now intros [= <-]. Qed.

(** Peel the first call off a sequence that is known to have succeeded;
    the worlds in between stay abstract. *)
Ltac inv_bind H :=
  let a := fresh "a" in
  let w1 := fresh "w" in
  let H1 := fresh "Hstep" in
  apply bind_Ok_inv in H as (a & w1 & H1 & H);
  first
    [ apply fmt_Print_inv in H1 as [H1 _]
    | apply call_inv in H1 as [? H1]
    | apply check_Ok_inv in H1 as [H1 ->]
    | apply try_Ok_inv in H1 as [H1 ->]
    | idtac ].

(** A commit that succeeds ends with the mutator's [Commit], whose answer
    is the new image, and the update of the layer's reference. *)
Lemma commitLayer_Ok (c : types.StackerConfig) (name : string) (l : types.Layer)
                     (w w' : World) (newPath : umoci.DescriptorPath) :
  commitLayer c name l w = (Ok newPath, w') ->
  exists w0 : World,
    (extern _ (MutatorCommit name) w0).1 = Ok newPath /\
    log w' = log w0 ++ [EvExt (MutatorCommit name);
                        EvExt (UpdateReference name (umoci.Root newPath))].
Proof.
  intros Hrun. unfold commitLayer in Hrun.
  do 18 inv_bind Hrun.
  inv_bind Hrun. injection Hrun as <- <-.
  match goal with
  | Hc : ?a = (extern _ (MutatorCommit name) ?w0).1, Ht : ?a = Ok _,
    Hl1 : log ?w1 = log ?w0 ++ [EvExt (MutatorCommit name)],
    Hl2 : log ?w2 = log ?w1 ++ [EvExt (UpdateReference name _)] |- _ =>
      exists w0; split; [congruence|]; rewrite Hl2, Hl1, <- app_assoc; reflexivity
  end.
Qed.
(** [C9] A layer that is not build-only goes through the cache-miss path
    and the path succeeds.  Then the commit answered with a new image
    [newPath] and pointed the layer's reference at it; in the world [wc]
    that this left, [updateBundleMtree] ran on the working tree with the
    descriptor of [newPath] and succeeded, and the next call wrote the
    bundle metadata with [From] set to [newPath].  If the working tree then
    listed a single [.mtree] entry, not a directory, and the digest reads
    [alg:enc], that entry is afterwards found under [alg_enc.mtree] and no
    longer under its old name, through exactly one rename. *)
Theorem buildMiss_refreshes_bundle
    (c : types.StackerConfig) (flags : BuildFlags) (name : string) (l : types.Layer)
    (importDir : string) (w w' : World) :
  types.BuildOnly l = false ->
  buildMiss c flags name l importDir w = (Ok tt, w') ->
  let bundlePath := path_Join [types.RootFSDir c; ".working"] in
  let wc := (commitLayer c name l (runLayer c flags name l w).2).2 in
  exists newPath : umoci.DescriptorPath,
    let wu := (updateBundleMtree bundlePath (umoci.Descriptor newPath) wc).2 in
    let wm := (refreshBundle c newPath wc).2 in
    (commitLayer c name l (runLayer c flags name l w).2).1 = Ok newPath /\
    (exists w0 : World,
       (extern _ (MutatorCommit name) w0).1 = Ok newPath /\
       log wc = log w0 ++ [EvExt (MutatorCommit name);
                           EvExt (UpdateReference name (umoci.Root newPath))]) /\
    updateBundleMtree bundlePath (umoci.Descriptor newPath) wc = (Ok tt, wu) /\
    log wm = log wu ++
             [EvExt (WriteBundleMeta bundlePath
                       {| umoci.Version := UmociMetaVersion; umoci.From := newPath |})] /\
    recordLayer name l importDir wm = (Ok tt, w') /\
    forall (infos : list os.FileInfo) (fi : os.FileInfo) (alg enc : string),
      (ioutil_ReadDir bundlePath wc).1 = Ok infos ->
      List.filter isMtree infos = [fi] ->
      os.IsDir fi = false ->
      ispec.Digest (umoci.Descriptor newPath) = alg +:+ ":" +:+ enc ->
      ~ In ":"%char (list_ascii_of_string alg) ->
      let oldpath := path_Join [bundlePath; os.Name fi] in
      let newpath := path_Join [bundlePath; (alg +:+ "_" +:+ enc) +:+ ".mtree"] in
      exists n : node,
        files wc !! oldpath = Some n /\
        files wu !! newpath = Some n /\
        (oldpath <> newpath -> files wu !! oldpath = None) /\
        log wu = log wc ++ [EvReadDir bundlePath; EvRename oldpath newpath].
Proof.
  intros Hfull Hrun bundlePath. unfold buildMiss in Hrun. rewrite Hfull in Hrun.
  apply bind_Ok_inv in Hrun as ([] & wr & Hprefix & Hrun).
  apply bind_Ok_inv in Hrun as (newPath & wc' & Hcommit & Hrun).
  apply bind_Ok_inv in Hrun as ([] & wm' & Hrefresh & Hrecord).
  rewrite Hprefix. cbn [snd]. rewrite Hcommit. cbn [fst snd].
  exists newPath. rewrite Hrefresh. cbn [snd].
  destruct (commitLayer_Ok _ _ _ _ _ _ Hcommit) as (wb & Hanswer & Hlog).
  unfold refreshBundle in Hrefresh. fold bundlePath in Hrefresh.
  apply bind_Ok_inv in Hrefresh as ([] & wu' & Hupdate & Hmeta).
  inv_bind Hmeta. apply check_Ok_inv in Hmeta as [_ <-].
  rewrite Hupdate. cbn [snd].
  split; [reflexivity|]. split; [eauto|].
  repeat (split; [assumption || reflexivity|]).
  intros infos fi alg enc Hread Hsingle Hdir Hdigest Hcolon.
  set (oldpath := path_Join [bundlePath; os.Name fi]).
  set (newpath := path_Join [bundlePath; (alg +:+ "_" +:+ enc) +:+ ".mtree"]).
  destruct (filter_single_split _ _ Hsingle) as (pre & rest & -> & Hpre & Hfi).
  destruct (ReadDir_entry wc' bundlePath _ fi Hread) as (n & Hn & Hinfo & _).
  { apply elem_of_app. right. left. }
  rewrite (updateBundleMtree_run _ _ _ _ Hread) in Hupdate.
  rewrite renameFirstMtree_first in Hupdate by assumption.
  rewrite Hdigest, ReplaceFirst_colon in Hupdate by assumption.
  fold oldpath newpath in Hupdate.
  destruct (os_Rename_entry oldpath newpath n (record (EvReadDir bundlePath) wc') wu' Hn)
    as (Hnew & Hgone & _).
  { rewrite Hinfo in Hdir. exact (fileInfo_IsDir _ _ Hdir). }
  { exact Hupdate. }
  exists n. repeat split; try assumption.
  pose proof (os_Rename_log oldpath newpath (record (EvReadDir bundlePath) wc')) as Hl.
  rewrite Hupdate in Hl. cbn [snd log record] in Hl.
  now rewrite Hl, <- app_assoc.
Qed.

(** A build-only layer on the cache-miss path: once its commands have
    run, the tree is snapshotted under the layer's name and the cache is
    given the empty descriptor; no call goes to the OCI layout. *)
Lemma buildMiss_build_only
    (c : types.StackerConfig) (flags : BuildFlags) (name : string) (l : types.Layer)
    (importDir : string) (w w' : World) :
  types.BuildOnly l = true ->
  buildMiss c flags name l importDir w = (Ok tt, w') ->
  log w' = log (runLayer c flags name l w).2 ++
           [EvExt (StorageDelete name); EvExt (StorageSnapshot ".working" name);
            EvPrint ("build only layer, skipping OCI diff generation" +:+ nl);
            EvExt (CachePut l importDir ispec.empty)].
Proof.
  intros Honly Hrun. unfold buildMiss in Hrun. rewrite Honly in Hrun.
  apply bind_Ok_inv in Hrun as ([] & wr & Hprefix & Hrun).
  rewrite Hprefix. cbn [snd]. unfold snapshotBuildOnly in Hrun.
  do 5 inv_bind Hrun. apply check_Ok_inv in Hrun as [_ ->].
  repeat match goal with Hl : log _ = _ |- _ => rewrite Hl; clear Hl end.
  now rewrite <- !app_assoc.
Qed.

End BuildProofs.

(** [C4] A build-only layer built twice.  The first pass finds no cache
    entry: it points no reference at anything and puts the empty descriptor
    in the cache.  The second pass finds that entry, and calls
    [UpdateReference] for the layer with the empty descriptor. *)
Theorem buildLayer_build_only_cache_hit :
  let first := buildLayer Ref.cfg Ref.flags "builder" Ref.builder (Ref.world Ref.tree) in
  let second := buildLayer Ref.cfg Ref.flags "builder" Ref.builder first.2 in
  types.BuildOnly Ref.builder = true /\
  first.1 = Ok tt /\
  referenceUpdates "builder" (log first.2) = [] /\
  Ref.cached Ref.builder "/s/imports/builder" (log first.2) = Some ispec.empty /\
  second.1 = Ok tt /\
  referenceUpdates "builder" (log second.2) = [ispec.empty].
Proof. vm_compute. repeat split; reflexivity. Qed.

Lemma mergeEnvironment_default_PATH_witness :
  mergeEnvironment (Ref.declare [("FOO", "bar")] None None None false) [] =
  ["FOO=bar"; "PATH=" +:+ ReasonableDefaultPath] /\
  mergeEnvironment (Ref.declare [("PATH", "/bin")] None None None false) [] =
  ["PATH=/bin"] /\
  mergeEnvironment (Ref.declare [("FOO", "bar")] None None None false) ["PATH=/usr/bin"] =
  ["PATH=/usr/bin"; "FOO=bar"].
Proof.
  split; [|split].
  - apply (proj2 (mergeEnvironment_default_PATH
                    (Ref.declare [("FOO", "bar")] None None None false) [])).
    reflexivity.
  - apply (proj2 (mergeEnvironment_default_PATH
                    (Ref.declare [("PATH", "/bin")] None None None false) [])).
    reflexivity.
  - apply (proj2 (mergeEnvironment_default_PATH
                    (Ref.declare [("FOO", "bar")] None None None false) ["PATH=/usr/bin"])).
    reflexivity.
Defined.

(** A declared key [PATH=x], which is not the name of a variable: its
    entry [PATH=x=y] starts with [PATH=], is found by the scan of the merged
    list and stands for the [PATH] entry, so no default is appended. *)
Lemma mergeEnvironment_key_with_equals :
  let l := Ref.declare [("PATH=x", "y")] None None None false in
  hasEquals "PATH=x" = true /\
  existsb (fun s => HasPrefix s "PATH=") (mergeEnvironment l []) = true /\
  mergeEnvironment l [] = ["PATH=x=y"].
Proof. vm_compute. repeat split; reflexivity. Qed.

Lemma editConfig_commands_witness :
  let l := Ref.declare [] (Some (types.RawString "top")) None
                       (Some (types.RawList ["/bin/sh"; "-c"])) false in
  let l' := Ref.declare [] (Some (types.RawString "top")) None None false in
  let inherited :=
    {| ispec.Env := []; ispec.Cmd := Some ["bash"]; ispec.Entrypoint := Some ["/init"];
       ispec.Volumes := None; ispec.Labels := None; ispec.WorkingDir := "" |} in
  (exists cfg, editConfig l inherited = Ok cfg /\
               ispec.Cmd cfg = None /\
               ispec.Entrypoint cfg = Some ["/bin/sh"; "-c"]) /\
  (exists cfg, editConfig l' inherited = Ok cfg /\
               ispec.Cmd cfg = Some ["top"] /\
               ispec.Entrypoint cfg = Some ["/init"]).
Proof.
  intros l l' inherited. split.
  - apply (proj1 (editConfig_commands l inherited) (types.RawList ["/bin/sh"; "-c"]));
      [reflexivity | reflexivity | intros _; eexists; reflexivity | intros []; reflexivity].
  - apply (proj2 (editConfig_commands l' inherited)); reflexivity.
Defined.

Lemma buildLayer_cache_hit_witness :
  let w := (buildLayer Ref.cfg Ref.flags "app" Ref.app (Ref.world Ref.tree)).2 in
  let w1 := (Import Ref.cfg "app" []
               (record (EvPrint ("importing files..." +:+ nl))
                  (record (EvPrint ("building image " +:+ "app" +:+ "..." +:+ nl)) w))).2 in
  exists (r : outcome unit) (w' : World),
    buildLayer Ref.cfg Ref.flags "app" Ref.app w = (r, w') /\
    log w' = log w1 ++ [EvExt (CacheLookup Ref.app (path_Join ["/s"; "imports"; "app"]));
                        EvPrint ("found cached layer " +:+ "app" +:+ nl);
                        EvExt (UpdateReference "app" Ref.image)].
Proof.
  intros w w1.
  apply (buildLayer_cache_hit Ref.cfg Ref.flags "app" Ref.app w w1 [] Ref.image);
    vm_compute; reflexivity.
Defined.

Lemma updateBundleMtree_none_or_first_witness :
  let root := "/roots/.working" in
  let infos := [fileInfo "rootfs" (Dir 493);
                fileInfo "sha256_0a1b.mtree" (File 420 []);
                fileInfo "sha256_9e9e.mtree" (File 420 [x31])] in
  let oldpath := "/roots/.working/sha256_0a1b.mtree" in
  let newpath := "/roots/.working/sha256_4f6c.mtree" in
  (ioutil_ReadDir root (Ref.world Ref.stale)).1 = Ok infos /\
  (exists w' : World,
     updateBundleMtree root Ref.image (Ref.world Ref.stale) = (Ok tt, w') /\
     log w' = [EvReadDir root; EvRename oldpath newpath] /\
     files w' !! newpath = Some (File 420 []) /\
     files w' !! oldpath = None /\
     files w' !! "/roots/.working/sha256_9e9e.mtree" = Some (File 420 [x31])) /\
  updateBundleMtree "/src" Ref.image (Ref.world Ref.disk) =
    (Ok tt, record (EvReadDir "/src") (Ref.world Ref.disk)).
Proof.
  intros root infos oldpath newpath.
  assert (Hread : (ioutil_ReadDir root (Ref.world Ref.stale)).1 = Ok infos)
    by (vm_compute; reflexivity).
  split; [exact Hread|]. split.
  - destruct (proj2 (updateBundleMtree_none_or_first root Ref.image _ infos Hread)
                [fileInfo "rootfs" (Dir 493)]
                [fileInfo "sha256_9e9e.mtree" (File 420 [x31])]
                (fileInfo "sha256_0a1b.mtree" (File 420 [])))
      as (r & w' & n & Hrun & Hlog & Hold & _ & Hok & _ & Hmove).
    + reflexivity.
    + repeat constructor.
    + reflexivity.
    + assert (Hr : r = Ok tt).
      { apply Hok; [reflexivity | vm_compute; reflexivity |].
        intros perm. vm_compute. discriminate. }
      subst r.
      destruct (Hmove eq_refl eq_refl) as (Hnew & Hgone & Hkeep & _).
      vm_compute in Hold. injection Hold as <-.
      exists w'. split; [exact Hrun|]. split; [exact Hlog|].
      split; [exact Hnew|]. split; [apply Hgone; discriminate|].
      rewrite Hkeep by discriminate. vm_compute. reflexivity.
  - assert (Hsrc : (ioutil_ReadDir "/src" (Ref.world Ref.disk)).1 =
                    Ok [fileInfo "data.txt" (File 420 Ref.hello)])
      by (vm_compute; reflexivity).
    apply (proj1 (updateBundleMtree_none_or_first "/src" Ref.image (Ref.world Ref.disk)
                    [fileInfo "data.txt" (File 420 Ref.hello)] Hsrc)).
    repeat constructor.
Defined.

(** Two manifests, of which the second already has the new name: the
    rename of the first replaces it, and the bytes it held are gone. *)
Lemma updateBundleMtree_none_or_first_counterexample :
  let root := "/roots/.working" in
  let second := "/roots/.working/sha256_9e9e.mtree" in
  let run := updateBundleMtree root Cases.newest (Ref.world Ref.stale) in
  (ioutil_ReadDir root (Ref.world Ref.stale)).1 =
    Ok [fileInfo "rootfs" (Dir 493);
        fileInfo "sha256_0a1b.mtree" (File 420 []);
        fileInfo "sha256_9e9e.mtree" (File 420 [x31])] /\
  run.1 = Ok tt /\
  log run.2 = [EvReadDir root; EvRename "/roots/.working/sha256_0a1b.mtree" second] /\
  Ref.stale !! second = Some (File 420 [x31]) /\
  files run.2 !! second = Some (File 420 []) /\
  files run.2 !! second <> Ref.stale !! second.
Proof. vm_compute. repeat split; try reflexivity. discriminate. Qed.

Lemma buildMiss_refreshes_bundle_witness :
  let w := Ref.world Ref.tree in
  let wc := (commitLayer Ref.cfg "app" Ref.app (runLayer Ref.cfg Ref.flags "app" Ref.app w).2).2 in
  let wu := (updateBundleMtree "/roots/.working" Ref.image wc).2 in
  (buildMiss Ref.cfg Ref.flags "app" Ref.app "/s/imports/app" w).1 = Ok tt /\
  files wc !! "/roots/.working/sha256_0a1b.mtree" = Some (File 420 []) /\
  files wu !! "/roots/.working/sha256_4f6c.mtree" = Some (File 420 []) /\
  files wu !! "/roots/.working/sha256_0a1b.mtree" = None.
Proof.
  intros w wc wu.
  destruct (buildMiss_refreshes_bundle Ref.cfg Ref.flags "app" Ref.app "/s/imports/app" w
              (buildMiss Ref.cfg Ref.flags "app" Ref.app "/s/imports/app" w).2)
    as (newPath & Hcommit & _ & _ & _ & _ & Hsingle).
  { reflexivity. }
  { vm_compute. reflexivity. }
  vm_compute in Hcommit. injection Hcommit as <-.
  destruct (Hsingle [fileInfo "rootfs" (Dir 493); fileInfo "sha256_0a1b.mtree" (File 420 [])]
                    (fileInfo "sha256_0a1b.mtree" (File 420 [])) "sha256" "4f6c")
    as (n & Hold & Hnew & Hgone & _).
  { vm_compute. reflexivity. }
  { reflexivity. }
  { reflexivity. }
  { reflexivity. }
  { cbn. intros [E|[E|[E|[E|[E|[E|[]]]]]]]; discriminate E. }
  vm_compute in Hold. injection Hold as <-.
  split; [vm_compute; reflexivity|].
  split; [vm_compute; reflexivity|].
  split; [exact Hnew|].
  apply Hgone. discriminate.
Defined.

(** ** What the code never does *)

Section Effects.

Context `{GoEnv}.

Lemma emits_ret {A : Type} (P : Event -> Prop) (a : A) : emits P (mret a).
Proof. intros w. exists []. split; [now rewrite app_nil_r | constructor]. Qed.

Lemma emits_fail {A : Type} (P : Event -> Prop) (e : error) : emits P (@fail A e).
Proof. intros w. exists []. split; [now rewrite app_nil_r | constructor]. Qed.

Lemma emits_bind {A B : Type} (P : Event -> Prop) (m : M A) (k : A -> M B) :
  emits P m -> (forall a, emits P (k a)) -> emits P (m ≫= k).
Proof.
  intros Hm Hk w. destruct (Hm w) as (evs1 & Hlog1 & HP1).
  unfold mbind, M_bind. destruct (m w) as [[a|e] w1]; cbn [snd] in *.
  - destruct (Hk a w1) as (evs2 & Hlog2 & HP2).
    exists (evs1 ++ evs2). split.
    + now rewrite Hlog2, Hlog1, app_assoc.
    + now apply Forall_app.
  - eauto.
Qed.

Lemma emits_mono {A : Type} (P Q : Event -> Prop) (m : M A) :
  (forall ev, P ev -> Q ev) -> emits P m -> emits Q m.
Proof.
  intros HPQ Hm w. destruct (Hm w) as (evs & Hlog & HP).
  exists evs. split; [exact Hlog|]. eapply Forall_impl; eauto.
Qed.

(** A call that logs one event, whatever it answers. *)
Lemma emits_one {A : Type} (P : Event -> Prop) (m : M A) (ev : Event) :
  (forall w, log (m w).2 = log w ++ [ev]) -> P ev -> emits P m.
Proof. intros Hlog HP w. exists [ev]. split; [apply Hlog | now constructor]. Qed.

Lemma emits_call {R : Type} (P : Event -> Prop) (e : ExtE R) :
  P (EvExt e) -> emits P (call e).
Proof. apply emits_one. intros w. now rewrite call_run. Qed.

Lemma emits_print (P : Event -> Prop) (s : string) :
  P (EvPrint s) -> emits P (fmt_Print s).
Proof. now apply emits_one. Qed.

Lemma emits_check (P : Event -> Prop) (o : option error) : emits P (check o).
Proof. destruct o; [apply emits_fail | apply emits_ret]. Qed.

Lemma emits_try {A : Type} (P : Event -> Prop) (o : outcome A) : emits P (try o).
Proof. destruct o; [apply emits_ret | apply emits_fail]. Qed.

Lemma emits_attempt {A : Type} (P : Event -> Prop) (m : M A) :
  emits P m -> emits P (attempt m).
Proof.
  intros Hm w. destruct (Hm w) as (evs & Hlog & HP). exists evs.
  unfold attempt. destruct (m w). eauto.
Qed.

Lemma os_Stat_log (p : string) (w : World) :
  log (os_Stat p w).2 = log w ++ [EvStat p].
Proof. unfold os_Stat. now destruct (resolve (files w) p). Qed.

Lemma os_Readlink_log (p : string) (w : World) :
  log (os_Readlink p w).2 = log w ++ [EvReadlink p].
Proof. unfold os_Readlink. now destruct (files w !! p) as [[| |]|]. Qed.

Lemma os_Open_log (p : string) (w : World) :
  log (os_Open p w).2 = log w ++ [EvOpen p].
Proof. unfold os_Open. now destruct (resolve (files w) p). Qed.

Lemma readAll_log (f : os.File) (w : World) :
  log (readAll f w).2 = log w ++ [EvRead (os.Resolved f)].
Proof. unfold readAll. now destruct (files w !! os.Resolved f) as [[| |]|]. Qed.

Lemma os_Create_log (p : string) (w : World) :
  log (os_Create p w).2 = log w ++ [EvCreate p].
Proof.
  unfold os_Create. destruct (resolve (files w) p) as [q [| |]|q|]; try reflexivity.
  now destruct (negb (String.eqb q "") && isDirAt (files w) (path_Dir q)).
Qed.

Lemma File_Chmod_log (f : os.File) (mode : N) (w : World) :
  log (File_Chmod f mode w).2 = log w ++ [EvChmod (os.Resolved f) mode].
Proof. unfold File_Chmod. now destruct (files w !! os.Resolved f) as [[| |]|]. Qed.

Lemma io_Copy_log (d s : os.File) (w : World) :
  log (io_Copy d s w).2 = log w ++ [EvCopy (os.Resolved d) (os.Resolved s)].
Proof.
  unfold io_Copy.
  destruct (files w !! os.Resolved s) as [[| |]|];
    destruct (files w !! os.Resolved d) as [[| |]|]; reflexivity.
Qed.

Lemma emits_File_Stat (P : Event -> Prop) (f : os.File) : emits P (File_Stat f).
Proof.
  intros w. exists []. rewrite app_nil_r. split; [|constructor].
  unfold File_Stat. now destruct (files w !! os.Resolved f).
Qed.

Lemma emits_CompareReader (P : Event -> Prop) (f1 f2 : os.File) :
  (forall p, P (EvRead p)) -> emits P (CompareReader f1 f2).
Proof.
  intros HP. unfold CompareReader.
  apply emits_bind; [eapply emits_one; [apply readAll_log | apply HP]|]. intros b1.
  apply emits_bind; [eapply emits_one; [apply readAll_log | apply HP]|]. intros b2.
  apply emits_ret.
Qed.

Lemma emits_filesDiffer (P : Event -> Prop) (p1 p2 : string) (info1 info2 : os.FileInfo) :
  (forall ev, readEvent ev -> P ev) ->
  emits P (filesDiffer p1 info1 p2 info2).
Proof.
  intros HP. unfold filesDiffer.
  destruct (negb (String.eqb (os.Name info1) (os.Name info2))); [apply emits_fail|].
  destruct (isSymlink info1).
  - destruct (isSymlink info2); [|apply emits_fail].
    apply emits_bind; [eapply emits_one; [apply os_Readlink_log | now apply HP]|]. intros l1.
    apply emits_bind; [eapply emits_one; [apply os_Readlink_log | now apply HP]|]. intros l2.
    apply emits_ret.
  - destruct (negb (os.Size info1 =? os.Size info2)%Z); [apply emits_ret|].
    apply emits_bind; [eapply emits_one; [apply os_Open_log | now apply HP]|]. intros f1.
    apply emits_bind; [eapply emits_one; [apply os_Open_log | now apply HP]|]. intros f2.
    apply emits_bind; [apply emits_CompareReader; intros p; now apply HP|]. intros eq.
    apply emits_ret.
Qed.

Lemma keeps_ret {A : Type} (a : A) : keeps (mret a).
Proof. now intros w. Qed.

Lemma keeps_fail {A : Type} (e : error) : keeps (@fail A e).
Proof. now intros w. Qed.

Lemma keeps_bind {A B : Type} (m : M A) (k : A -> M B) :
  keeps m -> (forall a, keeps (k a)) -> keeps (m ≫= k).
Proof.
  intros Hm Hk w. destruct (Hm w) as [Hf Hu].
  unfold mbind, M_bind. destruct (m w) as [[a|e] w1]; cbn [snd] in *.
  - destruct (Hk a w1) as [Hf' Hu']. split; congruence.
  - now split.
Qed.

Lemma keeps_os_Readlink (p : string) : keeps (os_Readlink p).
Proof. intros w. unfold os_Readlink. now destruct (files w !! p) as [[| |]|]. Qed.

Lemma keeps_os_Open (p : string) : keeps (os_Open p).
Proof. intros w. unfold os_Open. now destruct (resolve (files w) p). Qed.

Lemma keeps_readAll (f : os.File) : keeps (readAll f).
Proof. intros w. unfold readAll. now destruct (files w !! os.Resolved f) as [[| |]|]. Qed.

(** The comparator only looks: whatever it is handed and whatever it
    answers, the file system and the umask are what they were, and all it
    adds to the log are [Readlink], [Open] and read events. *)
Theorem filesDiffer_only_reads (p1 p2 : string) (info1 info2 : os.FileInfo) :
  keeps (filesDiffer p1 info1 p2 info2) /\
  emits readEvent (filesDiffer p1 info1 p2 info2).
Proof.
  split; [|now apply emits_filesDiffer].
  unfold filesDiffer.
  destruct (negb (String.eqb (os.Name info1) (os.Name info2))); [apply keeps_fail|].
  destruct (isSymlink info1).
  - destruct (isSymlink info2); [|apply keeps_fail].
    apply keeps_bind; [apply keeps_os_Readlink|]. intros l1.
    apply keeps_bind; [apply keeps_os_Readlink|]. intros l2.
    apply keeps_ret.
  - destruct (negb (os.Size info1 =? os.Size info2)%Z); [apply keeps_ret|].
    apply keeps_bind; [apply keeps_os_Open|]. intros f1.
    apply keeps_bind; [apply keeps_os_Open|]. intros f2.
    apply keeps_bind; [|intros; apply keeps_ret].
    unfold CompareReader.
    apply keeps_bind; [apply keeps_readAll|]. intros b1.
    apply keeps_bind; [apply keeps_readAll|]. intros b2.
    apply keeps_ret.
Qed.

Lemma emits_fileCopy (P : Event -> Prop) (dest source : string) :
  (forall ev, importEvent ev -> P ev) ->
  emits P (fileCopy dest source).
Proof.
  intros HP. unfold fileCopy.
  apply emits_bind; [eapply emits_one; [apply os_Open_log | now apply HP]|]. intros s.
  apply emits_bind; [apply emits_File_Stat|]. intros fi.
  apply emits_bind; [eapply emits_one; [apply os_Create_log | now apply HP]|]. intros d.
  apply emits_bind; [eapply emits_one; [apply File_Chmod_log | now apply HP]|]. intros _.
  apply emits_bind; [eapply emits_one; [apply io_Copy_log | now apply HP]|]. intros _.
  apply emits_ret.
Qed.

Lemma emits_importFile (imp cacheDir : string) :
  emits importEvent (importFile imp cacheDir).
Proof.
  unfold importFile.
  apply emits_bind; [eapply emits_one; [apply os_Stat_log | exact I]|]. intros e1.
  destruct (os.IsDir e1).
  - apply emits_bind; [now apply emits_call|]. intros rsync.
    apply emits_bind; [now apply emits_call|]. intros r.
    destruct r.2; [apply emits_fail | apply emits_ret].
  - apply emits_bind.
    { apply emits_attempt. eapply emits_one; [apply os_Stat_log | exact I]. }
    intros r2.
    apply emits_bind.
    { destruct r2 as [e2|]; [|apply emits_ret].
      apply emits_filesDiffer. now intros [ ]. }
    intros needsCopy.
    apply emits_bind; [|intros; apply emits_ret].
    destruct needsCopy.
    + apply emits_bind; [now apply emits_print|]. intros _.
      now apply emits_fileCopy.
    + now apply emits_print.
Qed.

Lemma emits_acquireUrl (c : types.StackerConfig) (i cache : string) :
  emits importEvent (acquireUrl c i cache).
Proof.
  unfold acquireUrl.
  apply emits_bind; [apply emits_try|]. intros url.
  destruct (String.eqb (Scheme url) ""); [apply emits_importFile|].
  destruct (String.eqb (Scheme url) "http" || String.eqb (Scheme url) "https").
  - apply emits_bind; [now apply emits_call|]. intros r. apply emits_try.
  - destruct (String.eqb (Scheme url) "stacker");
      [apply emits_importFile | apply emits_fail].
Qed.

Lemma emits_importEach (P : Event -> Prop) (c : types.StackerConfig) (dir : string)
                       (imports : list string) :
  (forall ev, importEvent ev -> P ev) ->
  emits P (importEach c dir imports).
Proof.
  intros HP. apply (emits_mono importEvent); [exact HP|].
  induction imports as [|i rest IH]; cbn [importEach]; [apply emits_ret|].
  apply emits_bind; [apply emits_acquireUrl|]. intros _. exact IH.
Qed.

(** The import resolver stays within its means: whatever the import list
    and whatever the outcome, every event it logs is a file system call on
    a single file, a note, or a call to [MkdirAll], [haveRsync], the copy
    tool or [download].  It lists and renames nothing and never calls the
    storage, the cache or the OCI layout. *)
Theorem Import_events (c : types.StackerConfig) (name : string) (imports : list string) :
  emits importEvent (Import c name imports).
Proof.
  unfold Import.
  apply emits_bind; [now apply emits_call|]. intros err.
  apply emits_bind; [apply emits_check|]. intros _.
  now apply emits_importEach.
Qed.

Lemma emits_prepareTree (P : Event -> Prop) (c : types.StackerConfig) (name : string)
                        (l : types.Layer) :
  (forall ev, buildOnlyEvent ev -> P ev) ->
  emits P (prepareTree c name l).
Proof.
  intros HP. unfold prepareTree.
  apply emits_bind; [apply emits_call; now apply HP|]. intros _.
  destruct (types.Type_ (types.From l)).
  - apply emits_bind; [apply emits_call; now apply HP|]. intros err.
    apply emits_bind; [apply emits_check|]. intros _.
    apply emits_bind; [apply emits_call; now apply HP|]. intros err'.
    apply emits_check.
  - apply emits_bind; [apply emits_call; now apply HP|]. intros err.
    apply emits_bind; [apply emits_check|]. intros _.
    apply emits_bind; [apply emits_call; now apply HP|]. intros err'.
    apply emits_check.
  - apply emits_bind; [apply emits_call; now apply HP|]. intros err.
    apply emits_check.
Qed.

Lemma emits_runLayer (P : Event -> Prop) (c : types.StackerConfig) (flags : BuildFlags)
                     (name : string) (l : types.Layer) :
  (forall ev, buildOnlyEvent ev -> P ev) ->
  emits P (runLayer c flags name l).
Proof.
  intros HP. unfold runLayer.
  apply emits_bind; [now apply emits_prepareTree|]. intros _.
  apply emits_bind; [apply emits_print; now apply HP|]. intros _.
  apply emits_bind; [apply emits_call; now apply HP|]. intros err.
  apply emits_check.
Qed.

Lemma emits_snapshotBuildOnly (P : Event -> Prop) (name : string) (l : types.Layer)
                              (importDir : string) :
  (forall ev, buildOnlyEvent ev -> P ev) ->
  emits P (snapshotBuildOnly name l importDir).
Proof.
  intros HP. unfold snapshotBuildOnly.
  apply emits_bind; [apply emits_call; now apply HP|]. intros _.
  apply emits_bind; [apply emits_call; now apply HP|]. intros err.
  apply emits_bind; [apply emits_check|]. intros _.
  apply emits_bind; [apply emits_print; now apply HP|]. intros _.
  apply emits_bind; [apply emits_call; now apply HP|]. intros err'.
  apply emits_check.
Qed.

(** A build-only layer that is not in the cache: whether its pass succeeds
    or fails, and wherever it fails, the pass calls only the storage, the
    base layer and the commands, and any cache entry it writes carries the
    empty descriptor.  Nothing is repacked, no mutator is opened, no
    reference is updated and no bundle file is renamed. *)
Theorem buildMiss_build_only_events
    (c : types.StackerConfig) (flags : BuildFlags) (name : string) (l : types.Layer)
    (importDir : string) :
  types.BuildOnly l = true ->
  emits buildOnlyEvent (buildMiss c flags name l importDir).
Proof.
  intros Honly. unfold buildMiss. rewrite Honly.
  apply emits_bind; [now apply emits_runLayer|]. intros _.
  now apply emits_snapshotBuildOnly.
Qed.

End Effects.

(** ** More of [import.go] *)

Section ImportFacts.

Context `{GoEnv}.

(** Two symbolic links are the same exactly when their targets are the
    same string.  Only the two links are read: no target is resolved, opened
    or required to exist. *)
Theorem filesDiffer_two_symlinks
    (w : World) (p1 p2 t1 t2 : string) (info1 info2 : os.FileInfo) :
  os.Name info1 = os.Name info2 ->
  isSymlink info1 = true ->
  isSymlink info2 = true ->
  files w !! p1 = Some (Symlink t1) ->
  files w !! p2 = Some (Symlink t2) ->
  exists (differs : bool) (w' : World),
    filesDiffer p1 info1 p2 info2 w = (Ok differs, w') /\
    (differs = false <-> t1 = t2) /\
    files w' = files w /\
    log w' = log w ++ [EvReadlink p1; EvReadlink p2].
Proof.
  intros Hname Hs1 Hs2 Hp1 Hp2.
  rewrite (filesDiffer_symlinks w p1 p2 t1 t2 info1 info2) by assumption.
  eexists _, _. split; [reflexivity|]. split; [|split].
  - rewrite negb_false_iff. apply String.eqb_eq.
  - reflexivity.
  - cbn [log record]. now rewrite <- app_assoc.
Qed.

(** A link whose info says "symbolic link" but whose path holds something
    else, or nothing: the [Readlink] error is returned, and the comparator
    does not fall back to comparing contents. *)
Theorem filesDiffer_stale_symlink
    (w : World) (p1 p2 : string) (info1 info2 : os.FileInfo) :
  os.Name info1 = os.Name info2 ->
  isSymlink info1 = true ->
  isSymlink info2 = true ->
  (forall t, files w !! p1 <> Some (Symlink t)) ->
  exists e : error,
    filesDiffer p1 info1 p2 info2 w = (Err e, record (EvReadlink p1) w).
Proof.
  intros Hname Hs1 Hs2 Hp1. unfold filesDiffer.
  rewrite Hname, String.eqb_refl, Hs1, Hs2. cbn [negb].
  unfold mbind, M_bind, os_Readlink.
  destruct (files w !! p1) as [[| t |]|] eqn:E; eauto.
  exfalso. now apply (Hp1 t).
Qed.

(** [fileCopy] on a regular source and a destination that can be written
    and is another file: four calls (open, create, chmod, copy), after which
    the destination's resolved path holds the source's bytes under the
    source's permission bits and every other path is as before. *)
Theorem fileCopy_copies (w : World) (dest source q q' : string) (m : N) (d : list byte) :
  resolve (files w) source = Found q (File m d) ->
  target (files w) dest = Some q' ->
  writable (files w) dest = true ->
  q <> q' ->
  exists w' : World,
    fileCopy dest source w = (Ok tt, w') /\
    files w' !! q' = Some (File (N.land m ModePerm) d) /\
    (forall k, k <> q' -> files w' !! k = files w !! k) /\
    log w' = log w ++ [EvOpen source; EvCreate dest;
                       EvChmod q' (N.land m ModePerm); EvCopy q' q].
Proof.
  intros Hsrc Htarget Hw Hne.
  erewrite (fileCopy_run w dest source q q' m d); try eassumption.
  - eexists. split; [reflexivity|]. cbn [files log].
    split; [apply lookup_insert_eq|]. split; [|reflexivity].
    intros k Hk. now rewrite lookup_insert_ne by congruence.
  - unfold target in Htarget. unfold writable in Hw.
    destruct (resolve (files w) dest) as [p [| |]|p|]; try discriminate;
      injection Htarget as ->; eauto.
Qed.

(** [fileCopy] of a file onto itself empties it: [os.Create] truncates the
    file that [os.Open] has just opened, and the copy then finds nothing to
    read.  The call still returns nil. *)
Theorem fileCopy_onto_itself (w : World) (dest source q : string) (m : N) (d : list byte) :
  resolve (files w) source = Found q (File m d) ->
  resolve (files w) dest = Found q (File m d) ->
  exists w' : World,
    fileCopy dest source w = (Ok tt, w') /\
    files w' = <[q := File (N.land m ModePerm) []]> (files w).
Proof.
  intros Hsrc Hdst.
  destruct (resolve_Found _ _ _ _ Hsrc) as [Hq _].
  unfold fileCopy. step os_Open_Found. step File_Stat_Some.
  cbn [os.Mode fileInfo].
  erewrite bind_Ok by (eapply os_Create_truncate; eassumption).
  erewrite bind_Ok.
  2:{ eapply File_Chmod_File. cbn [os.Resolved files withFiles record].
      apply lookup_insert_eq. }
  erewrite bind_Ok.
  2:{ eapply io_Copy_Files; cbn [os.Resolved files withFiles record];
        apply lookup_insert_eq. }
  eexists. split; [reflexivity|].
  cbn [files withFiles record os.Resolved].
  now rewrite !insert_insert_eq, land_perm_twice.
Qed.

(** [fileCopy] fails without touching a file when the source does not
    resolve, or when it resolves but the destination cannot be written (it
    is a directory, its directory is missing, or its links loop). *)
Theorem fileCopy_fails_cleanly (w : World) (dest source : string) :
  (forall q n, resolve (files w) source <> Found q n) \/
  writable (files w) dest = false ->
  exists (e : error) (w' : World),
    fileCopy dest source w = (Err e, w') /\ files w' = files w.
Proof.
  intros Hcase. unfold fileCopy.
  destruct (resolve (files w) source) as [q n|q|] eqn:Hsrc.
  - destruct Hcase as [Hno|Hw]; [exfalso; now apply (Hno q n)|].
    destruct (resolve_Found _ _ _ _ Hsrc) as [Hq _].
    step os_Open_Found. step File_Stat_Some.
    unfold mbind at 1, M_bind at 1, os_Create. cbn [files record].
    unfold writable in Hw.
    destruct (resolve (files w) dest) as [q' [| |]|q'|]; try discriminate; eauto.
    rewrite Hw. eauto.
  - unfold mbind at 1, M_bind at 1, os_Open. rewrite Hsrc. eauto.
  - unfold mbind at 1, M_bind at 1, os_Open. rewrite Hsrc. eauto.
Qed.

Lemma fileInfo_Dir_IsDir (name : string) (perm : N) :
  os.IsDir (fileInfo name (Dir perm)) = true.
Proof.
  unfold os.IsDir, fileInfo. cbn [os.Mode].
  apply negb_true_iff, N.eqb_neq.
  rewrite N.land_lor_distr_l, N.land_diag. intros Hz.
  apply N.lor_eq_0_iff in Hz as [Hz _]. discriminate Hz.
Qed.

Lemma tool_answer (r : string * option error) (dest : string) (w : World) :
  (match r.2 with
   | Some _ => fail r.1
   | None => mret dest
   end) w =
  (match r.2 with
   | Some _ => Err r.1
   | None => Ok dest
   end, w).
Proof. now destruct r as [output [e|]]. Qed.

(** Where [importFile] puts a single file, and what it leaves alone. *)
Lemma importFile_result
    (w0 : World) (imp cacheDir q : string) (m : N) (d : list byte) :
  let dest := path_Join [cacheDir; path_Base imp] in
  resolve (files w0) imp = Found q (File m d) ->
  path_Base dest = path_Base imp ->
  writable (files w0) dest = true ->
  exists (w1 : World) (q' : string) (m1 : N),
    target (files w0) dest = Some q' /\
    (forall t, files w0 !! q' <> Some (Symlink t)) /\
    importFile imp cacheDir w0 = (Ok dest, w1) /\
    (files w1 = files w0 \/ q <> q' /\ files w1 = <[q' := File m1 d]> (files w0)) /\
    resolve (files w1) dest = Found q' (File m1 d).
Proof.
  intros dest Hsrc Hbase Hw.
  pose proof Hw as Hw'. unfold writable in Hw'. unfold target.
  destruct (resolve (files w0) dest) as [q' [m' d'| |]|q'|] eqn:Hdst; try discriminate.
  - destruct (resolve_Found _ _ _ _ Hdst) as [Hq' _].
    destruct (decide (d' = d)) as [->|Hd].
    + eexists _, q', m'. split; [reflexivity|]. split; [congruence|]. split.
      { apply (importFile_cached w0 imp cacheDir q q' m m' d Hsrc Hdst Hbase). }
      cbn [files]. split; [now left | exact Hdst].
    + destruct (importFile_copy w0 imp cacheDir q q' m d Hsrc) as (Hne & w1 & Hrun & Hfs & _);
        [right; eauto | exact Hw | exact Hbase |].
      exists w1, q', (N.land m ModePerm). split; [reflexivity|]. split; [congruence|].
      split; [exact Hrun|]. split; [right; now split|].
      rewrite Hfs. apply resolve_written; [eauto | discriminate].
  - apply andb_true_iff in Hw' as [Hq' _].
    apply negb_true_iff, String.eqb_neq in Hq'.
    pose proof (resolve_Missing _ _ _ Hdst Hq') as Hnone.
    destruct (importFile_copy w0 imp cacheDir q q' m d Hsrc) as (Hne & w1 & Hrun & Hfs & _);
      [now left | exact Hw | exact Hbase |].
    exists w1, q', (N.land m ModePerm). split; [reflexivity|]. split; [congruence|].
    split; [exact Hrun|]. split; [right; now split|].
    rewrite Hfs. apply resolve_written; [now left | discriminate].
Qed.

(** A single regular file imported into a destination that can be written:
    afterwards the destination resolves to a regular file that holds the
    source's bytes, the source is what it was (also when the destination is a
    link to it), and no path other than the one the destination resolves to
    has changed. *)
Theorem importFile_installs
    (w0 : World) (imp cacheDir q : string) (m : N) (d : list byte) :
  let dest := path_Join [cacheDir; path_Base imp] in
  resolve (files w0) imp = Found q (File m d) ->
  path_Base dest = path_Base imp ->
  writable (files w0) dest = true ->
  exists (w1 : World) (q' : string) (m1 : N),
    importFile imp cacheDir w0 = (Ok dest, w1) /\
    resolve (files w1) dest = Found q' (File m1 d) /\
    resolve (files w1) imp = Found q (File m d) /\
    (forall k, k <> q' -> files w1 !! k = files w0 !! k).
Proof.
  intros dest Hsrc Hbase Hw.
  destruct (importFile_result w0 imp cacheDir q m d Hsrc Hbase Hw)
    as (w1 & q' & m1 & _ & Hlink & Hrun & Hfs & Hdst).
  exists w1, q', m1. split; [exact Hrun|]. split; [exact Hdst|].
  destruct Hfs as [Hfs|[Hne Hfs]]; rewrite Hfs.
  - split; [exact Hsrc | reflexivity].
  - split; [now apply resolve_frame|].
    intros k Hk. now rewrite lookup_insert_ne by congruence.
Qed.

(** Two imports whose sources have the same last element land on the same
    cache path: after both, the cache holds the bytes of the second, and the
    first import's copy is gone.  Nothing reports the collision. *)
Theorem importFile_same_name_overwrites
    (w0 : World) (a b cacheDir qa qb : string) (ma mb : N) (da db : list byte) :
  let dest := path_Join [cacheDir; path_Base a] in
  resolve (files w0) a = Found qa (File ma da) ->
  resolve (files w0) b = Found qb (File mb db) ->
  path_Base b = path_Base a ->
  path_Base dest = path_Base a ->
  writable (files w0) dest = true ->
  target (files w0) dest <> Some qb ->
  exists (w1 w2 : World) (q' : string) (m' : N),
    importFile a cacheDir w0 = (Ok dest, w1) /\
    importFile b cacheDir w1 = (Ok dest, w2) /\
    resolve (files w2) dest = Found q' (File m' db).
Proof.
  intros dest Ha Hb Hab Hbase Hw Hother. subst dest.
  destruct (importFile_result w0 a cacheDir qa ma da Ha Hbase Hw)
    as (w1 & q' & m1 & Htarget & Hlink & Hrun1 & Hfs & Hdst1).
  assert (Hqb : qb <> q') by congruence.
  assert (Hb1 : resolve (files w1) b = Found qb (File mb db)).
  { destruct Hfs as [Hfs|[_ Hfs]]; rewrite Hfs; [exact Hb|].
    now apply resolve_frame. }
  destruct (importFile_result w1 b cacheDir qb mb db Hb1) as
    (w2 & q2 & m2 & _ & _ & Hrun2 & _ & Hdst2).
  { rewrite Hab. congruence. }
  { rewrite Hab. unfold writable. now rewrite Hdst1. }
  rewrite Hab in Hrun2, Hdst2.
  exists w1, w2, q2, m2. auto.
Qed.

(** A cross-layer import [stacker://layer/path] of a regular file: the file
    is taken from [path] under the [rootfs] of [layer] below the roots
    directory, and its bytes end up in the cache under the last element of
    that path. *)
Theorem acquireUrl_cross_layer
    (c : types.StackerConfig) (i cache q : string) (u : URL) (w : World)
    (m : N) (d : list byte) :
  let source := path_Join [types.RootFSDir c; Host u; "rootfs"; Path u] in
  let dest := path_Join [cache; path_Base source] in
  url_Parse i = Ok u ->
  Scheme u = "stacker" ->
  resolve (files w) source = Found q (File m d) ->
  path_Base dest = path_Base source ->
  writable (files w) dest = true ->
  exists (w1 : World) (q' : string) (m1 : N),
    acquireUrl c i cache w = (Ok dest, w1) /\
    resolve (files w1) dest = Found q' (File m1 d).
Proof.
  intros source dest Hparse Hscheme Hsrc Hbase Hw.
  destruct (importFile_result w source cache q m d Hsrc Hbase Hw)
    as (w1 & q' & m1 & _ & _ & Hrun & _ & Hdst).
  exists w1, q', m1. split; [|exact Hdst].
  unfold acquireUrl. rewrite Hparse. cbn [try].
  unfold mbind at 1, M_bind at 1, mret at 1, M_ret at 1. rewrite Hscheme.
  replace (String.eqb "stacker" "") with false by reflexivity.
  replace (String.eqb "stacker" "http" || String.eqb "stacker" "https") with false
    by reflexivity.
  replace (String.eqb "stacker" "stacker") with true by reflexivity.
  exact Hrun.
Qed.

(** [Import] needs its directory: when [MkdirAll] fails, its error is
    returned at once and not one import is attempted, however long the list
    is. *)
Theorem Import_needs_directory
    (c : types.StackerConfig) (name : string) (imports : list string) (w : World)
    (e : error) :
  let dir := path_Join [types.StackerDir c; "imports"; name] in
  (extern _ (MkdirAll dir 493) w).1 = Some e ->
  exists w' : World,
    Import c name imports w = (Err e, w') /\
    log w' = log w ++ [EvExt (MkdirAll dir 493)].
Proof.
  intros dir Hmk. unfold Import. fold dir.
  rewrite (bind_Ok _ _ _ _ _ (call_run _ _)). rewrite Hmk.
  eexists. split; reflexivity.
Qed.

End ImportFacts.

(** ** More of [stacker/build.go] *)

Section Suffix.

#[local] Arguments String.append : simpl nomatch.





End Suffix.

Section BuildFacts.

Context `{GoEnv}.

(** A working tree that cannot be listed (its path is missing or is not a
    directory): [updateBundleMtree] returns the listing's error and attempts
    no rename. *)
Theorem updateBundleMtree_unreadable (root : string) (d : ispec.Descriptor) (w : World) :
  (forall perm, files w !! root <> Some (Dir perm)) ->
  exists e : error,
    updateBundleMtree root d w = (Err e, record (EvReadDir root) w).
Proof.
  intros Hroot. unfold updateBundleMtree, mbind, M_bind, ioutil_ReadDir.
  destruct (files w !! root) as [[| |perm]|] eqn:E; eauto.
  exfalso. now apply (Hroot perm).
Qed.


(** The merged environment always has a [PATH] entry, whatever is declared
    and whatever is inherited. *)
Theorem mergeEnvironment_has_PATH (l : types.Layer) (env : list string) :
  existsb (fun s => HasPrefix s "PATH=") (mergeEnvironment l env) = true.
Proof.
  unfold mergeEnvironment. rewrite appendEnvironment_spec. cbn [fst snd orb].
  destruct (existsb (fun kv => String.eqb kv.1 "PATH") (types.Environment l)) eqn:E.
  - rewrite List.existsb_app, existsb_entries, (existsb_named _ E).
    apply orb_true_r.
  - destruct (existsb _ (env ++ _)) eqn:Escan; [exact Escan|].
    rewrite List.existsb_app, Escan. cbn [existsb orb].
    change ("PATH=" +:+ ReasonableDefaultPath)
      with ("PATH" +:+ "=" +:+ ReasonableDefaultPath).
    now rewrite PATH_entry.
Qed.

(** The other fields of the edited configuration: the declared volumes are
    added to the inherited ones, a declared label replaces the inherited
    label of the same key and the other labels stay, neither map is nil
    afterwards, and the working directory changes only when a non-empty one
    is declared. *)
Theorem editConfig_fields (l : types.Layer) (imageConfig cfg : ispec.ImageConfig) :
  editConfig l imageConfig = Ok cfg ->
  (exists vols : gset string,
     ispec.Volumes cfg = Some vols /\
     forall v, v ∈ vols <->
               v ∈ default ∅ (ispec.Volumes imageConfig) \/ v ∈ types.Volumes l) /\
  (exists labels : gmap string string,
     ispec.Labels cfg = Some labels /\
     forall k, labels !! k =
               match types.Labels l !! k with
               | Some v => Some v
               | None => default ∅ (ispec.Labels imageConfig) !! k
               end) /\
  ispec.WorkingDir cfg =
    (if String.eqb (types.WorkingDir l) "" then ispec.WorkingDir imageConfig
     else types.WorkingDir l).
Proof.
  unfold editConfig. unfold mbind, outcome_bind.
  destruct (mergeCommands l _ _) as [ce|e]; [|discriminate].
  intros [= <-]. cbn [ispec.Volumes ispec.Labels ispec.WorkingDir].
  split; [|split; [|reflexivity]].
  - eexists. split; [reflexivity|]. intros v.
    rewrite elem_of_union, elem_of_list_to_set. reflexivity.
  - eexists. split; [reflexivity|]. intros k.
    rewrite lookup_union.
    destruct (types.Labels l !! k), (default ∅ (ispec.Labels imageConfig) !! k); reflexivity.
Qed.

(** The declared commands are parsed in the order [cmd], [entrypoint],
    [fullCommand], and the first one that does not parse fails the edit.  A
    [cmd] that does not parse fails it even when a [fullCommand] is declared
    that would have cleared [Cmd]. *)
Theorem editConfig_parse_errors (l : types.Layer) (imageConfig : ispec.ImageConfig) :
  let parses (field : option types.Raw) (parse : outcome (option (list string))) :=
    field = None \/ exists words, parse = Ok words in
  (forall e, types.Cmd l <> None -> ParseCmd l = Err e ->
     editConfig l imageConfig = Err e) /\
  (forall e, parses (types.Cmd l) (ParseCmd l) ->
     types.Entrypoint l <> None -> ParseEntrypoint l = Err e ->
     editConfig l imageConfig = Err e) /\
  (forall e, parses (types.Cmd l) (ParseCmd l) ->
     parses (types.Entrypoint l) (ParseEntrypoint l) ->
     types.FullCommand l <> None -> ParseFullCommand l = Err e ->
     editConfig l imageConfig = Err e) /\
  (parses (types.Cmd l) (ParseCmd l) ->
   parses (types.Entrypoint l) (ParseEntrypoint l) ->
   parses (types.FullCommand l) (ParseFullCommand l) ->
   exists cfg, editConfig l imageConfig = Ok cfg).
Proof.
  intros parses. unfold editConfig, mergeCommands, mbind, outcome_bind.
  repeat split.
  - intros e Hdecl Hparse.
    destruct (types.Cmd l); [now rewrite Hparse | contradiction].
  - intros e Hcmd Hdecl Hparse.
    destruct (types.Entrypoint l); [|contradiction]. rewrite Hparse.
    destruct Hcmd as [->|[c ->]]; [reflexivity|]. now destruct (types.Cmd l).
  - intros e Hcmd Hentry Hdecl Hparse.
    destruct (types.FullCommand l); [|contradiction]. rewrite Hparse.
    destruct Hcmd as [->|[c ->]], Hentry as [->|[ep ->]];
      now destruct (types.Cmd l), (types.Entrypoint l).
  - intros Hcmd Hentry Hfull.
    destruct Hcmd as [->|[c ->]], Hentry as [->|[ep ->]], Hfull as [->|[f ->]];
      destruct (types.Cmd l), (types.Entrypoint l), (types.FullCommand l); eauto.
Qed.

End BuildFacts.

(** ** The loop over the layers, and what surrounds it *)

Section Session.

Context `{GoEnv}.

Lemma emits_updateBundleMtree (P : Event -> Prop) (root : string) (d : ispec.Descriptor) :
  (forall p, P (EvReadDir p)) -> (forall a b, P (EvRename a b)) ->
  emits P (updateBundleMtree root d).
Proof.
  intros Hdir Hren. unfold updateBundleMtree.
  apply emits_bind.
  { eapply emits_one; [|apply (Hdir root)]. intros w. now rewrite ReadDir_world. }
  intros infos. induction infos as [|fi rest IH]; cbn [renameFirstMtree].
  - apply emits_ret.
  - destruct (negb _); [exact IH|].
    eapply emits_one; [apply os_Rename_log | apply Hren].
Qed.

Lemma emits_commitLayer (c : types.StackerConfig) (name : string) (l : types.Layer) :
  emits layerEvent (commitLayer c name l).
Proof.
  unfold commitLayer.
  apply emits_bind; [now apply emits_print|]. intros _.
  apply emits_bind; [now apply emits_call|]. intros e1.
  apply emits_bind; [apply emits_check|]. intros _.
  apply emits_bind; [now apply emits_call|]. intros e2.
  apply emits_bind; [destruct e2; [apply emits_fail | apply emits_ret]|]. intros _.
  apply emits_bind; [now apply emits_call|]. intros r1.
  apply emits_bind; [apply emits_try|]. intros imageConfig.
  apply emits_bind; [apply emits_try|]. intros cfg.
  apply emits_bind; [now apply emits_call|]. intros r2.
  apply emits_bind; [apply emits_try|]. intros meta.
  apply emits_bind; [now apply emits_call|]. intros now.
  apply emits_bind; [now apply emits_call|]. intros r3.
  apply emits_bind; [apply emits_try|]. intros annotations.
  apply emits_bind; [now apply emits_call|]. intros e3.
  apply emits_bind; [apply emits_check|]. intros _.
  apply emits_bind; [now apply emits_call|]. intros r4.
  apply emits_bind; [apply emits_try|]. intros newPath.
  apply emits_bind; [now apply emits_call|]. intros e4.
  apply emits_bind; [apply emits_check|]. intros _.
  apply emits_ret.
Qed.

Lemma emits_buildMiss (c : types.StackerConfig) (flags : BuildFlags) (name : string)
                      (l : types.Layer) (importDir : string) :
  emits layerEvent (buildMiss c flags name l importDir).
Proof.
  assert (Hsub : forall ev, buildOnlyEvent ev -> layerEvent ev).
  { intros [| | | | | | | | | |R e]; try easy. now destruct e. }
  unfold buildMiss.
  apply emits_bind; [now apply emits_runLayer|]. intros _.
  destruct (types.BuildOnly l); [now apply emits_snapshotBuildOnly|].
  apply emits_bind; [apply emits_commitLayer|]. intros newPath.
  apply emits_bind.
  { unfold refreshBundle.
    apply emits_bind; [now apply emits_updateBundleMtree|]. intros _.
    apply emits_bind; [now apply emits_call|]. intros err. apply emits_check. }
  intros _. unfold recordLayer.
  apply emits_bind; [now apply emits_call|]. intros _.
  apply emits_bind; [now apply emits_call|]. intros e1.
  apply emits_bind; [apply emits_check|]. intros _.
  apply emits_bind; [now apply emits_print|]. intros _.
  apply emits_bind; [now apply emits_call|]. intros r.
  apply emits_bind; [apply emits_try|]. intros desc.
  apply emits_bind; [now apply emits_call|]. intros e2.
  apply emits_check.
Qed.

Lemma emits_buildLayer (c : types.StackerConfig) (flags : BuildFlags) (name : string)
                       (l : types.Layer) :
  emits layerEvent (buildLayer c flags name l).
Proof.
  unfold buildLayer.
  apply emits_bind; [now apply emits_print|]. intros _.
  apply emits_bind; [now apply emits_print|]. intros _.
  apply emits_bind; [apply emits_try|]. intros imports.
  apply emits_bind.
  { unfold Import.
    apply emits_bind; [now apply emits_call|]. intros err.
    apply emits_bind; [apply emits_check|]. intros _.
    apply emits_importEach. intros [| | | | | | | | | |R e]; try easy. now destruct e. }
  intros _.
  apply emits_bind; [now apply emits_call|]. intros r.
  destruct r.2.
  - apply emits_bind; [now apply emits_print|]. intros _.
    apply emits_bind; [now apply emits_call|]. intros err. apply emits_check.
  - apply emits_buildMiss.
Qed.

Lemma emits_buildLayers (c : types.StackerConfig) (flags : BuildFlags)
                        (sf : gmap string types.Layer) (order : list string) :
  emits layerEvent (buildLayers c flags sf order).
Proof.
  induction order as [|name rest IH]; cbn [buildLayers]; [apply emits_ret|].
  destruct (sf !! name) as [l|]; [|apply emits_fail].
  apply emits_bind; [apply emits_buildLayer|]. intros _. exact IH.
Qed.

(** The loop over a dependency order that is two orders one after the
    other is the loop over the first followed by the loop over the second:
    a layer's pass depends on the layers before it only through the world
    they leave. *)
Theorem buildLayers_app
    (c : types.StackerConfig) (flags : BuildFlags) (sf : gmap string types.Layer)
    (first second : list string) (w : World) :
  buildLayers c flags sf (first ++ second) w =
  (buildLayers c flags sf first;; buildLayers c flags sf second) w.
Proof.
  revert w. induction first as [|name rest IH]; intros w; cbn [buildLayers app].
  - reflexivity.
  - destruct (sf !! name) as [l|]; [|reflexivity].
    unfold mbind, M_bind in *.
    destruct (buildLayer c flags name l w) as [[[]|e] w1]; [apply IH | reflexivity].
Qed.

(** The loop stops at the first layer whose pass fails: the error of that
    pass is the error of the loop, the world is the one the failing pass
    left, and no later layer of the order is looked at, declared or not. *)
Theorem buildLayers_stops
    (c : types.StackerConfig) (flags : BuildFlags) (sf : gmap string types.Layer)
    (done rest : list string) (name : string) (l : types.Layer)
    (w w1 w2 : World) (e : error) :
  buildLayers c flags sf done w = (Ok tt, w1) ->
  sf !! name = Some l ->
  buildLayer c flags name l w1 = (Err e, w2) ->
  buildLayers c flags sf (done ++ name :: rest) w = (Err e, w2).
Proof.
  intros Hdone Hl Hfail. revert w Hdone.
  induction done as [|n done IH]; intros w; cbn [buildLayers app].
  - intros [= <-]. rewrite Hl. unfold mbind, M_bind. now rewrite Hfail.
  - destruct (sf !! n) as [ln|]; [|discriminate].
    unfold mbind, M_bind.
    destruct (buildLayer c flags n ln w) as [[[]|e0] w0]; [apply IH | discriminate].
Qed.

Lemma cons_app_eq {A : Type} (x : A) (l pre t : list A) :
  l = pre ++ t -> x :: l = (x :: pre) ++ t.
Proof. now intros ->. Qed.

Ltac cut_list :=
  first [ exact (eq_refl : _ = [] ++ _) | apply cons_app_eq; cut_list ].

(** How a run of [doBuild] ends, by the point it got to: before the
    storage is there, before the cache is asked for, at the cache, or in
    the loop. *)
Lemma doBuild_shape (c : types.StackerConfig) (flags : BuildFlags) (w : World) :
  exists evs : list Event,
    log (doBuild c flags w).2 = log w ++ evs /\
    ((exists e, (doBuild c flags w).1 = Err e /\ Forall setupEvent evs) \/
     (exists pre e,
        (doBuild c flags w).1 = Err e /\ Forall setupEvent pre /\
        evs = pre ++ detaching flags) \/
     (exists pre d e,
        (doBuild c flags w).1 = Err e /\ Forall setupEvent pre /\
        evs = pre ++ [EvExt (OpenCache d); EvExt LayoutClose] ++ detaching flags) \/
     (exists pre d mid,
        Forall setupEvent pre /\ Forall layerEvent mid /\
        evs = pre ++ [EvExt (OpenCache d)] ++ mid
                  ++ [EvExt (StorageDelete ".working"); EvExt LayoutClose]
                  ++ detaching flags)).
Proof.
  destruct flags as [lu sfile nc subs orf].
  unfold doBuild, detaching, defer, attempt, call, check, try.
  unfold mbind, M_bind, mret, M_ret, fail.
  cbn [leave_unladen no_cache stacker_file substitute].
  assert (Hstat : forall p w0, exists r fs,
             os_Stat p w0 = (r, {| files := fs; umask := umask w0;
                                   log := log w0 ++ [EvStat p] |})).
  { intros p w0. unfold os_Stat. destruct (resolve (files w0) p); eauto. }
  destruct nc, lu.
  all: repeat
    (match goal with
     | |- context [extern ?R ?e ?w0] =>
         let r := fresh "r" in
         destruct (extern R e w0) as [r ?]; try destruct r
     | |- context [os_Stat ?p ?w0] =>
         let r := fresh "r" in
         destruct (Hstat p w0) as (r & ? & ->); destruct r
     | |- context [buildLayers ?c ?f ?sf ?o ?w0] =>
         let rl := fresh "rl" in
         let Hl := fresh "Hl" in
         destruct (emits_buildLayers c f sf o w0) as (? & Hl & ?);
         destruct (buildLayers c f sf o w0) as [rl ?]; cbn [snd] in Hl
     end; cbn beta iota).
  all: cbn [log record withFiles fst snd] in *.
  all: repeat match goal with Hl : log _ = _ |- _ => rewrite Hl; clear Hl end.
  all: cbn [log record withFiles fst snd] in *.
  all: rewrite <- ?app_assoc; cbn [app].
  all: eexists; (split; [reflexivity|]).
  all: first
    [ solve [left; eexists; split; [reflexivity | repeat constructor]]
    | solve [right; left; eexists _, _; split; [reflexivity|]; split;
             [|cut_list]; repeat constructor]
    | solve [right; right; left; eexists _, _, _; split; [reflexivity|]; split;
             [|cut_list]; repeat constructor]
    | solve [right; right; right; eexists _, _, _; split; [|split; [eassumption|cut_list]];
             repeat constructor] ].
Qed.

Lemma setupEvent_quiet (evs : list Event) (ev : Event) :
  Forall setupEvent evs -> ev ∈ evs ->
  match ev with
  | EvPrint _ | EvExt (OpenCache _) | EvExt Detach | EvExt LayoutClose => False
  | _ => True
  end.
Proof.
  intros Hall Hin. rewrite Forall_forall in Hall. specialize (Hall ev Hin).
  destruct ev as [| | | | | | | | | |R e]; try easy. now destruct e.
Qed.

Lemma detaching_quiet (flags : BuildFlags) (ev : Event) :
  ev ∈ detaching flags -> isDetach ev.
Proof.
  unfold detaching. destruct (leave_unladen flags); intros Hin.
  - now apply elem_of_nil in Hin.
  - apply list_elem_of_singleton in Hin as ->. exact I.
Qed.

(** The deferred calls of [doBuild].  A run that returns nil, or that got
    far enough to print anything, ends with the three deferred calls in the
    reverse of the order in which they were deferred: the working tree is
    deleted, the layout is closed, and the storage is detached unless
    [leave-unladen] is set. *)
Theorem doBuild_cleanup
    (c : types.StackerConfig) (flags : BuildFlags) (w w' : World)
    (r : outcome unit) (evs : list Event) :
  doBuild c flags w = (r, w') ->
  log w' = log w ++ evs ->
  r = Ok tt \/ (exists s, EvPrint s ∈ evs) ->
  exists pre : list Event,
    evs = pre ++ [EvExt (StorageDelete ".working"); EvExt LayoutClose]
              ++ detaching flags.
Proof.
  intros Hrun Hlog Hfar.
  destruct (doBuild_shape c flags w) as (evs' & Hlog' & Hshape).
  rewrite Hrun in Hlog', Hshape. cbn [fst snd] in Hlog', Hshape.
  rewrite Hlog in Hlog'. apply app_inv_head in Hlog' as <-.
  assert (Hquiet : forall s l, EvPrint s ∈ l ++ detaching flags -> EvPrint s ∈ l).
  { intros s l [Hin|Hin]%elem_of_app; [exact Hin|].
    now apply detaching_quiet in Hin. }
  destruct Hshape as [(e & -> & Hpre)|[(pre & e & -> & Hpre & ->)|
                     [(pre & d & e & -> & Hpre & ->)|(pre & d & mid & _ & _ & ->)]]].
  - destruct Hfar as [[=]|[s Hin]]. destruct (setupEvent_quiet _ _ Hpre Hin).
  - destruct Hfar as [[=]|[s Hin]]. destruct (setupEvent_quiet _ _ Hpre (Hquiet _ _ Hin)).
  - destruct Hfar as [[=]|[s Hin]].
    rewrite app_assoc in Hin. apply Hquiet, elem_of_app in Hin as [Hin|Hin].
    + destruct (setupEvent_quiet _ _ Hpre Hin).
    + apply elem_of_cons in Hin as [[=]|Hin].
      apply list_elem_of_singleton in Hin. discriminate Hin.
  - exists (pre ++ [EvExt (OpenCache d)] ++ mid). now rewrite <- !app_assoc.
Qed.

(** The storage is detached at most once, as the last thing [doBuild]
    does and never before, and not at all when [leave-unladen] is set. *)
Theorem doBuild_detaches_last (c : types.StackerConfig) (flags : BuildFlags) (w : World) :
  exists pre tl : list Event,
    log (doBuild c flags w).2 = log w ++ pre ++ tl /\
    Forall (fun ev => ~ isDetach ev) pre /\
    (tl = [] \/ tl = [EvExt Detach] /\ leave_unladen flags = false).
Proof.
  assert (Hsetup : forall l, Forall setupEvent l -> Forall (fun ev => ~ isDetach ev) l).
  { intros l Hl. eapply Forall_impl; [exact Hl|].
    intros [| | | | | | | | | |R e]; try easy. now destruct e. }
  assert (Hlayer : forall l, Forall layerEvent l -> Forall (fun ev => ~ isDetach ev) l).
  { intros l Hl. eapply Forall_impl; [exact Hl|].
    intros [| | | | | | | | | |R e]; try easy. now destruct e. }
  assert (Htl : detaching flags = [] \/
                detaching flags = [EvExt Detach] /\ leave_unladen flags = false).
  { unfold detaching. destruct (leave_unladen flags); eauto. }
  destruct (doBuild_shape c flags w) as (evs & Hlog & Hshape).
  destruct Hshape as [(e & _ & Hpre)|[(pre & e & _ & Hpre & ->)|
                     [(pre & d & e & _ & Hpre & ->)|(pre & d & mid & Hpre & Hmid & ->)]]].
  - exists evs, []. rewrite app_nil_r. eauto.
  - exists pre, (detaching flags). eauto.
  - exists (pre ++ [EvExt (OpenCache d); EvExt LayoutClose]), (detaching flags).
    split; [now rewrite Hlog, <- !app_assoc|]. split; [|exact Htl].
    apply Forall_app. split; [eauto|]. repeat constructor; easy.
  - exists (pre ++ [EvExt (OpenCache d)] ++ mid
               ++ [EvExt (StorageDelete ".working"); EvExt LayoutClose]),
           (detaching flags).
    split; [now rewrite Hlog, <- !app_assoc|]. split; [|exact Htl].
    repeat (apply Forall_app; split); eauto; repeat constructor; easy.
Qed.

(** A stackerfile that cannot be read ends the build there: the error is
    the reader's, and apart from the removal of the stacker directory under
    [no-cache], whose outcome is not looked at, nothing else is called; no
    storage is opened and so none is detached. *)
Theorem doBuild_stackerfile_error
    (c : types.StackerConfig) (flags : BuildFlags) (w : World) (e : error) :
  let w0 := if no_cache flags then (call (RemoveAll (types.StackerDir c)) w).2 else w in
  let read := NewStackerfile (stacker_file flags) (substitute flags) in
  (extern _ read w0).1 = Err e ->
  doBuild c flags w = (Err e, record (EvExt read) (withFiles (extern _ read w0).2 w0)).
Proof.
  intros w0 read Hread. unfold doBuild.
  assert (Hpre : (if no_cache flags
                  then _ ← call (RemoveAll (types.StackerDir c)); mret tt
                  else mret tt) w = (Ok tt, w0)).
  { unfold w0. destruct (no_cache flags); [|reflexivity].
    now rewrite (bind_Ok _ _ _ _ _ (call_run _ _)), call_run. }
  rewrite (bind_Ok _ _ _ _ _ Hpre).
  rewrite (bind_Ok _ _ _ _ _ (call_run _ _)).
  fold read. rewrite Hread. reflexivity.
Qed.

End Session.

(** ** The commit and the record of a layer *)

(** Peel the first call off a sequence that is known to have succeeded;
    the worlds in between stay abstract. *)
Ltac peel H :=
  let a := fresh "a" in
  let w1 := fresh "w" in
  let H1 := fresh "Hstep" in
  apply bind_Ok_inv in H as (a & w1 & H1 & H);
  first
    [ apply fmt_Print_inv in H1 as [H1 _]
    | apply call_inv in H1 as [? H1]
    | apply check_Ok_inv in H1 as [H1 ->]
    | apply try_Ok_inv in H1 as [H1 ->]
    | idtac ].

Section Commit.

Context `{GoEnv}.

(** A commit that succeeds made ten calls, in the order below.  The
    configuration handed to the mutator's [Set] is the edit of the one the
    mutator answered; the metadata keep the author the mutator answered and
    carry the time that [time.Now] answered and the architecture and system
    of the build; the history entry is an empty layer created at that time by
    ["stacker build"]; and the reference is pointed at the root of the path
    that [Commit] answered. *)
Theorem commitLayer_metadata
    (c : types.StackerConfig) (name : string) (l : types.Layer) (w w' : World)
    (newPath : umoci.DescriptorPath) :
  commitLayer c name l w = (Ok newPath, w') ->
  exists (imageConfig cfg : ispec.ImageConfig) (meta : ispec.Image)
         (now : Z) (annotations : gmap string string) (w1 w2 w3 w4 : World),
    let trace :=
      [EvPrint ("generating layer..." +:+ nl);
       EvExt (MaybeRunInUserns
                ["umoci"; "repack"; "--refresh-bundle"; "--image";
                 types.OCIDir c +:+ ":" +:+ name;
                 path_Join [types.RootFSDir c; ".working"]]
                "layer generation failed");
       EvExt (Mutator name); EvExt (MutatorConfig name); EvExt (MutatorMeta name);
       EvExt TimeNow; EvExt (MutatorAnnotations name);
       EvExt (MutatorSet name cfg
                {| ispec.Author := ispec.Author meta; ispec.Created := now;
                   ispec.Architecture := GOARCH; ispec.OS := GOOS |}
                annotations
                {| ispec.EmptyLayer := true; ispec.HistoryCreated := Some now;
                   ispec.CreatedBy := "stacker build" |});
       EvExt (MutatorCommit name);
       EvExt (UpdateReference name (umoci.Root newPath))] in
    log w' = log w ++ trace /\
    log w1 = log w ++ take 3 trace /\
    (extern _ (MutatorConfig name) w1).1 = Ok imageConfig /\
    editConfig l imageConfig = Ok cfg /\
    log w2 = log w ++ take 4 trace /\
    (extern _ (MutatorMeta name) w2).1 = Ok meta /\
    log w3 = log w ++ take 5 trace /\
    (extern _ TimeNow w3).1 = now /\
    log w4 = log w ++ take 6 trace /\
    (extern _ (MutatorAnnotations name) w4).1 = Ok annotations.
Proof.
  intros Hrun. unfold commitLayer in Hrun.
  do 4 peel Hrun. peel Hrun.
  match goal with
  | Hm : match ?a with Some _ => _ | None => _ end _ = _ |- _ =>
      destruct a; [discriminate Hm | injection Hm as _ <-]
  end.
  repeat peel Hrun. injection Hrun as <- <-.
  cbn [ispec.Created] in *.
  match goal with
  | Hc : ?rc = (extern _ (MutatorConfig name) ?w1).1, Hc' : ?rc = Ok ?ic,
    He : editConfig l ?ic = Ok ?cfg,
    Hm : ?rm = (extern _ (MutatorMeta name) ?w2).1, Hm' : ?rm = Ok ?meta,
    Ht : ?now = (extern _ TimeNow ?w3).1,
    Ha : ?ra = (extern _ (MutatorAnnotations name) ?w4).1, Ha' : ?ra = Ok ?ann |- _ =>
      exists ic, cfg, meta, now, ann, w1, w2, w3, w4
  end.
  cbn [take].
  repeat match goal with Hl : log _ = _ |- _ => rewrite Hl; clear Hl end.
  rewrite <- !app_assoc. cbn [app].
  repeat split; congruence.
Qed.

End Commit.

(** ** The statements above on concrete inputs *)

Lemma filesDiffer_two_symlinks_witness :
  exists (differs : bool) (w' : World),
    filesDiffer "/a/f" (fileInfo "f" (Symlink "t")) "/b/f" (fileInfo "f" (Symlink "u"))
                (Ref.world Cases.dangling) = (Ok differs, w') /\
    (differs = false <-> "t" = "u") /\
    files w' = Cases.dangling /\
    log w' = [EvReadlink "/a/f"; EvReadlink "/b/f"].
Proof.
  apply (filesDiffer_two_symlinks (Ref.world Cases.dangling) "/a/f" "/b/f" "t" "u"
           (fileInfo "f" (Symlink "t")) (fileInfo "f" (Symlink "u")));
    vm_compute; reflexivity.
Defined.

Lemma filesDiffer_stale_symlink_witness :
  exists e : error,
    filesDiffer "/a/f" (fileInfo "f" (Symlink "t")) "/b/f" (fileInfo "f" (Symlink "t"))
                (Ref.world Ref.linked) =
    (Err e, record (EvReadlink "/a/f") (Ref.world Ref.linked)).
Proof.
  apply (filesDiffer_stale_symlink (Ref.world Ref.linked) "/a/f" "/b/f"
           (fileInfo "f" (Symlink "t")) (fileInfo "f" (Symlink "t")));
    try (vm_compute; reflexivity).
  intros t. vm_compute. discriminate.
Defined.

Lemma fileCopy_copies_witness :
  exists w' : World,
    fileCopy "/cache/data.txt" "/src/data.txt" (Ref.world Ref.disk) = (Ok tt, w') /\
    files w' !! "/cache/data.txt" = Some (File (N.land 420 ModePerm) Ref.hello) /\
    (forall k, k <> "/cache/data.txt" -> files w' !! k = Ref.disk !! k) /\
    log w' = [EvOpen "/src/data.txt"; EvCreate "/cache/data.txt";
              EvChmod "/cache/data.txt" (N.land 420 ModePerm);
              EvCopy "/cache/data.txt" "/src/data.txt"].
Proof.
  apply (fileCopy_copies (Ref.world Ref.disk) "/cache/data.txt" "/src/data.txt"
           "/src/data.txt" "/cache/data.txt" 420 Ref.hello);
    try (vm_compute; reflexivity).
  discriminate.
Defined.

Lemma fileCopy_onto_itself_witness :
  exists w' : World,
    fileCopy "/b/f" "/b/t" (Ref.world Ref.linked) = (Ok tt, w') /\
    files w' = <["/b/t" := File (N.land 420 ModePerm) []]> Ref.linked.
Proof.
  apply (fileCopy_onto_itself (Ref.world Ref.linked) "/b/f" "/b/t" "/b/t" 420 [x78]);
    vm_compute; reflexivity.
Defined.

Lemma fileCopy_fails_cleanly_witness :
  exists (e : error) (w' : World),
    fileCopy "/cache/data.txt" "/nowhere" (Ref.world Ref.disk) = (Err e, w') /\
    files w' = Ref.disk.
Proof.
  apply (fileCopy_fails_cleanly (Ref.world Ref.disk) "/cache/data.txt" "/nowhere").
  left. intros q n. vm_compute. discriminate.
Defined.

Lemma importFile_installs_witness :
  exists (w1 : World) (q' : string) (m1 : N),
    importFile "/src/data.txt" "/cache" (Ref.world Ref.disk) =
      (Ok (path_Join ["/cache"; path_Base "/src/data.txt"]), w1) /\
    resolve (files w1) (path_Join ["/cache"; path_Base "/src/data.txt"]) =
      Found q' (File m1 Ref.hello) /\
    resolve (files w1) "/src/data.txt" = Found "/src/data.txt" (File 420 Ref.hello) /\
    (forall k, k <> q' -> files w1 !! k = Ref.disk !! k).
Proof.
  apply (importFile_installs (Ref.world Ref.disk) "/src/data.txt" "/cache"
           "/src/data.txt" 420 Ref.hello); vm_compute; reflexivity.
Defined.

Lemma importFile_same_name_overwrites_witness :
  exists (w1 w2 : World) (q' : string) (m' : N),
    importFile "/x/data.txt" "/cache" (Ref.world Cases.twins) =
      (Ok (path_Join ["/cache"; path_Base "/x/data.txt"]), w1) /\
    importFile "/y/data.txt" "/cache" w1 =
      (Ok (path_Join ["/cache"; path_Base "/x/data.txt"]), w2) /\
    resolve (files w2) (path_Join ["/cache"; path_Base "/x/data.txt"]) =
      Found q' (File m' [x32; x32]).
Proof.
  apply (importFile_same_name_overwrites (Ref.world Cases.twins)
           "/x/data.txt" "/y/data.txt" "/cache" "/x/data.txt" "/y/data.txt"
           420 384 [x31] [x32; x32]);
    try (vm_compute; reflexivity).
  vm_compute. discriminate.
Defined.

Lemma acquireUrl_cross_layer_witness :
  exists (w1 : World) (q' : string) (m1 : N),
    @acquireUrl Cases.tidy Ref.cfg "stacker://base/etc/motd" "/cache"
                (Ref.world Cases.layered) = (Ok "/cache/motd", w1) /\
    @resolve Cases.tidy (files w1) "/cache/motd" = Found q' (File m1 Ref.hello).
Proof.
  apply (@acquireUrl_cross_layer Cases.tidy Ref.cfg "stacker://base/etc/motd" "/cache"
           "/roots/base/rootfs/etc/motd"
           {| Scheme := "stacker"; Host := "base"; Path := "/etc/motd" |}
           (Ref.world Cases.layered) 420 Ref.hello);
    vm_compute; reflexivity.
Defined.

Lemma Import_needs_directory_witness :
  exists w' : World,
    @Import Cases.refusing Ref.cfg "app" ["/src/data.txt"] (Ref.world Ref.disk) =
      (Err "mkdir /s/imports: permission denied", w') /\
    log w' = [EvExt (MkdirAll "/s/imports/app" 493)].
Proof.
  apply (@Import_needs_directory Cases.refusing Ref.cfg "app" ["/src/data.txt"]
           (Ref.world Ref.disk) "mkdir /s/imports: permission denied").
  vm_compute. reflexivity.
Defined.

Lemma buildMiss_build_only_events_witness :
  emits buildOnlyEvent
        (buildMiss Ref.cfg Ref.flags "builder" Ref.builder "/s/imports/builder").
Proof.
  apply (buildMiss_build_only_events Ref.cfg Ref.flags "builder" Ref.builder
           "/s/imports/builder").
  reflexivity.
Defined.

Lemma updateBundleMtree_unreadable_witness :
  exists e : error,
    updateBundleMtree "/nowhere" Ref.image (Ref.world Ref.disk) =
    (Err e, record (EvReadDir "/nowhere") (Ref.world Ref.disk)).
Proof.
  apply (updateBundleMtree_unreadable "/nowhere" Ref.image (Ref.world Ref.disk)).
  intros perm. vm_compute. discriminate.
Defined.


Lemma editConfig_fields_witness :
  exists cfg : ispec.ImageConfig,
    editConfig Cases.service Ref.baseConfig = Ok cfg /\
    (exists vols : gset string,
       ispec.Volumes cfg = Some vols /\
       forall v, v ∈ vols <-> v ∈ (∅ : gset string) \/ v ∈ ["/data"]) /\
    (exists labels : gmap string string,
       ispec.Labels cfg = Some labels /\
       forall k, labels !! k =
                 match ({["role" := "db"]} : gmap string string) !! k with
                 | Some v => Some v
                 | None => (∅ : gmap string string) !! k
                 end) /\
    ispec.WorkingDir cfg = "/srv".
Proof.
  destruct (editConfig Cases.service Ref.baseConfig) as [cfg|e] eqn:Hedit;
    [|vm_compute in Hedit; discriminate Hedit].
  exists cfg. split; [reflexivity|].
  apply (editConfig_fields Cases.service Ref.baseConfig cfg Hedit).
Defined.

Lemma buildLayers_stops_witness :
  let w1 := (buildLayers Ref.cfg Ref.flags Cases.stackerfile ["base"]
               (Ref.world Ref.tree)).2 in
  let w2 := (buildLayer Ref.cfg Ref.flags "broken" Cases.needy w1).2 in
  buildLayers Ref.cfg Ref.flags Cases.stackerfile (["base"] ++ "broken" :: ["app"])
              (Ref.world Ref.tree) =
  (Err ENOENT, w2).
Proof.
  intros w1 w2.
  apply (buildLayers_stops Ref.cfg Ref.flags Cases.stackerfile ["base"] ["app"]
           "broken" Cases.needy (Ref.world Ref.tree) w1 w2);
    vm_compute; reflexivity.
Defined.

Lemma doBuild_cleanup_witness :
  let run := @doBuild Cases.stacked Ref.cfg Ref.flags (Ref.world Ref.tree) in
  run.1 = Ok tt /\
  exists pre : list Event,
    log run.2 = pre ++ [EvExt (StorageDelete ".working"); EvExt LayoutClose; EvExt Detach].
Proof.
  intros run.
  assert (Hok : run.1 = Ok tt) by (vm_compute; reflexivity).
  split; [exact Hok|].
  apply (@doBuild_cleanup Cases.stacked Ref.cfg Ref.flags (Ref.world Ref.tree)
           run.2 run.1 (log run.2)).
  - unfold run. apply surjective_pairing.
  - reflexivity.
  - left. exact Hok.
Defined.

Lemma doBuild_stackerfile_error_witness :
  @doBuild Cases.refusing Ref.cfg Ref.flags (Ref.world Ref.tree) =
  (Err "open stacker.yaml: no such file or directory",
   record (EvExt (NewStackerfile "stacker.yaml" [])) (Ref.world Ref.tree)).
Proof.
  apply (@doBuild_stackerfile_error Cases.refusing Ref.cfg Ref.flags
           (Ref.world Ref.tree) "open stacker.yaml: no such file or directory").
  vm_compute. reflexivity.
Defined.

Lemma commitLayer_metadata_witness :
  let w := Ref.world Ref.tree in
  let run := commitLayer Ref.cfg "app" Cases.service w in
  exists (newPath : umoci.DescriptorPath) (cfg : ispec.ImageConfig) (now : Z),
    run.1 = Ok newPath /\
    editConfig Cases.service Ref.baseConfig = Ok cfg /\
    now = 5%Z /\
    List.last (log run.2) (EvPrint "") = EvExt (UpdateReference "app" Ref.image) /\
    nth_error (log run.2) 7 =
      Some (EvExt (MutatorSet "app" cfg
                     {| ispec.Author := ""; ispec.Created := now;
                        ispec.Architecture := "amd64"; ispec.OS := "linux" |}
                     ∅
                     {| ispec.EmptyLayer := true; ispec.HistoryCreated := Some now;
                        ispec.CreatedBy := "stacker build" |})).
Proof.
  intros w run.
  destruct run as [r w'] eqn:Hrun.
  assert (Hr : r = Ok {| umoci.WalkHead := Ref.image; umoci.WalkTail := [] |}).
  { change r with (r, w').1. rewrite <- Hrun. vm_compute. reflexivity. }
  subst r.
  destruct (commitLayer_metadata Ref.cfg "app" Cases.service w w' _ Hrun)
    as (imageConfig & cfg & meta & now & annotations & w1 & w2 & w3 & w4 & Hlog & _ &
        Hconfig & Hedit & Hlog2 & Hmeta & Hlog3 & Hnow & _ & Hann).
  injection Hconfig as <-. injection Hmeta as <-. injection Hann as <-.
  exists {| umoci.WalkHead := Ref.image; umoci.WalkTail := [] |}, cfg, now.
  split; [reflexivity|]. split; [exact Hedit|].
  assert (Htime : now = 5%Z).
  { rewrite <- Hnow. cbn. rewrite Hlog3. reflexivity. }
  split; [exact Htime|].
  cbn [snd]. rewrite Hlog. split; reflexivity.
Defined.

(** ** What a refused call ends *)

Section Refusals.

Context `{GoEnv}.

Lemma after_nil (w : World) : after [] w = w.
Proof. reflexivity. Qed.

Lemma after_print (s : string) (rest : list Event) (w : World) :
  after (EvPrint s :: rest) w = after rest (record (EvPrint s) w).
Proof. reflexivity. Qed.

Lemma firstRefusal_nil (w : World) : firstRefusal [] w = None.
Proof. reflexivity. Qed.

Lemma after_call {R : Type} (e : ExtE R) (rest : list Event) (w : World) :
  after (EvExt e :: rest) w =
  after rest (record (EvExt e) (withFiles (extern _ e w).2 w)).
Proof. cbn [after]. now rewrite call_run. Qed.

Lemma after_app (evs1 evs2 : list Event) (w : World) :
  after (evs1 ++ evs2) w = after evs2 (after evs1 w).
Proof.
  revert w. induction evs1 as [|ev evs1 IH]; intros w; [reflexivity|].
  destruct ev; cbn [after app]; apply IH.
Qed.

(** The calls are in the log of the world they lead to, in their order. *)
Lemma after_log (evs : list Event) (w : World) :
  log (after evs w) = log w ++ evs.
Proof.
  revert w. induction evs as [|ev evs IH]; intros w; [now rewrite app_nil_r|].
  assert (Hcons : forall w1, log w1 = log w ++ [ev] ->
                             log (after evs w1) = log w ++ ev :: evs).
  { intros w1 Hw1. now rewrite IH, Hw1, <- app_assoc. }
  destruct ev; cbn [after]; apply Hcons; try reflexivity.
  now rewrite call_run.
Qed.

Lemma firstRefusal_call {R : Type} (e : ExtE R) (rest : list Event) (w : World) :
  firstRefusal (EvExt e :: rest) w =
  match answerError e (extern _ e w).1 with
  | Some err => Some (0%nat, err)
  | None => prod_map S id <$>
            firstRefusal rest (record (EvExt e) (withFiles (extern _ e w).2 w))
  end.
Proof. cbn [firstRefusal refused]. now rewrite after_call. Qed.

(** One call of a sequence, and the rest of it in the world the call
    leaves. *)
Lemma call_step {R B : Type} (e : ExtE R) (k : R -> M B) (w : World) :
  (call e ≫= k) w =
  k (extern _ e w).1 (record (EvExt e) (withFiles (extern _ e w).2 w)).
Proof. apply bind_Ok, call_run. Qed.

Lemma print_step {B : Type} (s : string) (k : unit -> M B) (w : World) :
  (fmt_Print s ≫= k) w = k tt (record (EvPrint s) w).
Proof. reflexivity. Qed.

Lemma check_step {B : Type} (o : option error) (k : unit -> M B) (w : World) :
  (check o ≫= k) w = match o with Some e => (Err e, w) | None => k tt w end.
Proof. now destruct o. Qed.

Lemma mutator_step {B : Type} (o : option error) (k : unit -> M B) (w : World) :
  (match o with
   | Some e => fail ("mutator failed: " +:+ e)
   | None => mret tt
   end ≫= k) w =
  match o with
  | Some e => (Err ("mutator failed: " +:+ e), w)
  | None => k tt w
  end.
Proof. now destruct o. Qed.

Lemma try_step {A B : Type} (o : outcome A) (k : A -> M B) (w : World) :
  (try o ≫= k) w = match o with Err e => (Err e, w) | Ok a => k a w end.
Proof. now destruct o. Qed.

Lemma firstRefusal_print (s : string) (rest : list Event) (w : World) :
  firstRefusal (EvPrint s :: rest) w =
  prod_map S id <$> firstRefusal rest (record (EvPrint s) w).
Proof. reflexivity. Qed.

(** Follow a straight line of calls, one case for every answer that is
    looked at. *)
#[local] Arguments after : simpl never.
#[local] Arguments firstRefusal : simpl never.

Ltac settle :=
  repeat progress
    (cbn [check try fail mret M_ret fmap option_fmap option_map prod_map take
          fst snd id answerError];
     rewrite ?call_step, ?print_step, ?check_step, ?try_step, ?mutator_step,
             ?firstRefusal_call, ?firstRefusal_print, ?firstRefusal_nil,
             ?after_call, ?after_print, ?after_nil).

Ltac replay :=
  settle;
  repeat (match goal with
          | |- context [(extern ?R ?e ?w0).1] =>
              first [ is_var w0 | let wn := fresh "w" in set (wn := w0) in * ];
              match goal with
              | |- context [(extern R e ?w1).1] => destruct ((extern R e w1).1)
              end
          end; settle);
  try reflexivity.

(** The working tree of a layer.  The old [.working] tree is deleted first
    and the answer to that call is not looked at.  Then a layer built on
    another layer makes one call, the restore of that layer's snapshot as
    [.working]; any other layer makes two, the creation of an empty
    [.working] and [GetBaseLayer] into it.  The first of these calls that is
    refused ends the preparation with its error, in the world that call
    left: the base layer is not fetched into a tree that could not be
    created.  With no refusal the preparation returns nil after the last
    call. *)
Theorem prepareTree_calls
    (c : types.StackerConfig) (name : string) (l : types.Layer) (w : World) :
  let opts := {| types.Config := c; types.Name := name;
                 types.Target := ".working"; types.OptLayer := l |} in
  let w1 := after [EvExt (StorageDelete ".working")] w in
  let calls :=
    match types.Type_ (types.From l) with
    | types.BuiltType => [EvExt (StorageRestore (types.Tag (types.From l)) ".working")]
    | _ => [EvExt (StorageCreate ".working"); EvExt (GetBaseLayer opts)]
    end in
  prepareTree c name l w =
  match firstRefusal calls w1 with
  | Some (k, e) => (Err e, after (take (S k) calls) w1)
  | None => (Ok tt, after calls w1)
  end.
Proof.
  intros opts w1 calls. unfold prepareTree.
  unfold w1, calls, opts.
  destruct (types.Type_ (types.From l)); replay.
Qed.

(** The record of a built layer.  The old snapshot of the layer's name is
    deleted first and the answer to that call is not looked at.  Then the
    working tree is snapshotted under the name, a note is printed, the
    layout is asked for the manifest descriptor of the name, and that
    descriptor is put in the cache for the declaration and its import
    directory.  The first of these calls that is refused ends the record
    with its error, in the world that call left; with no refusal the record
    returns nil after the [Put]. *)
Theorem recordLayer_caches_manifest
    (name : string) (l : types.Layer) (importDir : string) (w : World) :
  let w1 := after [EvExt (StorageDelete name)] w in
  let snapshot := EvExt (StorageSnapshot ".working" name) in
  let note := EvPrint ("filesystem " +:+ name +:+ " built successfully" +:+ nl) in
  let lookup := LookupManifestDescriptor name in
  let desc := match (extern _ lookup (after [snapshot; note] w1)).1 with
              | Ok d => d
              | Err _ => ispec.empty
              end in
  let calls := [snapshot; note; EvExt lookup; EvExt (CachePut l importDir desc)] in
  recordLayer name l importDir w =
  match firstRefusal calls w1 with
  | Some (k, e) => (Err e, after (take (S k) calls) w1)
  | None => (Ok tt, after calls w1)
  end.
Proof.
  intros w1 snapshot note lookup desc calls. unfold recordLayer.
  unfold calls, desc, lookup, note, snapshot, w1. replay.
Qed.

Lemma acquireUrl_remote (c : types.StackerConfig) (i dir : string) (w : World) :
  (exists u, url_Parse i = Ok u /\ (Scheme u = "http" \/ Scheme u = "https")) ->
  acquireUrl c i dir w =
  (match (extern _ (Download dir i) w).1 with
   | Ok p => Ok p
   | Err e => Err e
   end, after [EvExt (Download dir i)] w).
Proof.
  intros (u & Hparse & Hscheme). unfold acquireUrl. rewrite Hparse. cbn [try].
  unfold mbind at 1, M_bind at 1, mret at 1, M_ret at 1.
  assert (Hs : String.eqb (Scheme u) "" = false
               /\ (String.eqb (Scheme u) "http" || String.eqb (Scheme u) "https") = true).
  { destruct Hscheme as [-> | ->]; now split. }
  destruct Hs as [-> ->]. settle.
  now destruct ((extern _ (Download dir i) w).1).
Qed.

Lemma importEach_remote (c : types.StackerConfig) (dir : string) (urls : list string)
                        (w : World) :
  (forall i, i ∈ urls ->
     exists u, url_Parse i = Ok u /\ (Scheme u = "http" \/ Scheme u = "https")) ->
  let calls := map (fun i => EvExt (Download dir i)) urls in
  importEach c dir urls w =
  match firstRefusal calls w with
  | Some (k, e) => (Err e, after (take (S k) calls) w)
  | None => (Ok tt, after calls w)
  end.
Proof.
  intros Hremote calls. unfold calls. clear calls. revert w.
  induction urls as [|i rest IH]; intros w; [reflexivity|].
  cbn [importEach map]. unfold mbind at 1, M_bind at 1.
  rewrite acquireUrl_remote by (apply Hremote; left).
  rewrite firstRefusal_call. cbn [answerError]. settle.
  destruct ((extern _ (Download dir i) w).1) as [p|e]; settle; [|reflexivity].
  rewrite IH by (intros j Hj; apply Hremote; now right).
  destruct (firstRefusal _ _) as [[k e]|]; settle; reflexivity.
Qed.

(** An import list of [http] and [https] URLs.  [Import] makes the import
    directory and then hands each URL to [download], as it is written and
    with that directory, in list order.  The first of these calls that is
    refused ends the import with its error, in the world that call left,
    so no URL behind it is downloaded; with no refusal every URL has been
    downloaded and the import returns nil. *)
Theorem Import_remote
    (c : types.StackerConfig) (name : string) (urls : list string) (w : World) :
  let dir := path_Join [types.StackerDir c; "imports"; name] in
  (forall i, i ∈ urls ->
     exists u, url_Parse i = Ok u /\ (Scheme u = "http" \/ Scheme u = "https")) ->
  let calls := EvExt (MkdirAll dir 493) :: map (fun i => EvExt (Download dir i)) urls in
  Import c name urls w =
  match firstRefusal calls w with
  | Some (k, e) => (Err e, after (take (S k) calls) w)
  | None => (Ok tt, after calls w)
  end.
Proof.
  intros dir Hremote calls. unfold Import, calls. fold dir. settle.
  destruct ((extern _ (MkdirAll dir 493) w).1) as [e|]; settle; [reflexivity|].
  rewrite (importEach_remote c dir urls _ Hremote).
  destruct (firstRefusal _ _) as [[k e]|]; settle; reflexivity.
Qed.

(** A directory is imported by the copy tool alone.  After the [Stat],
    [haveRsync] is asked; the tool is [rsync] when it answers nil and [cp]
    otherwise, run with [-a], the directory and the cache directory.  When
    the tool fails its output is the error of the import; otherwise the
    import answers the directory's place in the cache.  The comparator and
    [fileCopy] are not involved: these three are all the calls. *)
Theorem importFile_directory (w : World) (imp cacheDir q : string) (perm : N) :
  resolve (files w) imp = Found q (Dir perm) ->
  let w1 := record (EvStat imp) w in
  let binary := match (extern _ HaveRsync w1).1 with
                | None => "rsync"
                | Some _ => "cp"
                end in
  let tool := CombinedOutput binary ["-a"; imp; cacheDir] in
  let w2 := after [EvExt HaveRsync] w1 in
  let answer := (extern _ tool w2).1 in
  importFile imp cacheDir w =
    (match answer.2 with
     | Some _ => Err answer.1
     | None => Ok (path_Join [cacheDir; path_Base imp])
     end, after [EvExt tool] w2) /\
  log (after [EvExt tool] w2) = log w ++ [EvStat imp; EvExt HaveRsync; EvExt tool].
Proof.
  intros Hdir w1 binary tool w2 answer. split.
  - unfold importFile.
    rewrite (bind_Ok _ _ _ _ _ (os_Stat_Found _ _ _ _ Hdir)).
    rewrite fileInfo_Dir_IsDir. fold w1. settle. fold binary tool.
    unfold answer, w2. settle.
    apply tool_answer.
  - unfold w2, w1. rewrite !after_log. cbn [log record]. now rewrite <- !app_assoc.
Qed.

(** The calls of a commit and what ends them.  The note, the repack, the
    opening of the mutator and the question for its configuration come
    first; a refusal among them ends the commit there with the refusal's
    error, which for the mutator is prefixed with ["mutator failed: "].  The
    answered configuration is then edited, and an edit that fails ends the
    commit with no further call.  Otherwise the mutator is asked for its
    metadata, the clock for the time and the mutator for its annotations,
    [Set] is called with the edited configuration, [Commit] is called and
    the reference is pointed at the root of the path that [Commit]
    answered; again the first refusal ends the commit with its error, in
    the world that call left, and with no refusal the commit returns that
    path. *)
Theorem commitLayer_order
    (c : types.StackerConfig) (name : string) (l : types.Layer) (w : World) :
  let opening :=
    [EvPrint ("generating layer..." +:+ nl);
     EvExt (MaybeRunInUserns
              ["umoci"; "repack"; "--refresh-bundle"; "--image";
               types.OCIDir c +:+ ":" +:+ name;
               path_Join [types.RootFSDir c; ".working"]]
              "layer generation failed");
     EvExt (Mutator name); EvExt (MutatorConfig name)] in
  match firstRefusal opening w with
  | Some (k, e) =>
      commitLayer c name l w =
      (Err (if (k =? 2)%nat then "mutator failed: " +:+ e else e),
       after (take (S k) opening) w)
  | None =>
      let w4 := after opening w in
      exists imageConfig : ispec.ImageConfig,
        (extern _ (MutatorConfig name) (after (take 3 opening) w)).1 = Ok imageConfig /\
        match editConfig l imageConfig with
        | Err e => commitLayer c name l w = (Err e, w4)
        | Ok cfg =>
            exists (meta : ispec.Image) (annotations : gmap string string)
                   (history : ispec.History) (d : ispec.Descriptor),
              let closing :=
                [EvExt (MutatorMeta name); EvExt TimeNow;
                 EvExt (MutatorAnnotations name);
                 EvExt (MutatorSet name cfg meta annotations history);
                 EvExt (MutatorCommit name);
                 EvExt (UpdateReference name d)] in
              match firstRefusal closing w4 with
              | Some (k, e) =>
                  commitLayer c name l w = (Err e, after (take (S k) closing) w4)
              | None =>
                  exists newPath : umoci.DescriptorPath,
                    (extern _ (MutatorCommit name) (after (take 4 closing) w4)).1
                      = Ok newPath /\
                    d = umoci.Root newPath /\
                    commitLayer c name l w = (Ok newPath, after closing w4)
              end
        end
  end.
Proof.
  intros opening. unfold commitLayer, opening.
  change (option string) with (option error).
  settle.
  destruct ((extern _ (MaybeRunInUserns _ _) _).1) as [e1|]; settle; [reflexivity|].
  destruct ((extern _ (Mutator name) _).1) as [e2|]; settle; [reflexivity|].
  destruct ((extern _ (MutatorConfig name) _).1) as [ic|e3]; settle; [|reflexivity].
  exists ic. split; [reflexivity|].
  destruct (editConfig l ic) as [cfg|e4]; settle; [|reflexivity].
  match goal with
  | |- context [(extern _ (MutatorMeta name) ?w0).1] => set (w4 := w0)
  end.
  set (asked := fun evs => after evs w4).
  set (meta := match (extern _ (MutatorMeta name) w4).1 with
               | Ok m => m
               | Err _ => {| ispec.Author := ""; ispec.Created := 0;
                             ispec.Architecture := ""; ispec.OS := "" |}
               end).
  set (now := (extern _ TimeNow (asked [EvExt (MutatorMeta name)])).1).
  set (annotations :=
         match (extern _ (MutatorAnnotations name)
                  (asked [EvExt (MutatorMeta name); EvExt TimeNow])).1 with
         | Ok a => a
         | Err _ => ∅
         end).
  set (meta' := {| ispec.Author := ispec.Author meta; ispec.Created := now;
                   ispec.Architecture := GOARCH; ispec.OS := GOOS |}).
  set (history := {| ispec.EmptyLayer := true; ispec.HistoryCreated := Some now;
                     ispec.CreatedBy := "stacker build" |}).
  set (d := match (extern _ (MutatorCommit name)
                     (asked [EvExt (MutatorMeta name); EvExt TimeNow;
                             EvExt (MutatorAnnotations name);
                             EvExt (MutatorSet name cfg meta' annotations history)])).1
            with
            | Ok p => umoci.Root p
            | Err _ => ispec.empty
            end).
  exists meta', annotations, history, d.
  unfold d, history, meta', annotations, now, meta, asked.
  cbn [ispec.Created].
  replay.
  all: eexists; split; [reflexivity|]; split; reflexivity.
Qed.

End Refusals.

Lemma importFile_directory_witness :
  importFile "/src" "/cache" (Ref.world Ref.disk) =
    (Ok "/cache/src",
     after [EvExt HaveRsync; EvExt (CombinedOutput "rsync" ["-a"; "/src"; "/cache"])]
           (record (EvStat "/src") (Ref.world Ref.disk))) /\
  (@importFile Cases.flaky "/src" "/cache" (Ref.world Ref.disk)).1 =
    Err "rsync: failed to set times".
Proof.
  split.
  - destruct (importFile_directory (Ref.world Ref.disk) "/src" "/cache" "/src" 493)
      as [Hrun _]; [vm_compute; reflexivity|].
    rewrite Hrun. vm_compute. reflexivity.
  - destruct (@importFile_directory Cases.flaky (Ref.world Ref.disk)
                "/src" "/cache" "/src" 493) as [Hrun _]; [vm_compute; reflexivity|].
    rewrite Hrun. vm_compute. reflexivity.
Defined.

Lemma Import_remote_witness :
  let urls := ["http://host/a.tar"; "https://host/b.tar"; "http://host/c.tar"] in
  let run := @Import Cases.flaky Ref.cfg "app" urls (Ref.world Ref.disk) in
  run.1 = Err "404 Not Found" /\
  log run.2 = [EvExt (MkdirAll "/s/imports/app" 493);
               EvExt (Download "/s/imports/app" "http://host/a.tar");
               EvExt (Download "/s/imports/app" "https://host/b.tar")].
Proof.
  intros urls run. unfold run.
  rewrite (@Import_remote Cases.flaky Ref.cfg "app" urls (Ref.world Ref.disk)).
  - vm_compute. split; reflexivity.
  - intros i Hi. unfold urls in Hi.
    apply elem_of_cons in Hi as [->|Hi];
      [|apply elem_of_cons in Hi as [->|Hi];
        [|apply list_elem_of_singleton in Hi as ->]].
    + exists {| Scheme := "http"; Host := "host"; Path := "/a.tar" |}.
      split; [vm_compute; reflexivity | left; reflexivity].
    + exists {| Scheme := "https"; Host := "host"; Path := "/b.tar" |}.
      split; [vm_compute; reflexivity | right; reflexivity].
    + exists {| Scheme := "http"; Host := "host"; Path := "/c.tar" |}.
      split; [vm_compute; reflexivity | left; reflexivity].
Defined.

Lemma prepareTree_calls_witness :
  let run := @prepareTree Cases.flaky Ref.cfg "app" Ref.app (Ref.world Ref.tree) in
  run.1 = Err "no space left on device" /\
  log run.2 = [EvExt (StorageDelete ".working"); EvExt (StorageCreate ".working")].
Proof.
  intros run. unfold run.
  rewrite (@prepareTree_calls Cases.flaky Ref.cfg "app" Ref.app (Ref.world Ref.tree)).
  vm_compute. split; reflexivity.
Defined.

Lemma commitLayer_order_witness :
  let run := @commitLayer Cases.flaky Ref.cfg "app" Ref.app (Ref.world Ref.tree) in
  run.1 = Err "mutator failed: no such tag" /\
  log run.2 =
    [EvPrint ("generating layer..." +:+ nl);
     EvExt (MaybeRunInUserns
              ["umoci"; "repack"; "--refresh-bundle"; "--image"; "/oci:app";
               "/roots/.working"]
              "layer generation failed");
     EvExt (Mutator "app")].
Proof.
  intros run. unfold run.
  pose proof (@commitLayer_order Cases.flaky Ref.cfg "app" Ref.app (Ref.world Ref.tree))
    as Hrun.
  cbv zeta in Hrun.
  match type of Hrun with
  | match ?f with _ => _ end =>
      replace f with (Some (2%nat, "no such tag" : error)) in Hrun
        by (vm_compute; reflexivity)
  end.
  rewrite Hrun. vm_compute. split; reflexivity.
Defined.

Lemma recordLayer_caches_manifest_witness :
  let run := @recordLayer Cases.flaky "app" Ref.app "/s/imports/app" (Ref.world Ref.tree) in
  (@extern Cases.flaky _ (StorageDelete "app") (Ref.world Ref.tree)).1 =
    Some "no such snapshot" /\
  run.1 = Ok tt /\
  log run.2 =
    [EvExt (StorageDelete "app"); EvExt (StorageSnapshot ".working" "app");
     EvPrint ("filesystem " +:+ "app" +:+ " built successfully" +:+ nl);
     EvExt (LookupManifestDescriptor "app");
     EvExt (CachePut Ref.app "/s/imports/app" Ref.image)].
Proof.
  intros run. unfold run. split; [reflexivity|].
  rewrite (@recordLayer_caches_manifest Cases.flaky "app" Ref.app "/s/imports/app"
             (Ref.world Ref.tree)).
  vm_compute. split; reflexivity.
Defined.
